(** * Pomodoro Planner: the plan generator of the Obsidian plugin

    A shallow embedding of the [GeneratePomodoroPlan] modal of the plugin
    (the TypeScript class with [generatePomodoroPlan] and [onOpen], in the
    version that has the three include toggles and the look-ahead before a
    break) and the properties of its schedule.

    Modelling conventions.
    - A JavaScript [number] is [NaN] or an integer ([Z]).  Every number the
      program computes with comes from [parseInt] or from integer
      arithmetic, so this is exact inside the safe-integer range of a
      double; beyond it the rounding of doubles is not modelled.
    - A string is a [string] whose characters are the code units below 256.
    - A [Date] is an Invalid Date or a time value in milliseconds, read in
      local time with a constant offset from UTC (no daylight-saving jump)
      and assumed to stay inside the range a Date can represent, so that no
      operation clips it to an Invalid Date.
    - The wall clock is an oracle in the world: [new Date()] takes the next
      reading.
    - The [while] loop is run with fuel that counts iterations; running out
      of fuel is a [Timeout], never a result. *)

From Stdlib Require Import ZArith List String Ascii Bool Lia DecimalString.
Import ListNotations.

#[local] Open Scope string_scope.
#[local] Open Scope Z_scope.

(** ** The JavaScript built-ins the plugin calls *)

Module JS.

(** *** Numbers *)

Inductive number : Type :=
| NaN
| Num (z : Z).

Definition isNaN (n : number) : bool :=
  match n with NaN => true | Num _ => false end.

(** [a + b] on numbers: [NaN] is absorbing. *)
Definition add (a b : number) : number :=
  match a, b with
  | Num x, Num y => Num (x + y)
  | _, _ => NaN
  end.

(** [a <= b] on numbers: every comparison with [NaN] is false. *)
Definition le (a b : number) : bool :=
  match a, b with
  | Num x, Num y => x <=? y
  | _, _ => false
  end.

(** *** Strings *)

Definition nl : ascii := ascii_of_nat 10.

(** The template-literal conversion [`${z}`] of an integer. *)
Definition Z_toString (z : Z) : string :=
  NilZero.string_of_int (Z.to_int z).

(** [n.toString()]. *)
Definition toString (n : number) : string :=
  match n with
  | NaN => "NaN"
  | Num z => Z_toString z
  end.

Fixpoint repeat_char (c : ascii) (n : nat) : string :=
  match n with
  | O => ""
  | S n' => String c (repeat_char c n')
  end.

(** [s.padStart(len, c)] with a one-character filler. *)
Definition padStart (len : nat) (c : ascii) (s : string) : string :=
  repeat_char c (len - String.length s) ++ s.

(** WhiteSpace and LineTerminator code units below 256: TAB, LF, VT, FF,
    CR, SP and NBSP. *)
Definition isWhiteSpace (c : ascii) : bool :=
  let n := nat_of_ascii c in
  (Nat.leb 9 n && Nat.leb n 13) || Nat.eqb n 32 || Nat.eqb n 160.

Fixpoint trimStart (s : string) : string :=
  match s with
  | "" => ""
  | String c s' => if isWhiteSpace c then trimStart s' else s
  end.

(** [trimEnd], written by recursion on the string: a character is dropped
    when everything from it on is white space. *)
Fixpoint trimEnd (s : string) : string :=
  match s with
  | "" => ""
  | String c s' =>
      match trimEnd s' with
      | "" => if isWhiteSpace c then "" else String c ""
      | t => String c t
      end
  end.

Definition trim (s : string) : string := trimEnd (trimStart s).

(** [s.split(sep)] for a one-character separator: never an empty array. *)
Fixpoint split (sep : ascii) (s : string) : list string :=
  match s with
  | "" => [""]
  | String c s' =>
      if Ascii.eqb c sep then "" :: split sep s'
      else match split sep s' with
           | [] => [String c ""]
           | p :: ps => String c p :: ps
           end
  end.

(** *** Digits *)

(** The value of [c] as a digit of the radix, if it is one. *)
Definition digitValue (radix : Z) (c : ascii) : option Z :=
  let n := Z.of_nat (nat_of_ascii c) in
  let v := if (48 <=? n) && (n <=? 57) then Some (n - 48)
           else if (97 <=? n) && (n <=? 122) then Some (n - 87)
           else if (65 <=? n) && (n <=? 90) then Some (n - 55)
           else None in
  match v with
  | Some d => if d <? radix then Some d else None
  | None => None
  end.

(** The longest prefix of radix digits, as (number of digits, value), and
    the rest of the string. *)
Fixpoint digits_from (radix : Z) (count : nat) (acc : Z) (s : string)
  : nat * Z * string :=
  match s with
  | "" => (count, acc, "")
  | String c s' =>
      match digitValue radix c with
      | Some d => digits_from radix (S count) (acc * radix + d) s'
      | None => (count, acc, s)
      end
  end.

Definition digits (radix : Z) (s : string) : nat * Z * string :=
  digits_from radix O 0 s.

(** An optional sign: its factor and the rest. *)
Definition sign_of (s : string) : Z * string :=
  match s with
  | String "-" s' => (-1, s')
  | String "+" s' => (1, s')
  | _ => (1, s)
  end.

(** [0x] or [0X] in front, removed. *)
Definition hexPrefix (s : string) : option string :=
  match s with
  | String "0" (String "x" s') => Some s'
  | String "0" (String "X" s') => Some s'
  | _ => None
  end.

(** *** parseInt(string), radix not given

    Leading white space is skipped, a sign is read, [0x] switches to
    radix 16, and the longest run of digits is the value; anything after
    it is ignored.  No digit at all gives [NaN]. *)
Definition parseInt (s : string) : number :=
  let '(sign, s1) := sign_of (trimStart s) in
  let '(radix, s2) := match hexPrefix s1 with
                      | Some s' => (16, s')
                      | None => (10, s1)
                      end in
  let '(count, value, _) := digits radix s2 in
  match count with
  | O => NaN
  | S _ => Num (sign * value)
  end.

(** *** Number(string)

    The whole trimmed string has to be a numeric literal.  The plugin
    hands the result to [setHours] and [setMinutes] only, which truncate
    a fraction toward zero and turn a non-finite value into an Invalid
    Date; so [Number] here gives the truncated value, and [NaN] for
    [Infinity] as well. *)

Definition radixPrefix (s : string) : option (Z * string) :=
  match s with
  | String "0" (String "x" s') | String "0" (String "X" s') => Some (16, s')
  | String "0" (String "o" s') | String "0" (String "O" s') => Some (8, s')
  | String "0" (String "b" s') | String "0" (String "B" s') => Some (2, s')
  | _ => None
  end.

(** An exponent part [e], [e+] or [e-] followed by digits; [None] when
    the rest is not an exponent part up to the end of the string. *)
Definition exponentPart (s : string) : option Z :=
  match s with
  | "" => Some 0
  | String c s' =>
      if Ascii.eqb c "e" || Ascii.eqb c "E" then
        let '(sign, s1) := sign_of s' in
        match digits 10 s1 with
        | (S _, e, "") => Some (sign * e)
        | _ => None
        end
      else None
  end.

(** [mantissa * 10^scale], truncated toward zero. *)
Definition scale10 (mantissa scale : Z) : Z :=
  if 0 <=? scale then mantissa * 10 ^ scale
  else Z.quot mantissa (10 ^ (- scale)).

(** An unsigned decimal literal: digits, an optional fraction, an
    optional exponent, with a digit before or after the point. *)
Definition unsignedDecimal (s : string) : option Z :=
  let '(ni, vi, s1) := digits 10 s in
  let '(nf, vf, s2) :=
    match s1 with
    | String "." s' => digits_from 10 O vi s'
    | _ => (O, vi, s1)
    end in
  match ni, nf with
  | O, O => None
  | _, _ =>
      match exponentPart s2 with
      | Some e => Some (scale10 vf (e - Z.of_nat nf))
      | None => None
      end
  end.

Definition Number (s : string) : number :=
  let t := trim s in
  match t with
  | "" => Num 0
  | _ =>
      match radixPrefix t with
      | Some (radix, s') =>
          match digits radix s' with
          | (S _, v, "") => Num v
          | _ => NaN
          end
      | None =>
          let '(sign, s1) := sign_of t in
          match unsignedDecimal s1 with
          | Some v => Num (sign * v)
          | None => NaN
          end
      end
  end.

(** *** Date

    Time values are milliseconds of local time; the field extraction and
    composition functions are the ones of the language definition.  Time
    values are taken inside the range of a Date (8.64e15 milliseconds on
    either side of the epoch), where [setHours] and [setMinutes] clip
    nothing. *)

Inductive Date : Type :=
| InvalidDate
| DateAt (t : Z).

Definition msPerSecond : Z := 1000.
Definition msPerMinute : Z := 60000.
Definition msPerHour : Z := 3600000.
Definition msPerDay : Z := 86400000.

Definition Day (t : Z) : Z := t / msPerDay.
Definition HourFromTime (t : Z) : Z := (t / msPerHour) mod 24.
Definition MinFromTime (t : Z) : Z := (t / msPerMinute) mod 60.
Definition SecFromTime (t : Z) : Z := (t / msPerSecond) mod 60.
Definition msFromTime (t : Z) : Z := t mod msPerSecond.

Definition MakeTime (hour min sec ms : Z) : Z :=
  hour * msPerHour + min * msPerMinute + sec * msPerSecond + ms.

Definition MakeDate (day time : Z) : Z := day * msPerDay + time.

Definition getTime (d : Date) : number :=
  match d with InvalidDate => NaN | DateAt t => Num t end.

Definition getHours (d : Date) : number :=
  match d with InvalidDate => NaN | DateAt t => Num (HourFromTime t) end.

Definition getMinutes (d : Date) : number :=
  match d with InvalidDate => NaN | DateAt t => Num (MinFromTime t) end.

(** [d.setHours(hour)]: the other fields are kept; an hour outside 0..23
    carries into the day. *)
Definition setHours (d : Date) (hour : number) : Date :=
  match d, hour with
  | DateAt t, Num h =>
      DateAt (MakeDate (Day t)
                (MakeTime h (MinFromTime t) (SecFromTime t) (msFromTime t)))
  | _, _ => InvalidDate
  end.

(** [d.setMinutes(min)]. *)
Definition setMinutes (d : Date) (min : number) : Date :=
  match d, min with
  | DateAt t, Num m =>
      DateAt (MakeDate (Day t)
                (MakeTime (HourFromTime t) m (SecFromTime t) (msFromTime t)))
  | _, _ => InvalidDate
  end.

(** [a <= b] on dates compares the time values. *)
Definition Date_le (a b : Date) : bool := le (getTime a) (getTime b).

End JS.

Import JS.

(** ** Settings *)

Record PomodoroSettings : Type := mkSettings {
  pomodoro : Z;
  shortBreak : Z;
  longBreak : Z;
  group : Z;
  includeStats : bool;
  includeShortBreak : bool;
  includeLongBreak : bool
}.

Definition DEFAULT_SETTINGS : PomodoroSettings :=
  {| pomodoro := 25;
     shortBreak := 5;
     longBreak := 15;
     group := 4;
     includeStats := true;
     includeShortBreak := false;
     includeLongBreak := true |}.

Definition set_pomodoro (v : Z) (s : PomodoroSettings) : PomodoroSettings :=
  mkSettings v (shortBreak s) (longBreak s) (group s)
    (includeStats s) (includeShortBreak s) (includeLongBreak s).

Definition set_shortBreak (v : Z) (s : PomodoroSettings) : PomodoroSettings :=
  mkSettings (pomodoro s) v (longBreak s) (group s)
    (includeStats s) (includeShortBreak s) (includeLongBreak s).

Definition set_longBreak (v : Z) (s : PomodoroSettings) : PomodoroSettings :=
  mkSettings (pomodoro s) (shortBreak s) v (group s)
    (includeStats s) (includeShortBreak s) (includeLongBreak s).

Definition set_group (v : Z) (s : PomodoroSettings) : PomodoroSettings :=
  mkSettings (pomodoro s) (shortBreak s) (longBreak s) v
    (includeStats s) (includeShortBreak s) (includeLongBreak s).

Definition set_includeStats (v : bool) (s : PomodoroSettings)
  : PomodoroSettings :=
  mkSettings (pomodoro s) (shortBreak s) (longBreak s) (group s)
    v (includeShortBreak s) (includeLongBreak s).

Definition set_includeShortBreak (v : bool) (s : PomodoroSettings)
  : PomodoroSettings :=
  mkSettings (pomodoro s) (shortBreak s) (longBreak s) (group s)
    (includeStats s) v (includeLongBreak s).

Definition set_includeLongBreak (v : bool) (s : PomodoroSettings)
  : PomodoroSettings :=
  mkSettings (pomodoro s) (shortBreak s) (longBreak s) (group s)
    (includeStats s) (includeShortBreak s) v.

(** ** The helpers nested in generatePomodoroPlan *)

(** What [parseTimeOrCount] returns: [typeof] tells the two apart. *)
Inductive TimeOrCount : Type :=
| Count (n : Z)
| Time (d : Date).

Definition willContinue (currentTime : Date) (totalPomodoros : Z)
  (endTimeOrCount : TimeOrCount) : bool :=
  match endTimeOrCount with
  | Count n => totalPomodoros <=? n
  | Time d => Date_le currentTime d
  end.

Definition addMinutes (time : Date) (minutes : Z) : Date :=
  let newTime := time in
  setMinutes newTime (add (getMinutes newTime) (Num minutes)).

Definition formatTime (time : Date) : string :=
  let hours := padStart 2 "0" (toString (getHours time)) in
  let minutes := padStart 2 "0" (toString (getMinutes time)) in
  hours ++ ":" ++ minutes.

(** [parseTime] after its [new Date()] has given [now]: a missing second
    part is [undefined], which [setMinutes] reads as [NaN]. *)
Definition parseTime_on (now : Date) (time : string) : Date :=
  let parts := map Number (split ":" time) in
  let hours := nth 0 parts NaN in
  let minutes := nth 1 parts NaN in
  setMinutes (setHours now hours) minutes.

(** ** The modal and its environment *)

(** What the modal does to the outside: a [Notice] shown to the user and the
    plugin's [saveSettings] callback. *)
Inductive Event : Type :=
| NoticeShown (message : string)
| SettingsSaved (s : PomodoroSettings).

(** The fields of the modal ([settings], [start], [end], [resultMarkdown],
    [resultEl]: the text of the [pre] element once [onOpen] has created it),
    the wall clock with the number of readings taken so far, and the events
    so far, oldest first. *)
Record World : Type := mkWorld {
  settings : PomodoroSettings;
  start : string;
  end_ : string;
  resultMarkdown : string;
  resultEl : option string;
  clock : nat -> Z;
  reads : nat;
  log : list Event
}.

Definition with_settings (s : PomodoroSettings) (w : World) : World :=
  mkWorld s (start w) (end_ w) (resultMarkdown w) (resultEl w)
    (clock w) (reads w) (log w).

Definition with_start (v : string) (w : World) : World :=
  mkWorld (settings w) v (end_ w) (resultMarkdown w) (resultEl w)
    (clock w) (reads w) (log w).

Definition with_end (v : string) (w : World) : World :=
  mkWorld (settings w) (start w) v (resultMarkdown w) (resultEl w)
    (clock w) (reads w) (log w).

Definition with_resultMarkdown (v : string) (w : World) : World :=
  mkWorld (settings w) (start w) (end_ w) v (resultEl w)
    (clock w) (reads w) (log w).

Definition with_resultEl (v : option string) (w : World) : World :=
  mkWorld (settings w) (start w) (end_ w) (resultMarkdown w) v
    (clock w) (reads w) (log w).

Definition tick (w : World) : World :=
  mkWorld (settings w) (start w) (end_ w) (resultMarkdown w) (resultEl w)
    (clock w) (S (reads w)) (log w).

Definition emit (e : Event) (w : World) : World :=
  mkWorld (settings w) (start w) (end_ w) (resultMarkdown w) (resultEl w)
    (clock w) (reads w) (log w ++ [e]).

(** How a method call ends: it returns, an exception leaves it, or the fuel
    of its loop ran out. *)
Inductive outcome (A : Type) : Type :=
| Return (a : A) (w : World)
| Throw (error : string) (w : World)
| Timeout.

Arguments Return {A} a w.
Arguments Throw {A} error w.
Arguments Timeout {A}.

Definition M (A : Type) : Type := World -> outcome A.

Definition ret {A : Type} (a : A) : M A := fun w => Return a w.

Definition bind {A B : Type} (c : M A) (k : A -> M B) : M B :=
  fun w =>
    match c w with
    | Return a w' => k a w'
    | Throw e w' => Throw e w'
    | Timeout => Timeout
    end.

Notation "x <- c ;; k" := (bind c (fun x => k))
  (at level 61, c at next level, right associativity).
Notation "c ;;; k" := (bind c (fun _ => k))
  (at level 61, right associativity).

Definition get {A : Type} (f : World -> A) : M A := fun w => Return (f w) w.
Definition modify (f : World -> World) : M unit := fun w => Return tt (f w).

(** [new Date()]: the next reading of the wall clock. *)
Definition newDate : M Date :=
  fun w => Return (DateAt (clock w (reads w))) (tick w).

(** [new Notice(message)]. *)
Definition Notice (message : string) : M unit :=
  modify (emit (NoticeShown message)).

(** [this.resultEl.setText(text)]: a TypeError while [resultEl] is still
    undefined. *)
Definition resultEl_setText (text : string) : M unit :=
  fun w =>
    match resultEl w with
    | Some _ => Return tt (with_resultEl (Some text) w)
    | None => Throw "TypeError" w
    end.

(** [this.saveSettings(this.settings)]. *)
Definition saveSettings : M unit :=
  fun w => Return tt (emit (SettingsSaved (settings w)) w).

Definition parseTime (time : string) : M Date :=
  now <- newDate ;;
  ret (parseTime_on now time).

Definition parseTimeOrCount (timeOrCount : string) : M TimeOrCount :=
  if String.eqb timeOrCount "" then ret (Count 0)
  else
    time <- parseTime timeOrCount ;;
    if negb (isNaN (getTime time)) then ret (Time time)
    else
      match parseInt timeOrCount with
      | Num count => ret (Count count)
      | NaN =>
          Notice "Invalid time or count format" ;;;
          ret (Count 0)
      end.

(** ** The loop of generatePomodoroPlan *)

(** The variables the loop updates; [markdown] is [this.resultMarkdown]
    while the plan is being built. *)
Record LoopState : Type := mkLoop {
  currentTime : Date;
  groupCount : Z;
  totalRestTime : Z;
  pomodoroCount : Z;
  markdown : string
}.

Definition newline : string := String nl "".

Definition pomodoroLine (s : PomodoroSettings) (t : Date) (n : Z) : string :=
  "- [ ] " ++ formatTime t ++ " - " ++ formatTime (addMinutes t (pomodoro s))
    ++ " Pomodoro #" ++ Z_toString n ++ newline.

Definition longBreakLine (s : PomodoroSettings) (t : Date) : string :=
  "- [ ] " ++ formatTime t ++ " - " ++ formatTime (addMinutes t (longBreak s))
    ++ " Long Break" ++ newline.

Definition shortBreakLine (s : PomodoroSettings) (t : Date) : string :=
  "- [ ] " ++ formatTime t ++ " - " ++ formatTime (addMinutes t (shortBreak s))
    ++ " Short Break" ++ newline.

(** How the body of the loop ends: at its last statement, back to the
    [while] test, or at a [break]. *)
Inductive flow : Type := Next | Break.

(** One pass through the body, entered after the [while] test held. *)
Definition iteration (s : PomodoroSettings) (endTimeOrCount : TimeOrCount)
  (st : LoopState) : LoopState * flow :=
  let md := markdown st ++ pomodoroLine s (currentTime st) (pomodoroCount st) in
  let currentTime := addMinutes (currentTime st) (pomodoro s) in
  let pomodoroCount := pomodoroCount st + 1 in
  let groupCount := groupCount st + 1 in
  if groupCount =? group s then
    if negb (willContinue (addMinutes currentTime (longBreak s + pomodoro s))
               pomodoroCount endTimeOrCount)
    then (mkLoop currentTime groupCount (totalRestTime st) pomodoroCount md,
          Break)
    else
      let md := if includeLongBreak s
                then md ++ longBreakLine s currentTime else md in
      (mkLoop (addMinutes currentTime (longBreak s)) 0
         (totalRestTime st + longBreak s) pomodoroCount md, Next)
  else
    if negb (willContinue (addMinutes currentTime (pomodoro s + shortBreak s))
               pomodoroCount endTimeOrCount)
    then (mkLoop currentTime groupCount (totalRestTime st) pomodoroCount md,
          Break)
    else
      let md := if includeShortBreak s
                then md ++ shortBreakLine s currentTime else md in
      (mkLoop (addMinutes currentTime (shortBreak s)) groupCount
         (totalRestTime st + shortBreak s) pomodoroCount md, Next).

(** The [while] statement; [None] when the fuel is used up before the
    loop has ended. *)
Fixpoint while (fuel : nat) (s : PomodoroSettings)
  (endTimeOrCount : TimeOrCount) (st : LoopState) : option LoopState :=
  if willContinue (addMinutes (currentTime st) (pomodoro s))
       (pomodoroCount st) endTimeOrCount
  then
    match fuel with
    | O => None
    | S fuel' =>
        match iteration s endTimeOrCount st with
        | (st', Next) => while fuel' s endTimeOrCount st'
        | (st', Break) => Some st'
        end
    end
  else Some st.

Definition initial (startTime : Date) : LoopState :=
  mkLoop startTime 0 0 1 "".

(** ** The statistics block *)

(** ["H hours"], ["H hours, M minutes"] or ["M minutes"]; the method
    writes this out once for the work time and once for the rest time. *)
Definition hoursAndMinutes (hours minutes : Z) : string :=
  if 0 <? hours then
    Z_toString hours ++ " hours"
      ++ (if 0 <? minutes then ", " ++ Z_toString minutes ++ " minutes"
          else "")
  else Z_toString minutes ++ " minutes".

Definition totalWorkTime (s : PomodoroSettings) (st : LoopState) : Z :=
  pomodoro s * (pomodoroCount st - 1).

Definition statsInfo (s : PomodoroSettings) (st : LoopState) : string :=
  let totalWorkTimeHours := totalWorkTime s st / 60 in
  let totalWorkTimeMinutes := Z.rem (totalWorkTime s st) 60 in
  let totalRestTimeHours := totalRestTime st / 60 in
  let totalRestTimeMinutes := Z.rem (totalRestTime st) 60 in
  newline ++ newline
    ++ "  Total pomodoros: " ++ Z_toString (pomodoroCount st - 1) ++ newline
    ++ "  Total work time: "
    ++ hoursAndMinutes totalWorkTimeHours totalWorkTimeMinutes ++ newline
    ++ "  Total rest time: "
    ++ hoursAndMinutes totalRestTimeHours totalRestTimeMinutes ++ newline.

(** ** generatePomodoroPlan *)

Definition run_loop (fuel : nat) (s : PomodoroSettings)
  (endTimeOrCount : TimeOrCount) (startTime : Date) : M LoopState :=
  fun w =>
    match while fuel s endTimeOrCount (initial startTime) with
    | Some st => Return st (with_resultMarkdown (markdown st) w)
    | None => Timeout
    end.

Definition generatePomodoroPlan (fuel : nat) : M unit :=
  modify (with_resultMarkdown "") ;;;
  time <- get start ;;
  startTime <- parseTime time ;;
  timeOrCount <- get end_ ;;
  endTimeOrCount <- parseTimeOrCount timeOrCount ;;
  s <- get settings ;;
  st <- run_loop fuel s endTimeOrCount startTime ;;
  if pomodoroCount st - 1 =? 0 then resultEl_setText ""
  else
    (if includeStats s
     then modify (fun w =>
            with_resultMarkdown (resultMarkdown w ++ statsInfo s st) w)
     else ret tt) ;;;
    el <- get resultEl ;;
    match el with
    | Some _ =>
        md <- get resultMarkdown ;;
        resultEl_setText md ;;;
        saveSettings
    | None => ret tt
    end.

(** ** The modal's constructor and form *)

(** The constructor: the settings of the plugin and the current time of
    day as the start. *)
Definition construct (s : PomodoroSettings) (clk : nat -> Z) (n : nat)
  : World :=
  let now := DateAt (clk n) in
  let time := padStart 2 "0" (toString (getHours now)) ++ ":"
                ++ padStart 2 "0" (toString (getMinutes now)) in
  mkWorld s time "" "" None clk (S n) [].

(** The [onChange] callbacks of the text fields and toggles. *)
Definition onChange_end (fuel : nat) (value : string) : M unit :=
  modify (with_end value) ;;; generatePomodoroPlan fuel.

Definition onChange_start (fuel : nat) (value : string) : M unit :=
  modify (with_start value) ;;; generatePomodoroPlan fuel.

(** The four numeric fields share this shape, each with its own field. *)
Definition onChange_number (set : Z -> PomodoroSettings -> PomodoroSettings)
  (fuel : nat) (value : string) : M unit :=
  match parseInt value with
  | Num v =>
      modify (fun w => with_settings (set v (settings w)) w) ;;;
      generatePomodoroPlan fuel
  | NaN => ret tt
  end.

Definition onChange_pomodoro := onChange_number set_pomodoro.
Definition onChange_shortBreak := onChange_number set_shortBreak.
Definition onChange_longBreak := onChange_number set_longBreak.
Definition onChange_group := onChange_number set_group.

Definition onChange_toggle (set : bool -> PomodoroSettings -> PomodoroSettings)
  (fuel : nat) (value : bool) : M unit :=
  modify (fun w => with_settings (set value (settings w)) w) ;;;
  generatePomodoroPlan fuel.

Definition onChange_includeShortBreak := onChange_toggle set_includeShortBreak.
Definition onChange_includeLongBreak := onChange_toggle set_includeLongBreak.
Definition onChange_includeStats := onChange_toggle set_includeStats.

(** [onOpen] builds the form, creates the [pre] element and generates. *)
Definition onOpen (fuel : nat) : M unit :=
  modify (with_resultEl (Some "")) ;;;
  generatePomodoroPlan fuel.


(** What the user can do in the open form: an edit of a field runs the
    callback of that field to its return. *)
Inductive edits : World -> World -> Prop :=
| edit_end fuel value w w' :
    onChange_end fuel value w = Return tt w' -> edits w w'
| edit_start fuel value w w' :
    onChange_start fuel value w = Return tt w' -> edits w w'
| edit_pomodoro fuel value w w' :
    onChange_pomodoro fuel value w = Return tt w' -> edits w w'
| edit_shortBreak fuel value w w' :
    onChange_shortBreak fuel value w = Return tt w' -> edits w w'
| edit_longBreak fuel value w w' :
    onChange_longBreak fuel value w = Return tt w' -> edits w w'
| edit_group fuel value w w' :
    onChange_group fuel value w = Return tt w' -> edits w w'
| edit_includeShortBreak fuel value w w' :
    onChange_includeShortBreak fuel value w = Return tt w' -> edits w w'
| edit_includeLongBreak fuel value w w' :
    onChange_includeLongBreak fuel value w = Return tt w' -> edits w w'
| edit_includeStats fuel value w w' :
    onChange_includeStats fuel value w = Return tt w' -> edits w w'.

(** The worlds the modal can be in: opened by the command, then edited. *)
Inductive reachable : World -> Prop :=
| reachable_opened fuel s clk n w :
    onOpen fuel (construct s clk n) = Return tt w -> reachable w
| reachable_edited w w' :
    reachable w -> edits w w' -> reachable w'.


(** * The buttons of the form and the plugin around the modal *)

(** ** The two buttons *)

(** What the buttons act on besides the fields of the modal: whether the
    modal is on screen, the texts handed to [editor.replaceSelection] by
    the [onSubmit] callback of the plugin, oldest first, and the text on
    the clipboard.  The buttons exist once [onOpen] has run, when
    [resultMarkdown] is a string. *)
Record Desk : Type := mkDesk {
  modal : World;
  isOpen : bool;
  inserted : list string;
  clipboard : option string
}.

(** [this.close()], which runs [onClose]: the content element is emptied,
    the fields of the modal stay as they are. *)
Definition close (d : Desk) : Desk :=
  mkDesk (modal d) false (inserted d) (clipboard d).

(** [this.onSubmit(result)], that is [editor.replaceSelection(result)]. *)
Definition onSubmit (result : string) (d : Desk) : Desk :=
  mkDesk (modal d) (isOpen d) (inserted d ++ [result]) (clipboard d).

(** [navigator.clipboard.writeText(text)], taken to succeed. *)
Definition clipboard_writeText (text : string) (d : Desk) : Desk :=
  mkDesk (modal d) (isOpen d) (inserted d) (Some text).

(** [new Notice(message)] from a button. *)
Definition notify (message : string) (d : Desk) : Desk :=
  mkDesk (emit (NoticeShown message) (modal d)) (isOpen d) (inserted d)
    (clipboard d).

(** The click handler of "Insert into editor". *)
Definition insertIntoEditor (d : Desk) : Desk :=
  if String.eqb (resultMarkdown (modal d)) ""
  then notify "Please generate the plan first" d
  else onSubmit (resultMarkdown (modal d)) (close d).

(** The click handler of "Copy to clipboard". *)
Definition copyToClipboard (d : Desk) : Desk :=
  if String.eqb (resultMarkdown (modal d)) ""
  then notify "Please generate the plan first" d
  else notify "Copied to clipboard"
         (clipboard_writeText (resultMarkdown (modal d)) d).

(** ** The plugin: loading and saving the settings *)

Module PomodoroPlanner.

(** The values of a settings object and of the data file, and an object as
    its own properties in insertion order. *)
Inductive value : Type :=
| VNumber (z : Z)
| VBoolean (b : bool)
| VString (s : string)
| VNull.

Definition object : Type := list (string * value).

(** [o[key]]. *)
Fixpoint lookup (key : string) (o : object) : option value :=
  match o with
  | [] => None
  | (k, v) :: o' => if String.eqb key k then Some v else lookup key o'
  end.

(** [o[key] = v]: an own property keeps its place, a new one goes last. *)
Fixpoint assignKey (key : string) (v : value) (o : object) : object :=
  match o with
  | [] => [(key, v)]
  | (k, v') :: o' =>
      if String.eqb key k then (k, v) :: o'
      else (k, v') :: assignKey key v o'
  end.

(** [Object.assign(target, ...sources)]: the own properties of each source
    in turn, a source that is [null] being skipped. *)
Definition assignFrom (target source : object) : object :=
  fold_left (fun t kv => assignKey (fst kv) (snd kv) t) source target.

Definition Object_assign (target : object) (sources : list (option object))
  : object :=
  fold_left
    (fun t source =>
       match source with
       | Some o => assignFrom t o
       | None => t
       end)
    sources target.

(** A settings record as the object the program handles, and the record an
    object gives when every field is there with its type. *)
Definition toObject (s : PomodoroSettings) : object :=
  [ ("pomodoro", VNumber (pomodoro s));
    ("shortBreak", VNumber (shortBreak s));
    ("longBreak", VNumber (longBreak s));
    ("group", VNumber (group s));
    ("includeStats", VBoolean (includeStats s));
    ("includeShortBreak", VBoolean (includeShortBreak s));
    ("includeLongBreak", VBoolean (includeLongBreak s)) ].

Definition numberAt (key : string) (o : object) : option Z :=
  match lookup key o with
  | Some (VNumber z) => Some z
  | _ => None
  end.

Definition booleanAt (key : string) (o : object) : option bool :=
  match lookup key o with
  | Some (VBoolean b) => Some b
  | _ => None
  end.

Definition ofObject (o : object) : option PomodoroSettings :=
  match numberAt "pomodoro" o, numberAt "shortBreak" o,
        numberAt "longBreak" o, numberAt "group" o,
        booleanAt "includeStats" o, booleanAt "includeShortBreak" o,
        booleanAt "includeLongBreak" o with
  | Some p, Some sb, Some lb, Some g, Some st, Some isb, Some ilb =>
      Some (mkSettings p sb lb g st isb ilb)
  | _, _, _, _, _, _, _ => None
  end.

(** The plugin: [this.settings], and the content of its data file, [None]
    while nothing was saved ([loadData] then gives [null]). *)
Record Plugin : Type := mkPlugin {
  this_settings : object;
  data : option object
}.

Definition loadData (p : Plugin) : option object := data p.

Definition saveData (o : object) (p : Plugin) : Plugin :=
  mkPlugin (this_settings p) (Some o).

Definition loadSettings (p : Plugin) : Plugin :=
  mkPlugin
    (Object_assign [] [Some (toObject DEFAULT_SETTINGS); loadData p])
    (data p).

Definition saveSettings (settings : object) (p : Plugin) : Plugin :=
  saveData settings p.

(** The [editorCallback] of the command: the settings are loaded again and
    a modal is made from them and opened.  The modal of this development
    takes its settings as a record, so the callback is defined where the
    loaded object gives one. *)
Definition editorCallback (fuel : nat) (clk : nat -> Z) (n : nat)
  (p : Plugin) : option (Plugin * outcome unit) :=
  let p' := loadSettings p in
  match ofObject (this_settings p') with
  | Some s => Some (p', onOpen fuel (construct s clk n))
  | None => None
  end.

End PomodoroPlanner.

(** * The plan on the Date of the host

    Above, a Date is read in a zone whose offset from UTC never changes,
    no time value is ever outside the range of a Date, and a text may
    have any length.  This part models the same code once more on the
    Date as the host has it:
    - a time value is an instant; [getHours], [getMinutes], [setHours] and
      [setMinutes] go through the local time of the host's time zone
      (LocalTime and UTC of the language definition), which may have
      clock changes: a local time that a change skips, or repeats, is
      read with the offset in force before that change;
    - [setHours] and [setMinutes] end with TimeClip: a time value beyond
      8.64e15 milliseconds on either side of the epoch is an Invalid Date;
    - a string has a greatest length, which depends on the engine (2^29 -
      24 in V8); [this.resultMarkdown += ...] throws a RangeError when
      the text would pass it.  The limit is far above the length of a
      line or of the statistics block, so only these appends are checked;
    - [this.resultMarkdown] is the text the loop appends to, so the text
      of a call starts from what the first statement of
      generatePomodoroPlan leaves there.
    Numbers stay exact integers: that is what the doubles of the code
    are while they stay below 2^53 in magnitude, and a number of hours or
    minutes beyond that gives an Invalid Date in the code (through
    TimeClip, or as an Infinity) and here (through TimeClip) alike. *)

Module Host.

(** ** The time zone *)

(** The offset from UTC in force at first, in milliseconds, and the clock
    changes in the order of time: the instant of a change and the offset
    from then on. *)
Record Zone : Type := mkZone {
  firstOffset : Z;
  changes : list (Z * Z)
}.

(** The offset in force at the instant [t]. *)
Fixpoint offsetFrom (offset : Z) (cs : list (Z * Z)) (t : Z) : Z :=
  match cs with
  | [] => offset
  | (change, after) :: cs' =>
      if t <? change then offset else offsetFrom after cs' t
  end.

Definition LocalTime (z : Zone) (t : Z) : Z :=
  t + offsetFrom (firstOffset z) (changes z) t.

(** The instant of a local time.  Before a change the old offset holds;
    a local time that the change skips (no instant shows it) or repeats
    (two instants show it) is read with the old offset as well. *)
Fixpoint utcFrom (offset : Z) (cs : list (Z * Z)) (tlocal : Z) : Z :=
  match cs with
  | [] => tlocal - offset
  | (change, after) :: cs' =>
      if tlocal - offset <? change then tlocal - offset
      else if tlocal - after <? change then tlocal - offset
      else utcFrom after cs' tlocal
  end.

Definition UTC (z : Zone) (tlocal : Z) : Z :=
  utcFrom (firstOffset z) (changes z) tlocal.

(** ** Date *)

Definition maxTime : Z := 8640000000000000.

Definition TimeClip (t : Z) : Date :=
  if Z.abs t <=? maxTime then DateAt t else InvalidDate.

(** The host: its time zone and the greatest length of a string. *)
Record Env : Type := mkEnv {
  zone : Zone;
  maxLength : Z
}.

Section OnHost.

Variable env : Env.

Definition getHours (d : Date) : number :=
  match d with
  | InvalidDate => NaN
  | DateAt t => Num (HourFromTime (LocalTime (zone env) t))
  end.

Definition getMinutes (d : Date) : number :=
  match d with
  | InvalidDate => NaN
  | DateAt t => Num (MinFromTime (LocalTime (zone env) t))
  end.

(** [d.setHours(hour)]. *)
Definition setHours (d : Date) (hour : number) : Date :=
  match d, hour with
  | DateAt t, Num h =>
      let tl := LocalTime (zone env) t in
      TimeClip
        (UTC (zone env)
           (MakeDate (Day tl)
              (MakeTime h (MinFromTime tl) (SecFromTime tl) (msFromTime tl))))
  | _, _ => InvalidDate
  end.

(** [d.setMinutes(min)]. *)
Definition setMinutes (d : Date) (min : number) : Date :=
  match d, min with
  | DateAt t, Num m =>
      let tl := LocalTime (zone env) t in
      TimeClip
        (UTC (zone env)
           (MakeDate (Day tl)
              (MakeTime (HourFromTime tl) m (SecFromTime tl) (msFromTime tl))))
  | _, _ => InvalidDate
  end.

(** ** The helpers nested in generatePomodoroPlan

    [willContinue] compares time values and counts and is the function
    above. *)

Definition addMinutes (time : Date) (minutes : Z) : Date :=
  let newTime := time in
  setMinutes newTime (add (getMinutes newTime) (Num minutes)).

Definition formatTime (time : Date) : string :=
  let hours := padStart 2 "0" (toString (getHours time)) in
  let minutes := padStart 2 "0" (toString (getMinutes time)) in
  hours ++ ":" ++ minutes.

Definition parseTime_on (now : Date) (time : string) : Date :=
  let parts := map Number (split ":" time) in
  let hours := nth 0 parts NaN in
  let minutes := nth 1 parts NaN in
  setMinutes (setHours now hours) minutes.

Definition parseTime (time : string) : M Date :=
  now <- newDate ;;
  ret (parseTime_on now time).

Definition parseTimeOrCount (timeOrCount : string) : M TimeOrCount :=
  if String.eqb timeOrCount "" then ret (Count 0)
  else
    time <- parseTime timeOrCount ;;
    if negb (isNaN (getTime time)) then ret (Time time)
    else
      match parseInt timeOrCount with
      | Num count => ret (Count count)
      | NaN =>
          Notice "Invalid time or count format" ;;;
          ret (Count 0)
      end.

(** ** The loop *)

Definition pomodoroLine (s : PomodoroSettings) (t : Date) (n : Z) : string :=
  "- [ ] " ++ formatTime t ++ " - " ++ formatTime (addMinutes t (pomodoro s))
    ++ " Pomodoro #" ++ Z_toString n ++ newline.

Definition longBreakLine (s : PomodoroSettings) (t : Date) : string :=
  "- [ ] " ++ formatTime t ++ " - " ++ formatTime (addMinutes t (longBreak s))
    ++ " Long Break" ++ newline.

Definition shortBreakLine (s : PomodoroSettings) (t : Date) : string :=
  "- [ ] " ++ formatTime t ++ " - " ++ formatTime (addMinutes t (shortBreak s))
    ++ " Short Break" ++ newline.

Definition lengthZ (s : string) : Z := Z.of_nat (String.length s).

(** [text += more]: [None] is the RangeError of a string that would be
    too long; the text is then left as it was. *)
Definition append (text more : string) : option string :=
  if lengthZ text + lengthZ more <=? maxLength env
  then Some (text ++ more) else None.

(** How a pass through the body of the loop ends: at its last statement,
    at a [break], or with the RangeError of an append, which leaves the
    text in [this.resultMarkdown] as it was before that append. *)
Inductive pass : Type :=
| Passed (st : LoopState) (f : flow)
| RangeError (md : string).

Definition iteration (s : PomodoroSettings) (endTimeOrCount : TimeOrCount)
  (st : LoopState) : pass :=
  match append (markdown st)
          (pomodoroLine s (currentTime st) (pomodoroCount st)) with
  | None => RangeError (markdown st)
  | Some md =>
      let currentTime := addMinutes (currentTime st) (pomodoro s) in
      let pomodoroCount := pomodoroCount st + 1 in
      let groupCount := groupCount st + 1 in
      if groupCount =? group s then
        if negb (willContinue
                   (addMinutes currentTime (longBreak s + pomodoro s))
                   pomodoroCount endTimeOrCount)
        then Passed (mkLoop currentTime groupCount (totalRestTime st)
                       pomodoroCount md) Break
        else
          match (if includeLongBreak s
                 then append md (longBreakLine s currentTime)
                 else Some md) with
          | None => RangeError md
          | Some md' =>
              Passed (mkLoop (addMinutes currentTime (longBreak s)) 0
                        (totalRestTime st + longBreak s) pomodoroCount md')
                Next
          end
      else
        if negb (willContinue
                   (addMinutes currentTime (pomodoro s + shortBreak s))
                   pomodoroCount endTimeOrCount)
        then Passed (mkLoop currentTime groupCount (totalRestTime st)
                       pomodoroCount md) Break
        else
          match (if includeShortBreak s
                 then append md (shortBreakLine s currentTime)
                 else Some md) with
          | None => RangeError md
          | Some md' =>
              Passed (mkLoop (addMinutes currentTime (shortBreak s))
                        groupCount (totalRestTime st + shortBreak s)
                        pomodoroCount md')
                Next
          end
  end.

(** How the [while] statement ends: the loop is over, an append threw, or
    the fuel is used up before either. *)
Inductive ended : Type :=
| Finished (st : LoopState)
| Overflow (md : string)
| OutOfFuel.

Fixpoint while (fuel : nat) (s : PomodoroSettings)
  (endTimeOrCount : TimeOrCount) (st : LoopState) : ended :=
  if willContinue (addMinutes (currentTime st) (pomodoro s))
       (pomodoroCount st) endTimeOrCount
  then
    match fuel with
    | O => OutOfFuel
    | S fuel' =>
        match iteration s endTimeOrCount st with
        | Passed st' Next => while fuel' s endTimeOrCount st'
        | Passed st' Break => Finished st'
        | RangeError md => Overflow md
        end
    end
  else Finished st.

(** The variables at the start of the loop; the text is what
    [this.resultMarkdown] holds then. *)
Definition initial (startTime : Date) (md : string) : LoopState :=
  mkLoop startTime 0 0 1 md.

(** ** generatePomodoroPlan *)

Definition run_loop (fuel : nat) (s : PomodoroSettings)
  (endTimeOrCount : TimeOrCount) (startTime : Date) : M LoopState :=
  fun w =>
    match while fuel s endTimeOrCount (initial startTime (resultMarkdown w))
    with
    | Finished st => Return st (with_resultMarkdown (markdown st) w)
    | Overflow md => Throw "RangeError" (with_resultMarkdown md w)
    | OutOfFuel => Timeout
    end.

(** [this.resultMarkdown += info]. *)
Definition appendInfo (info : string) : M unit :=
  fun w =>
    match append (resultMarkdown w) info with
    | Some md => Return tt (with_resultMarkdown md w)
    | None => Throw "RangeError" w
    end.

Definition generatePomodoroPlan (fuel : nat) : M unit :=
  modify (with_resultMarkdown "") ;;;
  time <- get start ;;
  startTime <- parseTime time ;;
  timeOrCount <- get end_ ;;
  endTimeOrCount <- parseTimeOrCount timeOrCount ;;
  s <- get settings ;;
  st <- run_loop fuel s endTimeOrCount startTime ;;
  if pomodoroCount st - 1 =? 0 then resultEl_setText ""
  else
    (if includeStats s then appendInfo (statsInfo s st) else ret tt) ;;;
    el <- get resultEl ;;
    match el with
    | Some _ =>
        md <- get resultMarkdown ;;
        resultEl_setText md ;;;
        saveSettings
    | None => ret tt
    end.

(** ** The constructor and the form *)

Definition construct (s : PomodoroSettings) (clk : nat -> Z) (n : nat)
  : World :=
  mkWorld s (formatTime (DateAt (clk n))) "" "" None clk (S n) [].

Definition onChange_end (fuel : nat) (value : string) : M unit :=
  modify (with_end value) ;;; generatePomodoroPlan fuel.

Definition onChange_start (fuel : nat) (value : string) : M unit :=
  modify (with_start value) ;;; generatePomodoroPlan fuel.

Definition onChange_number (set : Z -> PomodoroSettings -> PomodoroSettings)
  (fuel : nat) (value : string) : M unit :=
  match parseInt value with
  | Num v =>
      modify (fun w => with_settings (set v (settings w)) w) ;;;
      generatePomodoroPlan fuel
  | NaN => ret tt
  end.

Definition onChange_toggle (set : bool -> PomodoroSettings -> PomodoroSettings)
  (fuel : nat) (value : bool) : M unit :=
  modify (fun w => with_settings (set value (settings w)) w) ;;;
  generatePomodoroPlan fuel.

Definition onOpen (fuel : nat) : M unit :=
  modify (with_resultEl (Some "")) ;;;
  generatePomodoroPlan fuel.

(** One edit of a field of the open form. *)
Inductive Edit : Type :=
| EditEnd (value : string)
| EditStart (value : string)
| EditPomodoro (value : string)
| EditShortBreak (value : string)
| EditLongBreak (value : string)
| EditGroup (value : string)
| ToggleShortBreak (value : bool)
| ToggleLongBreak (value : bool)
| ToggleStats (value : bool).

Definition onChange (fuel : nat) (e : Edit) : M unit :=
  match e with
  | EditEnd v => onChange_end fuel v
  | EditStart v => onChange_start fuel v
  | EditPomodoro v => onChange_number set_pomodoro fuel v
  | EditShortBreak v => onChange_number set_shortBreak fuel v
  | EditLongBreak v => onChange_number set_longBreak fuel v
  | EditGroup v => onChange_number set_group fuel v
  | ToggleShortBreak v => onChange_toggle set_includeShortBreak fuel v
  | ToggleLongBreak v => onChange_toggle set_includeLongBreak fuel v
  | ToggleStats v => onChange_toggle set_includeStats fuel v
  end.

(** What an edit leaves the form in: the world its callback returns in,
    or the world in which an exception left it, after which the form goes
    on. *)
Inductive edits : World -> World -> Prop :=
| edit_returns fuel e w w' :
    onChange fuel e w = Return tt w' -> edits w w'
| edit_throws fuel e w error w' :
    onChange fuel e w = Throw error w' -> edits w w'.

(** The worlds of the open form: opened by the command, then edited. *)
Inductive reachable : World -> Prop :=
| reachable_opened fuel s clk n w :
    onOpen fuel (construct s clk n) = Return tt w -> reachable w
| reachable_edited w w' :
    reachable w -> edits w w' -> reachable w'.

End OnHost.

End Host.
(** * Observations

    What the properties below are stated with: the lines of a text, the
    schedule behind it, and the result of a call as a function of the
    world it starts in. *)

(** ** Reading the text of a plan *)

(** The lines of a text: each newline ends a line. *)
Fixpoint lines (s : string) : list string :=
  match s with
  | "" => []
  | String c s' =>
      if Ascii.eqb c nl then "" :: lines s'
      else match lines s' with
           | [] => [String c ""]
           | l :: ls => String c l :: ls
           end
  end.

Definition unlines (ls : list string) : string :=
  fold_right (fun l rest => l ++ newline ++ rest) "" ls.

(** [s.includes(p)]. *)
Fixpoint contains (p s : string) : bool :=
  prefix p s ||
  match s with
  | "" => false
  | String _ s' => contains p s'
  end.

Fixpoint all_chars (ok : ascii -> bool) (s : string) : bool :=
  match s with
  | "" => true
  | String c s' => ok c && all_chars ok s'
  end.

(** The character [x] does not occur in [s]. *)
Definition avoids (x : ascii) (s : string) : bool :=
  all_chars (fun c => negb (Ascii.eqb c x)) s.

(** The characters of a formatted time or number. *)
Definition timeChar (c : ascii) : bool :=
  let n := nat_of_ascii c in
  (Nat.leb 48 n && Nat.leb n 57)
  || Ascii.eqb c "-" || Ascii.eqb c ":" || Ascii.eqb c "N" || Ascii.eqb c "a".

Definition isPomodoroLine (l : string) : bool := contains "Pomodoro #" l.

Definition isBreakLine (l : string) : bool :=
  contains "Short Break" l || contains "Long Break" l.

(** Whether the settings let a line of the text appear. *)
Definition keeps (s : PomodoroSettings) (l : string) : bool :=
  isPomodoroLine l
  || (includeShortBreak s && contains "Short Break" l)
  || (includeLongBreak s && contains "Long Break" l).


(** ** Reading times *)

(** The minute a time value lies in, counted from the epoch. *)
Definition minuteOf (t : Z) : Z := t / msPerMinute.

(** The clock face of a minute of the day. *)
Definition face (minute : Z) : string :=
  padStart 2 "0" (Z_toString (minute / 60)) ++ ":"
    ++ padStart 2 "0" (Z_toString (minute mod 60)).

(** The part of a clock reading that [parseTime] keeps: its day, and its
    seconds and milliseconds. *)
Definition keptOf (now : Z) : Z := Day now * msPerDay + now mod msPerMinute.

(** The numbers [parseTime] reads as hours and minutes. *)
Definition hoursOf (time : string) : number :=
  nth 0 (map Number (split ":" time)) NaN.
Definition minutesOf (time : string) : number :=
  nth 1 (map Number (split ":" time)) NaN.

(** An end string that [parseTime] turns into a valid Date: both parts are
    there and are numbers. *)
Definition parsesAsTime (time : string) : bool :=
  negb (isNaN (hoursOf time)) && negb (isNaN (minutesOf time)).

(** ** The schedule behind the text *)

(** The entries of a plan as the specification describes them: a start,
    an end and a label. *)
Inductive Label : Type :=
| Work (n : Z)
| ShortRest
| LongRest.

Record PlanLine : Type := mkLine {
  line_start : Date;
  line_end : Date;
  line_label : Label
}.

Definition labelText (l : Label) : string :=
  match l with
  | Work n => "Pomodoro #" ++ Z_toString n
  | ShortRest => "Short Break"
  | LongRest => "Long Break"
  end.

Definition renderLine (l : PlanLine) : string :=
  "- [ ] " ++ formatTime (line_start l) ++ " - " ++ formatTime (line_end l)
    ++ " " ++ labelText (line_label l).

Fixpoint render (ls : list PlanLine) : string :=
  match ls with
  | [] => ""
  | l :: ls' => renderLine l ++ newline ++ render ls'
  end.

Definition isWork (l : PlanLine) : bool :=
  match line_label l with Work _ => true | _ => false end.

(** Whether the settings let an entry appear in the text. *)
Definition shown (s : PomodoroSettings) (l : PlanLine) : bool :=
  match line_label l with
  | Work _ => true
  | ShortRest => includeShortBreak s
  | LongRest => includeLongBreak s
  end.

(** The variables of the loop other than the text. *)
Record Vars : Type := mkVars {
  v_time : Date;
  v_group : Z;
  v_rest : Z;
  v_count : Z
}.

Definition vars_of (st : LoopState) : Vars :=
  mkVars (currentTime st) (groupCount st) (totalRestTime st)
    (pomodoroCount st).

Definition state_of (v : Vars) (md : string) : LoopState :=
  mkLoop (v_time v) (v_group v) (v_rest v) (v_count v) md.

(** The loop once more, as a producer of entries instead of text: the
    same tests and the same updates of the variables, and every break it
    takes is listed, whatever the two line toggles say.  The text of the
    loop is the rendering of the entries the toggles show
    ([while_planLines]). *)
Fixpoint planLines (fuel : nat) (s : PomodoroSettings) (e : TimeOrCount)
  (v : Vars) : option (list PlanLine * Vars) :=
  if willContinue (addMinutes (v_time v) (pomodoro s)) (v_count v) e then
    match fuel with
    | O => None
    | S fuel' =>
        let t := addMinutes (v_time v) (pomodoro s) in
        let n := v_count v + 1 in
        let g := v_group v + 1 in
        let work := mkLine (v_time v) t (Work (v_count v)) in
        if g =? group s then
          if willContinue (addMinutes t (longBreak s + pomodoro s)) n e then
            match planLines fuel' s e
                    (mkVars (addMinutes t (longBreak s)) 0
                       (v_rest v + longBreak s) n) with
            | Some (ls, v') =>
                Some (work :: mkLine t (addMinutes t (longBreak s)) LongRest
                        :: ls, v')
            | None => None
            end
          else Some ([work], mkVars t g (v_rest v) n)
        else
          if willContinue (addMinutes t (pomodoro s + shortBreak s)) n e then
            match planLines fuel' s e
                    (mkVars (addMinutes t (shortBreak s)) g
                       (v_rest v + shortBreak s) n) with
            | Some (ls, v') =>
                Some (work :: mkLine t (addMinutes t (shortBreak s)) ShortRest
                        :: ls, v')
            | None => None
            end
          else Some ([work], mkVars t g (v_rest v) n)
    end
  else Some ([], v).


(** What is left before the end condition stops the loop: pomodoros still
    allowed by a count, milliseconds still available before a time. *)
Definition remaining (e : TimeOrCount) (v : Vars) : Z :=
  match e with
  | Count n => n + 1 - v_count v
  | Time (DateAt te) =>
      match v_time v with
      | DateAt t => te - t
      | InvalidDate => 0
      end
  | Time InvalidDate => 0
  end.

(** The lines of the statistics block: two empty lines, then the three
    totals. *)
Definition statsLines (s : PomodoroSettings) (st : LoopState) : list string :=
  [ ""; "";
    "  Total pomodoros: " ++ Z_toString (pomodoroCount st - 1);
    "  Total work time: "
      ++ hoursAndMinutes (totalWorkTime s st / 60)
           (Z.rem (totalWorkTime s st) 60);
    "  Total rest time: "
      ++ hoursAndMinutes (totalRestTime st / 60)
           (Z.rem (totalRestTime st) 60) ].

(** ** What a call of generatePomodoroPlan computes *)

(** The start time it parses, from the first clock reading of the call. *)
Definition startOf (w : World) : Date :=
  parseTime_on (DateAt (clock w (reads w))) (start w).

(** The end condition [parseTimeOrCount] gives when its [parseTime] reads
    the clock as [now]. *)
Definition endAt (now : Z) (timeOrCount : string) : TimeOrCount :=
  if String.eqb timeOrCount "" then Count 0
  else
    let time := parseTime_on (DateAt now) timeOrCount in
    if negb (isNaN (getTime time)) then Time time
    else match parseInt timeOrCount with
         | Num count => Count count
         | NaN => Count 0
         end.

(** The end condition of a call: the second clock reading of the call goes
    into it. *)
Definition endOf (w : World) : TimeOrCount :=
  endAt (clock w (S (reads w))) (end_ w).

(** The text left in [resultMarkdown] after the loop ended in [st]. *)
Definition planText (s : PomodoroSettings) (st : LoopState) : string :=
  if pomodoroCount st - 1 =? 0 then markdown st
  else if includeStats s then markdown st ++ statsInfo s st
       else markdown st.

(** The plan text a call leaves behind, if the call ends. *)
Definition textOf (o : outcome unit) : option string :=
  match o with
  | Return _ w | Throw _ w => Some (resultMarkdown w)
  | Timeout => None
  end.

(** Whether [parseTimeOrCount] shows its notice: the string is not empty
    and is neither a time nor an integer. *)
Definition notifies (timeOrCount : string) : bool :=
  negb (String.eqb timeOrCount "")
  && negb (parsesAsTime timeOrCount)
  && isNaN (parseInt timeOrCount).

(** The events of one call: the notice of [parseTimeOrCount], and the
    settings saved with a plan that is not empty. *)
Definition eventsOf (w : World) (st : LoopState) : list Event :=
  ((if notifies (end_ w)
    then [NoticeShown "Invalid time or count format"] else [])
   ++ (if pomodoroCount st - 1 =? 0 then []
       else [SettingsSaved (settings w)]))%list.

(** The clock readings of one call: one for the start, one for an end
    string that is not empty. *)
Definition readingsOf (w : World) : nat :=
  if String.eqb (end_ w) "" then 1%nat else 2%nat.

(** The world an open modal is in after a call whose loop ended in [st]. *)
Definition generated (w : World) (st : LoopState) : World :=
  mkWorld (settings w) (start w) (end_ w)
    (planText (settings w) st) (Some (planText (settings w) st))
    (clock w) (readingsOf w + reads w) (log w ++ eventsOf w st).

(** ** Two runs under different clock readings *)

(** [b] is [a] moved by [delta] milliseconds, to the same minute of some
    day. *)
Definition shifted (delta : Z) (a b : Date) : Prop :=
  match a, b with
  | InvalidDate, InvalidDate => True
  | DateAt x, DateAt y =>
      y = x + delta /\ minuteOf y mod 1440 = minuteOf x mod 1440
  | _, _ => False
  end.

Definition shifted_end (delta : Z) (e1 e2 : TimeOrCount) : Prop :=
  match e1, e2 with
  | Count a, Count b => a = b
  | Time InvalidDate, Time InvalidDate => True
  | Time (DateAt x), Time (DateAt y) => y = x + delta
  | _, _ => False
  end.

Definition shifted_state (delta : Z) (a b : LoopState) : Prop :=
  shifted delta (currentTime a) (currentTime b)
  /\ groupCount b = groupCount a
  /\ totalRestTime b = totalRestTime a
  /\ pomodoroCount b = pomodoroCount a
  /\ markdown b = markdown a.

(** ** Worlds for the examples *)

(** A clock that stands still. *)
Definition frozen (now : Z) : nat -> Z := fun _ => now.

(** A clock that passes from [first] to [second] between its first two
    readings. *)
Definition passing (first second : Z) : nat -> Z :=
  fun n => match n with O => first | _ => second end.

(** An open modal with the given strings and settings. *)
Definition opened (s : PomodoroSettings) (start_ end_ : string)
  (clk : nat -> Z) : World :=
  mkWorld s start_ end_ "" (Some "") clk O [].

(** 2026-11-03, 10:00:00.000, the last millisecond of that minute, and the
    first millisecond of the next. *)
Definition ten_o_clock : Z := 1793700000000.
Definition minute_end : Z := 1793700059999.
Definition minute_start : Z := 1793700060000.

(** The first millisecond of the next day. *)
Definition day_start : Z := 1793750400000.

(** Example 1 of the specification: start 09:00, five pomodoros, the
    default settings. *)
Definition example1_schedule : list string :=
  [ "- [ ] 09:00 - 09:25 Pomodoro #1";
    "- [ ] 09:30 - 09:55 Pomodoro #2";
    "- [ ] 10:00 - 10:25 Pomodoro #3";
    "- [ ] 10:30 - 10:55 Pomodoro #4";
    "- [ ] 10:55 - 11:10 Long Break";
    "- [ ] 11:10 - 11:35 Pomodoro #5" ].

Definition example1_stats : list string :=
  [ ""; "";
    "  Total pomodoros: 5";
    "  Total work time: 2 hours, 5 minutes";
    "  Total rest time: 30 minutes" ].

Definition example1_text : string :=
  unlines (example1_schedule ++ example1_stats).

Definition example1 : World :=
  opened DEFAULT_SETTINGS "09:00" "5" (frozen ten_o_clock).

(** Example 2 of the specification: start 09:00, end 09:30. *)
Definition example2 : World :=
  opened DEFAULT_SETTINGS "09:00" "09:30" (frozen ten_o_clock).

Definition example2_text : string :=
  unlines [ "- [ ] 09:00 - 09:25 Pomodoro #1"; ""; "";
            "  Total pomodoros: 1";
            "  Total work time: 25 minutes";
            "  Total rest time: 0 minutes" ].

(** Example 3 of the specification, the empty end field the form starts
    with, and the count 0. *)
Definition example3 : World :=
  opened DEFAULT_SETTINGS "09:00" "abc" (frozen ten_o_clock).

Definition empty_end : World :=
  opened DEFAULT_SETTINGS "09:00" "" (frozen ten_o_clock).

Definition count_zero : World :=
  opened DEFAULT_SETTINGS "09:00" "0" (frozen ten_o_clock).

(** Two calls with the same strings and settings: one on a clock that
    stands still, one on a clock that passes into the next minute between
    the two readings of the call. *)
Definition steady : World :=
  opened DEFAULT_SETTINGS "09:00" "09:25" (frozen ten_o_clock).

Definition across_minute : World :=
  opened DEFAULT_SETTINGS "09:00" "09:25" (passing minute_end minute_start).

(** The same call once more, on a clock that stands still at the first
    millisecond of the next day. *)
Definition steady_next_day : World :=
  opened DEFAULT_SETTINGS "09:00" "09:25" (frozen day_start).

(** * More observations *)

(** ** Times of day *)

(** A number as [formatTime] writes it: two digits, or more when it needs
    them. *)
Definition twoDigits (z : Z) : string := padStart 2 "0" (Z_toString z).

(** What the numbers below 60 need for a round trip through the form:
    two characters, no colon, and [Number] reads the value back. *)
Definition reads_back (z : Z) : bool :=
  Nat.eqb (String.length (twoDigits z)) 2
  && avoids ":" (twoDigits z)
  && match Number (twoDigits z) with
     | Num v => v =? z
     | NaN => false
     end.

(** A form whose start field holds "25:99", read at ten o'clock. *)
Definition late_start : World :=
  opened DEFAULT_SETTINGS "25:99" "2" (frozen ten_o_clock).

(** ** One iteration of the loop, piece by piece *)

(** Whether the break after the pomodoro at [v] is the long one. *)
Definition longDue (s : PomodoroSettings) (v : Vars) : bool :=
  v_group v + 1 =? group s.

Definition restLength (s : PomodoroSettings) (v : Vars) : Z :=
  if longDue s v then longBreak s else shortBreak s.

Definition restLabel (s : PomodoroSettings) (v : Vars) : Label :=
  if longDue s v then LongRest else ShortRest.

(** The pomodoro scheduled at [v] and the break after it. *)
Definition workEntry (s : PomodoroSettings) (v : Vars) : PlanLine :=
  mkLine (v_time v) (addMinutes (v_time v) (pomodoro s)) (Work (v_count v)).

Definition restEntry (s : PomodoroSettings) (v : Vars) : PlanLine :=
  let t := addMinutes (v_time v) (pomodoro s) in
  mkLine t (addMinutes t (restLength s v)) (restLabel s v).

(** The variables where the loop breaks off after the pomodoro, and where
    it goes on after the break. *)
Definition afterWork (s : PomodoroSettings) (v : Vars) : Vars :=
  mkVars (addMinutes (v_time v) (pomodoro s)) (v_group v + 1) (v_rest v)
    (v_count v + 1).

Definition afterRest (s : PomodoroSettings) (v : Vars) : Vars :=
  mkVars (addMinutes (addMinutes (v_time v) (pomodoro s)) (restLength s v))
    (if longDue s v then 0 else v_group v + 1)
    (v_rest v + restLength s v) (v_count v + 1).

(** The [while] test and the look-ahead before the break. *)
Definition fits (s : PomodoroSettings) (e : TimeOrCount) (v : Vars) : bool :=
  willContinue (addMinutes (v_time v) (pomodoro s)) (v_count v) e.

Definition lookAhead (s : PomodoroSettings) (e : TimeOrCount) (v : Vars)
  : bool :=
  willContinue
    (addMinutes (addMinutes (v_time v) (pomodoro s))
       (restLength s v + pomodoro s))
    (v_count v + 1) e.

(** ** Reading a schedule *)

(** The length the settings give an entry. *)
Definition lengthOf (s : PomodoroSettings) (l : Label) : Z :=
  match l with
  | Work _ => pomodoro s
  | ShortRest => shortBreak s
  | LongRest => longBreak s
  end.

(** From [t] on the entries follow each other without a gap, each as long
    as the settings say. *)
Fixpoint chained (s : PomodoroSettings) (t : Date) (ls : list PlanLine)
  : Prop :=
  match ls with
  | [] => True
  | l :: ls' =>
      line_start l = t
      /\ line_end l = addMinutes t (lengthOf s (line_label l))
      /\ chained s (line_end l) ls'
  end.

Definition totalLength (s : PomodoroSettings) (ls : list PlanLine) : Z :=
  fold_right (fun l acc => lengthOf s (line_label l) + acc) 0 ls.

Definition isShort (l : PlanLine) : bool :=
  match line_label l with ShortRest => true | _ => false end.

Definition isLong (l : PlanLine) : bool :=
  match line_label l with LongRest => true | _ => false end.

(** [c], [c + 1], ... : [n] numbers. *)
Fixpoint countFrom (c : Z) (n : nat) : list Z :=
  match n with
  | O => []
  | S n' => c :: countFrom (c + 1) n'
  end.

(** The break that is due after pomodoro number [k] when a group has [g]
    pomodoros. *)
Definition dueRest (g k : Z) : Label :=
  if (0 <? g) && (k mod g =? 0) then LongRest else ShortRest.

(** The breaks of a schedule, each with the number of the pomodoro before
    it. *)
Fixpoint restsAfter (ls : list PlanLine) : list (Z * Label) :=
  match ls with
  | [] => []
  | l :: tl =>
      match line_label l, tl with
      | Work k, r :: _ =>
          match line_label r with
          | Work _ => restsAfter tl
          | rest => (k, rest) :: restsAfter tl
          end
      | _, _ => restsAfter tl
      end
  end.

(** The group counter is in step with the pomodoro counter: it is not
    negative, and when a group has a positive size it stays below it and
    counts the pomodoros since the last multiple of the size. *)
Definition inStep (g : Z) (v : Vars) : Prop :=
  0 <= v_group v
  /\ (0 < g -> v_group v < g /\ (v_count v - 1 - v_group v) mod g = 0).

Definition isRest (l : PlanLine) : bool := negb (isWork l).


(** ** Where the loop stops *)

(** Whether, where the loop stands after a pomodoro, the break that is due
    and one more pomodoro are still allowed by the end: the look-ahead of
    the loop, read at the variables it leaves behind. *)
Definition nextFits (s : PomodoroSettings) (e : TimeOrCount) (v : Vars)
  : bool :=
  willContinue
    (addMinutes (v_time v)
       ((if v_group v =? group s then longBreak s else shortBreak s)
        + pomodoro s))
    (v_count v) e.

(** A form with all three lengths set to zero and an end time after the
    start; 09:00 and 09:30 of the day of [ten_o_clock]. *)
Definition zero_lengths : World :=
  opened (mkSettings 0 0 0 4 true false true) "09:00" "09:30"
    (frozen ten_o_clock).
Definition nine_o_clock : Z := 1793696400000.
Definition half_past_nine : Z := 1793698200000.

(** A form whose start field was emptied, and one whose end is earlier in
    the day than its start. *)
Definition no_start : World :=
  opened DEFAULT_SETTINGS "" "2" (frozen ten_o_clock).

Definition backwards : World :=
  opened DEFAULT_SETTINGS "23:00" "01:00" (frozen ten_o_clock).

(** A line of a plan whose start is not a time. *)
Definition nanLine (l : Label) : string :=
  "- [ ] NaN:NaN - NaN:NaN " ++ labelText l.

Definition no_start_text : string :=
  unlines [ "- [ ] NaN:NaN - NaN:NaN Pomodoro #1";
            "- [ ] NaN:NaN - NaN:NaN Pomodoro #2";
            ""; "";
            "  Total pomodoros: 2";
            "  Total work time: 50 minutes";
            "  Total rest time: 5 minutes" ].

(** ** The form and the plugin *)

(** A text is empty or has a Pomodoro line. *)
Definition emptyOrPlan (text : string) : Prop :=
  text = "" \/ filter isPomodoroLine (lines text) <> [].

(** The settings the older version of the plugin saved: the four numbers
    and its end field, no toggles. *)
Definition olderData (e : string) (p sb lb g : Z)
  : PomodoroPlanner.object :=
  [ ("end", PomodoroPlanner.VString e);
    ("pomodoro", PomodoroPlanner.VNumber p);
    ("shortBreak", PomodoroPlanner.VNumber sb);
    ("longBreak", PomodoroPlanner.VNumber lb);
    ("group", PomodoroPlanner.VNumber g) ].

(** An object has each key once. *)
Fixpoint distinctKeys (o : PomodoroPlanner.object) : bool :=
  match o with
  | [] => true
  | (k, _) :: o' =>
      match PomodoroPlanner.lookup k o' with
      | Some _ => false
      | None => distinctKeys o'
      end
  end.

(** ** Two ends *)

(** Two ends of the same kind, the second not earlier or not smaller than
    the first. *)
Definition notBefore (e1 e2 : TimeOrCount) : Prop :=
  match e1, e2 with
  | Count a, Count b => a <= b
  | Time (DateAt a), Time (DateAt b) => a <= b
  | _, _ => False
  end.

(** The count an end string stands for when it is not a time: what
    [parseInt] reads, and 0 when it reads nothing. *)
Definition countOf (timeOrCount : string) : Z :=
  match parseInt timeOrCount with
  | Num count => count
  | NaN => 0
  end.

(** A form whose end field holds "17". *)
Definition seventeen : World :=
  opened DEFAULT_SETTINGS "09:00" "17" (frozen ten_o_clock).

(** ** A modal without its result element *)

(** The notice of one call, if it shows one. *)
Definition noticesOf (w : World) : list Event :=
  if notifies (end_ w)
  then [NoticeShown "Invalid time or count format"] else [].

(** The world a call leaves when the modal has no result element yet and
    the loop ended in [st]: the text is kept, nothing is shown or saved. *)
Definition leftUnopened (w : World) (st : LoopState) : World :=
  mkWorld (settings w) (start w) (end_ w) (planText (settings w) st) None
    (clock w) (readingsOf w + reads w) (log w ++ noticesOf w).

(** A modal fresh from the constructor, and the same with 5 set as its
    end. *)
Definition unopened : World :=
  construct DEFAULT_SETTINGS (frozen ten_o_clock) 0.

Definition unopened_five : World := with_end "5" unopened.

(** ** The totals in closed form *)

(** The rest time of [k] breaks in a row, the first after pomodoro 1: one
    long break for every full group, short breaks otherwise. *)
Definition restOf (s : PomodoroSettings) (k : Z) : Z :=
  if 0 <? group s
  then longBreak s * (k / group s) + shortBreak s * (k - k / group s)
  else shortBreak s * k.


(** * Observations on the host *)

(** ** Windows without a clock change *)

(** Between the instants [a] and [b] the zone shows local time with the
    one offset [o], and [setHours] and [setMinutes] find every instant of
    the window again from its local time: no clock change disturbs the
    window and it lies inside the range of a Date. *)
Definition calm (z : Host.Zone) (o a b : Z) : Prop :=
  forall t, a <= t <= b ->
    Host.LocalTime z t = t + o
    /\ Host.TimeClip (Host.UTC z (t + o)) = DateAt t.

(** The Date of the first part that shows what [d] shows on a host whose
    offset is [o]: the time value is the local time. *)
Definition shiftDate (o : Z) (d : Date) : Date :=
  match d with
  | InvalidDate => InvalidDate
  | DateAt t => DateAt (t + o)
  end.

Definition shiftEnd (o : Z) (e : TimeOrCount) : TimeOrCount :=
  match e with
  | Count n => Count n
  | Time d => Time (shiftDate o d)
  end.

Definition shiftState (o : Z) (st : LoopState) : LoopState :=
  mkLoop (shiftDate o (currentTime st)) (groupCount st) (totalRestTime st)
    (pomodoroCount st) (markdown st).

(** The latest instant the loop can compute when it stands at the
    instant [t] with the counter [c] and no length is negative: with a
    time as end nothing later than a break and a pomodoro after the end
    (or after the first pomodoro), with a count as end nothing later than
    the pomodoros and breaks still allowed and one look-ahead more. *)
Definition reach (s : PomodoroSettings) (e : TimeOrCount) (t c : Z) : Z :=
  let rest := shortBreak s + longBreak s in
  match e with
  | Count n =>
      t + Z.max 0 (n + 1 - c) * ((pomodoro s + rest) * msPerMinute)
        + (2 * pomodoro s + rest) * msPerMinute
  | Time (DateAt te) =>
      Z.max (t + pomodoro s * msPerMinute) te
        + (pomodoro s + rest) * msPerMinute
  | Time InvalidDate => t + pomodoro s * msPerMinute
  end.

(** ** What a call computes on the host *)

Definition hostStartOf (env : Host.Env) (w : World) : Date :=
  Host.parseTime_on env (DateAt (clock w (reads w))) (start w).

Definition hostEndAt (env : Host.Env) (now : Z) (timeOrCount : string)
  : TimeOrCount :=
  if String.eqb timeOrCount "" then Count 0
  else
    let time := Host.parseTime_on env (DateAt now) timeOrCount in
    if negb (isNaN (getTime time)) then Time time
    else match parseInt timeOrCount with
         | Num count => Count count
         | NaN => Count 0
         end.

Definition hostEndOf (env : Host.Env) (w : World) : TimeOrCount :=
  hostEndAt env (clock w (S (reads w))) (end_ w).

(** The notice of [parseTimeOrCount] on the host: the string is not
    empty, is no count, and gives no valid Date under this reading of the
    clock. *)
Definition hostNotifies (env : Host.Env) (now : Z) (timeOrCount : string)
  : bool :=
  negb (String.eqb timeOrCount "")
  && isNaN (getTime (Host.parseTime_on env (DateAt now) timeOrCount))
  && isNaN (parseInt timeOrCount).

(** The world after [parseTime] and [parseTimeOrCount], where the loop
    starts. *)
Definition atLoop (env : Host.Env) (w : World) : World :=
  mkWorld (settings w) (start w) (end_ w) "" (resultEl w) (clock w)
    (readingsOf w + reads w)
    (log w
     ++ (if hostNotifies env (clock w (S (reads w))) (end_ w)
         then [NoticeShown "Invalid time or count format"] else [])).

(** What the rest of generatePomodoroPlan makes of the way the loop
    ended, in the world [w] the loop started in. *)
Definition afterLoop (env : Host.Env) (w : World) (r : Host.ended)
  : outcome unit :=
  match r with
  | Host.OutOfFuel => Timeout
  | Host.Overflow md => Throw "RangeError" (with_resultMarkdown md w)
  | Host.Finished st =>
      let w1 := with_resultMarkdown (markdown st) w in
      if pomodoroCount st - 1 =? 0 then
        match resultEl w with
        | Some _ => Return tt (with_resultEl (Some "") w1)
        | None => Throw "TypeError" w1
        end
      else
        match (if includeStats (settings w)
               then Host.append env (markdown st) (statsInfo (settings w) st)
               else Some (markdown st)) with
        | None => Throw "RangeError" w1
        | Some text =>
            match resultEl w with
            | Some _ =>
                Return tt
                  (emit (SettingsSaved (settings w))
                     (with_resultEl (Some text)
                        (with_resultMarkdown text w)))
            | None => Return tt (with_resultMarkdown text w)
            end
        end
  end.

(** The loop of a call. *)
Definition hostLoop (env : Host.Env) (fuel : nat) (w : World) : Host.ended :=
  Host.while env fuel (settings w) (hostEndOf env w)
    (Host.initial (hostStartOf env w) "").

(** ** A call that no clock change disturbs *)

(** The world as a host sees it whose clock shows local time and never
    changes: every reading is the local time of the reading of [w], which
    is ahead of UTC by [o]. *)
Definition local (o : Z) (w : World) : World :=
  mkWorld (settings w) (start w) (end_ w) (resultMarkdown w) (resultEl w)
    (fun n => clock w n + o) (reads w) (log w).

(** [parseTime] of [time] under the reading [now] stays in the window:
    the reading, the local time with the hours set and the local time
    with the minutes set as well are shown at instants of the window.
    Nothing is asked when the string gives no time. *)
Definition parsedInside (o a b now : Z) (time : string) : Prop :=
  match parseTime_on (DateAt (now + o)) time with
  | InvalidDate => True
  | DateAt tl =>
      a <= now <= b
      /\ match setHours (DateAt (now + o)) (hoursOf time) with
         | DateAt hl => a <= hl - o <= b
         | InvalidDate => True
         end
      /\ a <= tl - o <= b
  end.

(** No clock change and no end of the range of a Date disturbs the call
    in [w]: between the instants [a] and [b] the zone keeps the offset
    [o], and the call stays between them with what it parses and with
    everything the loop can reach from the start. *)
Definition quiet (env : Host.Env) (o a b : Z) (w : World) : Prop :=
  calm (Host.zone env) o a b
  /\ parsedInside o a b (clock w (reads w)) (start w)
  /\ parsedInside o a b (clock w (S (reads w))) (end_ w)
  /\ match startOf (local o w) with
     | DateAt tl => reach (settings w) (endOf (local o w)) tl 1 - o <= b
     | InvalidDate => True
     end.

(** The loop stands at [d] with the counter [c], in the window and with
    room for everything it can still reach. *)
Definition room (a b : Z) (s : PomodoroSettings) (e : TimeOrCount)
  (d : Date) (c : Z) : Prop :=
  match d with
  | DateAt t => a <= t /\ reach s e t c <= b
  | InvalidDate => True
  end.

(** ** Two calls *)

(** Two end conditions of the same kind, and the same count if counts. *)
Definition sameKind (e1 e2 : TimeOrCount) : Prop :=
  match e1, e2 with
  | Count c1, Count c2 => c1 = c2
  | Time _, Time _ => True
  | _, _ => False
  end.

(** Two loops stand at [d1] and [d2], the one before the end [e1] and the
    other before [e2], at the same minute of the day and equally far
    from their ends as far as whole minutes tell: moved by the same
    number of minutes, both are still allowed by their end, or neither
    is. *)
Definition aligned (e1 e2 : TimeOrCount) (d1 d2 : Date) : Prop :=
  match d1, d2 with
  | InvalidDate, InvalidDate => True
  | DateAt x, DateAt y =>
      minuteOf y mod 1440 = minuteOf x mod 1440
      /\ forall k n,
           willContinue (DateAt (x + k * msPerMinute)) n e1
           = willContinue (DateAt (y + k * msPerMinute)) n e2
  | _, _ => False
  end.

Definition aligned_state (e1 e2 : TimeOrCount) (st1 st2 : LoopState) : Prop :=
  aligned e1 e2 (currentTime st1) (currentTime st2)
  /\ groupCount st2 = groupCount st1
  /\ totalRestTime st2 = totalRestTime st1
  /\ pomodoroCount st2 = pomodoroCount st1
  /\ markdown st2 = markdown st1.

(** The two clock readings of the call of [w] are in order: the second
    is on the same day as the first and not earlier within its minute;
    or the end field holds no time, and the second reading is not used. *)
Definition inOrder (w : World) : Prop :=
  parsesAsTime (end_ w) = false
  \/ (Day (clock w (S (reads w))) = Day (clock w (reads w))
      /\ clock w (reads w) mod msPerMinute
         <= clock w (S (reads w)) mod msPerMinute).

(** ** Hosts for the examples *)

(** New York in 2026: five hours behind UTC, four from 8 March 07:00 UTC
    (02:00 becomes 03:00) to 1 November 06:00 UTC (02:00 becomes 01:00). *)
Definition newYork : Host.Zone :=
  Host.mkZone (-18000000)
    [ (1772953200000, -14400000); (1793512800000, -18000000) ].

(** Istanbul: three hours ahead of UTC, without clock changes. *)
Definition istanbul : Host.Zone := Host.mkZone 10800000 [].

(** The greatest length of a string in V8. *)
Definition v8_maxLength : Z := 536870888.

Definition inNewYork : Host.Env := Host.mkEnv newYork v8_maxLength.
Definition inIstanbul : Host.Env := Host.mkEnv istanbul v8_maxLength.

(** 8 March 2026, 00:05 in New York, in the night of the clock change,
    and the same time of day a week later. *)
Definition spring_night : Z := 1772946300000.
Definition week_later : Z := 1773547500000.


(** ** Calls for the examples on the host *)

(** 1 July 2026 in New York, in summer time: midnight, 08:00, and 08:00
    of the next day. *)
Definition july_midnight : Z := 1782878400000.
Definition july_morning : Z := 1782907200000.
Definition next_morning : Z := 1782993600000.




(** Three pomodoros from 01:00 in that night, and a week later. *)
Definition spring_call : World :=
  opened DEFAULT_SETTINGS "01:00" "3" (frozen spring_night).

Definition later_call : World :=
  opened DEFAULT_SETTINGS "01:00" "3" (frozen week_later).

(** 3 November 2026 in Istanbul: the last millisecond of the day and the
    first of the next. *)
Definition before_midnight : Z := 1793739599999.
Definition after_midnight : Z := 1793739600000.

(** Example 2 of the specification late that day, and with midnight
    between the two clock readings of the call. *)
Definition late_call : World :=
  opened DEFAULT_SETTINGS "09:00" "09:30" (frozen before_midnight).

Definition midnight_call : World :=
  opened DEFAULT_SETTINGS "09:00" "09:30"
    (passing before_midnight after_midnight).

(** Example 2 in the zone of the first part, with midnight between the
    two clock readings. *)
Definition over_midnight : World :=
  opened DEFAULT_SETTINGS "09:00" "09:30" (passing (day_start - 1) day_start).

(** Two calls with the same strings in New York: one on 1 July with five
    milliseconds between its clock readings, one on the next day. *)
Definition july_call : World :=
  opened DEFAULT_SETTINGS "09:00" "09:25"
    (passing july_morning (july_morning + 5)).

Definition next_call : World :=
  opened DEFAULT_SETTINGS "09:00" "09:25" (frozen next_morning).
(** * Properties *)

(** ** Time arithmetic *)

Ltac unfold_time :=
  unfold MakeDate, MakeTime, Day, HourFromTime, MinFromTime, SecFromTime,
    msFromTime, msPerDay, msPerHour, msPerMinute, msPerSecond in *.

(** A time value is the date made of its own fields. *)
Lemma time_fields (t : Z) :
  MakeDate (Day t)
    (MakeTime (HourFromTime t) (MinFromTime t) (SecFromTime t)
       (msFromTime t)) = t.
Proof.
  unfold_time. Z.to_euclidean_division_equations. lia.
Qed.

(** Setting the minutes to "minutes now plus m" moves the time value by
    [m] minutes. *)
Lemma addMinutes_at (t m : Z) :
  addMinutes (DateAt t) m = DateAt (t + m * msPerMinute).
Proof.
  unfold addMinutes; cbn [getMinutes add setMinutes]. f_equal.
  rewrite <- (time_fields t) at 6.
  unfold_time. ring.
Qed.

Lemma addMinutes_invalid (m : Z) : addMinutes InvalidDate m = InvalidDate.
Proof. reflexivity. Qed.

Lemma addMinutes_add (d : Date) (a b : Z) :
  addMinutes (addMinutes d a) b = addMinutes d (a + b).
Proof.
  destruct d as [|t]; [reflexivity|].
  rewrite !addMinutes_at. f_equal. ring.
Qed.

Lemma minuteOf_add (t m : Z) :
  minuteOf (t + m * msPerMinute) = minuteOf t + m.
Proof. unfold minuteOf. apply Z.div_add. discriminate. Qed.

(** [formatTime] shows the minute of the day and nothing else. *)
Lemma formatTime_face (t : Z) :
  formatTime (DateAt t) = face (minuteOf t mod 1440).
Proof.
  unfold formatTime, face, minuteOf; cbn [getHours getMinutes toString].
  replace (HourFromTime t) with ((t / msPerMinute) mod 1440 / 60)
    by (unfold_time; Z.to_euclidean_division_equations; lia).
  replace (MinFromTime t) with (((t / msPerMinute) mod 1440) mod 60)
    by (unfold_time; Z.to_euclidean_division_equations; lia).
  reflexivity.
Qed.

Lemma setHours_setMinutes (now h m : Z) :
  setMinutes (setHours (DateAt now) (Num h)) (Num m)
  = DateAt (keptOf now + (60 * h + m) * msPerMinute).
Proof.
  cbn [setHours setMinutes]. f_equal. unfold keptOf.
  unfold_time. Z.to_euclidean_division_equations. lia.
Qed.

Lemma parseTime_on_at (now : Z) (time : string) :
  parseTime_on (DateAt now) time =
  match hoursOf time, minutesOf time with
  | Num h, Num m => DateAt (keptOf now + (60 * h + m) * msPerMinute)
  | _, _ => InvalidDate
  end.
Proof.
  unfold parseTime_on. fold (hoursOf time). fold (minutesOf time).
  destruct (hoursOf time) as [|h], (minutesOf time) as [|m];
    try reflexivity.
  apply setHours_setMinutes.
Qed.

Lemma minuteOf_kept (now k : Z) :
  minuteOf (keptOf now + k * msPerMinute) = Day now * 1440 + k.
Proof.
  unfold minuteOf, keptOf, Day, msPerDay, msPerMinute.
  Z.to_euclidean_division_equations. lia.
Qed.

(** ** Text *)

Lemma append_assoc (a b c : string) : (a ++ b) ++ c = a ++ b ++ c.
Proof. induction a as [|x a IH]; cbn; [reflexivity | now rewrite IH]. Qed.

Lemma append_nil_r (a : string) : a ++ "" = a.
Proof. induction a as [|x a IH]; cbn; [reflexivity | now rewrite IH]. Qed.

Lemma all_chars_app (ok : ascii -> bool) (a b : string) :
  all_chars ok (a ++ b) = all_chars ok a && all_chars ok b.
Proof.
  induction a as [|x a IH]; cbn; [reflexivity|].
  rewrite IH. apply andb_assoc.
Qed.

Lemma all_chars_weaken (ok ok' : ascii -> bool) (s : string) :
  (forall c, ok c = true -> ok' c = true) ->
  all_chars ok s = true -> all_chars ok' s = true.
Proof.
  intros Hw. induction s as [|x s IH]; cbn; [reflexivity|].
  rewrite !andb_true_iff. intros [Hx Hs]. auto.
Qed.

Lemma avoids_app (x : ascii) (a b : string) :
  avoids x (a ++ b) = avoids x a && avoids x b.
Proof. apply all_chars_app. Qed.

(** A time-like text avoids every character that is not time-like. *)
Lemma timeChar_avoids (x : ascii) (s : string) :
  timeChar x = false -> all_chars timeChar s = true -> avoids x s = true.
Proof.
  intros Hx. apply all_chars_weaken. intros c Hc.
  destruct (Ascii.eqb c x) eqn:E; [|reflexivity].
  apply Ascii.eqb_eq in E. congruence.
Qed.

Lemma all_chars_uint (d : Decimal.uint) :
  all_chars timeChar (NilEmpty.string_of_uint d) = true.
Proof. induction d; cbn; auto. Qed.

Lemma all_chars_Z_toString (z : Z) :
  all_chars timeChar (Z_toString z) = true.
Proof.
  unfold Z_toString, NilZero.string_of_int.
  destruct (Z.to_int z) as [d|d]; unfold NilZero.string_of_uint.
  - destruct d; try reflexivity; apply all_chars_uint.
  - destruct d; try reflexivity; apply all_chars_uint.
Qed.

Lemma all_chars_toString (n : number) :
  all_chars timeChar (toString n) = true.
Proof. destruct n; [reflexivity | apply all_chars_Z_toString]. Qed.

Lemma all_chars_repeat (ok : ascii -> bool) (c : ascii) (n : nat) :
  ok c = true -> all_chars ok (repeat_char c n) = true.
Proof. intros Hc. induction n; cbn; [reflexivity | now rewrite Hc]. Qed.

Lemma all_chars_padStart (n : nat) (s : string) :
  all_chars timeChar s = true ->
  all_chars timeChar (padStart n "0" s) = true.
Proof.
  intros Hs. unfold padStart. rewrite all_chars_app, Hs.
  now rewrite all_chars_repeat.
Qed.

Lemma all_chars_formatTime (d : Date) :
  all_chars timeChar (formatTime d) = true.
Proof.
  unfold formatTime. rewrite !all_chars_app.
  rewrite !all_chars_padStart by apply all_chars_toString. reflexivity.
Qed.

Lemma lines_line (l rest : string) :
  avoids nl l = true -> lines (l ++ newline ++ rest) = l :: lines rest.
Proof.
  induction l as [|c l IH]; intros Hl.
  - reflexivity.
  - unfold avoids in Hl. cbn [all_chars] in Hl.
    apply andb_true_iff in Hl as [Hc Hl].
    cbn [append lines].
    apply negb_true_iff in Hc. rewrite Hc.
    change (l ++ String nl rest) with (l ++ newline ++ rest).
    now rewrite IH.
Qed.

Lemma prefix_avoids (x : ascii) (p s : string) :
  prefix p s = true -> avoids x s = true -> avoids x p = true.
Proof.
  revert s. induction p as [|a p IH]; intros s Hp Hs; [reflexivity|].
  destruct s as [|b s]; [discriminate|].
  cbn in Hp. destruct (ascii_dec a b) as [->|]; [|discriminate].
  cbn in Hs |- *. apply andb_true_iff in Hs as [Hb Hs].
  rewrite Hb. cbn. eauto.
Qed.

(** A text that lacks a character of [p] does not contain [p]. *)
Lemma contains_avoids (x : ascii) (p s : string) :
  avoids x p = false -> avoids x s = true -> contains p s = false.
Proof.
  intros Hp. induction s as [|b s IH]; intros Hs.
  - cbn [contains]. rewrite orb_false_r.
    destruct (prefix p "") eqn:E; [|reflexivity].
    rewrite (prefix_avoids x p "" E Hs) in Hp. discriminate.
  - cbn [contains].
    destruct (prefix p (String b s)) eqn:E.
    + rewrite (prefix_avoids x p _ E Hs) in Hp. discriminate.
    + unfold avoids in Hs. cbn [all_chars] in Hs.
      apply andb_true_iff in Hs as [_ Hs]. cbn [orb]. auto.
Qed.

Lemma prefix_app (p s : string) : prefix p (p ++ s) = true.
Proof.
  induction p as [|a p IH]; cbn; [now destruct s|].
  destruct (ascii_dec a a); [assumption | congruence].
Qed.

Lemma contains_app_r (p a b : string) :
  contains p b = true -> contains p (a ++ b) = true.
Proof.
  intros Hb. induction a as [|c a IH]; [assumption|].
  cbn [append contains]. rewrite IH. apply orb_true_r.
Qed.

Lemma contains_prefix (p s : string) :
  prefix p s = true -> contains p s = true.
Proof. intros H. destruct s; cbn [contains]; now rewrite H. Qed.

Lemma contains_middle (p a b : string) : contains p (a ++ p ++ b) = true.
Proof. apply contains_app_r, contains_prefix, prefix_app. Qed.

(** *** Rendered entries *)

Lemma avoids_labelText (x : ascii) (l : Label) :
  timeChar x = false ->
  avoids x (labelText l) =
  avoids x match l with
           | Work _ => "Pomodoro #"
           | ShortRest => "Short Break"
           | LongRest => "Long Break"
           end.
Proof.
  intros Hx. destruct l; try reflexivity.
  cbn [labelText]. rewrite avoids_app.
  rewrite (timeChar_avoids x _ Hx (all_chars_Z_toString n)).
  apply andb_true_r.
Qed.

Lemma avoids_renderLine (x : ascii) (l : PlanLine) :
  timeChar x = false ->
  avoids x (renderLine l) =
  avoids x "- [ ] " && avoids x (labelText (line_label l)).
Proof.
  intros Hx. unfold renderLine. rewrite !avoids_app.
  rewrite !(timeChar_avoids x _ Hx (all_chars_formatTime _)).
  generalize (avoids x (labelText (line_label l))); intros b.
  unfold avoids; cbn [all_chars].
  destruct (Ascii.eqb "-" x), (Ascii.eqb " " x), (Ascii.eqb "[" x),
    (Ascii.eqb "]" x), b; reflexivity.
Qed.

Lemma avoids_nl_renderLine (l : PlanLine) : avoids nl (renderLine l) = true.
Proof.
  rewrite avoids_renderLine, avoids_labelText by reflexivity.
  now destruct (line_label l).
Qed.

Lemma isPomodoroLine_renderLine (l : PlanLine) :
  isPomodoroLine (renderLine l) = isWork l.
Proof.
  unfold isPomodoroLine, isWork, renderLine.
  destruct (line_label l) eqn:E; cbn [labelText].
  - do 5 apply contains_app_r. apply contains_prefix, prefix_app.
  - apply (contains_avoids "P"); [reflexivity|].
    change "Short Break" with (labelText ShortRest). rewrite <- E.
    fold (renderLine l).
    rewrite avoids_renderLine, avoids_labelText, E by reflexivity.
    reflexivity.
  - apply (contains_avoids "P"); [reflexivity|].
    change "Long Break" with (labelText LongRest). rewrite <- E.
    fold (renderLine l).
    rewrite avoids_renderLine, avoids_labelText, E by reflexivity.
    reflexivity.
Qed.


Lemma lines_render_app (ls : list PlanLine) (rest : string) :
  lines (render ls ++ rest) = (map renderLine ls ++ lines rest)%list.
Proof.
  induction ls as [|l ls IH]; [reflexivity|].
  cbn [render map app]. rewrite !append_assoc.
  rewrite lines_line by apply avoids_nl_renderLine.
  now rewrite IH.
Qed.

Lemma lines_render (ls : list PlanLine) :
  lines (render ls) = map renderLine ls.
Proof.
  rewrite <- (append_nil_r (render ls)), lines_render_app.
  apply app_nil_r.
Qed.

Lemma render_app (a b : list PlanLine) :
  render (a ++ b)%list = render a ++ render b.
Proof.
  induction a as [|l a IH]; [reflexivity|].
  cbn [render app]. now rewrite IH, !append_assoc.
Qed.


(** ** The loop and its schedule *)

Lemma pomodoroLine_render (s : PomodoroSettings) (t : Date) (n : Z) :
  pomodoroLine s t n
  = renderLine (mkLine t (addMinutes t (pomodoro s)) (Work n)) ++ newline.
Proof.
  unfold pomodoroLine, renderLine; cbn [line_start line_end line_label
    labelText].
  now rewrite !append_assoc.
Qed.

Lemma longBreakLine_render (s : PomodoroSettings) (t : Date) :
  longBreakLine s t
  = renderLine (mkLine t (addMinutes t (longBreak s)) LongRest) ++ newline.
Proof.
  unfold longBreakLine, renderLine; cbn [line_start line_end line_label
    labelText].
  now rewrite !append_assoc.
Qed.

Lemma shortBreakLine_render (s : PomodoroSettings) (t : Date) :
  shortBreakLine s t
  = renderLine (mkLine t (addMinutes t (shortBreak s)) ShortRest) ++ newline.
Proof.
  unfold shortBreakLine, renderLine; cbn [line_start line_end line_label
    labelText].
  now rewrite !append_assoc.
Qed.

Lemma state_of_vars (st : LoopState) :
  state_of (vars_of st) (markdown st) = st.
Proof. now destruct st. Qed.

(** The text the loop builds is the rendering of the entries of its
    schedule that the settings show, and the loop ends exactly when the
    schedule does. *)
Lemma while_planLines (fuel : nat) (s : PomodoroSettings) (e : TimeOrCount) :
  forall st,
    while fuel s e st =
    match planLines fuel s e (vars_of st) with
    | Some (ls, v') =>
        Some (state_of v' (markdown st ++ render (filter (shown s) ls)))
    | None => None
    end.
Proof.
  induction fuel as [|fuel IH]; intros st.
  - cbn [while planLines vars_of v_time v_count].
    destruct (willContinue _ _ _); [reflexivity|].
    cbn [filter render]. now rewrite append_nil_r, state_of_vars.
  - cbn [while planLines vars_of v_time v_count v_group v_rest].
    destruct (willContinue _ _ _) eqn:Hc;
      [|cbn [filter render]; now rewrite append_nil_r, state_of_vars].
    unfold iteration.
    destruct (groupCount st + 1 =? group s).
    + destruct (willContinue (addMinutes _ (longBreak s + pomodoro s)) _ _);
        cbn [negb].
      * rewrite IH. cbn [vars_of currentTime groupCount totalRestTime
          pomodoroCount markdown].
        destruct (planLines fuel s e _) as [[ls v']|]; [|reflexivity].
        f_equal. f_equal.
        cbn [filter shown line_label render].
        rewrite pomodoroLine_render.
        destruct (includeLongBreak s); cbn [render];
          rewrite ?longBreakLine_render, !append_assoc; reflexivity.
      * cbn [filter shown line_label render state_of v_time v_group v_rest
          v_count].
        now rewrite pomodoroLine_render, ?append_assoc, ?append_nil_r.
    + destruct (willContinue (addMinutes _ (pomodoro s + shortBreak s)) _ _);
        cbn [negb].
      * rewrite IH. cbn [vars_of currentTime groupCount totalRestTime
          pomodoroCount markdown].
        destruct (planLines fuel s e _) as [[ls v']|]; [|reflexivity].
        f_equal. f_equal.
        cbn [filter shown line_label render].
        rewrite pomodoroLine_render.
        destruct (includeShortBreak s); cbn [render];
          rewrite ?shortBreakLine_render, !append_assoc; reflexivity.
      * cbn [filter shown line_label render state_of v_time v_group v_rest
          v_count].
        now rewrite pomodoroLine_render, ?append_assoc, ?append_nil_r.
Qed.

Lemma planLines_O (s : PomodoroSettings) (e : TimeOrCount) (v : Vars) :
  planLines O s e v =
  if willContinue (addMinutes (v_time v) (pomodoro s)) (v_count v) e
  then None else Some ([], v).
Proof. reflexivity. Qed.

Lemma planLines_S (fuel : nat) (s : PomodoroSettings) (e : TimeOrCount)
  (v : Vars) :
  planLines (S fuel) s e v =
  if willContinue (addMinutes (v_time v) (pomodoro s)) (v_count v) e then
    let t := addMinutes (v_time v) (pomodoro s) in
    let n := v_count v + 1 in
    let g := v_group v + 1 in
    let work := mkLine (v_time v) t (Work (v_count v)) in
    if g =? group s then
      if willContinue (addMinutes t (longBreak s + pomodoro s)) n e then
        match planLines fuel s e
                (mkVars (addMinutes t (longBreak s)) 0
                   (v_rest v + longBreak s) n) with
        | Some (ls, v') =>
            Some (work :: mkLine t (addMinutes t (longBreak s)) LongRest
                    :: ls, v')
        | None => None
        end
      else Some ([work], mkVars t g (v_rest v) n)
    else
      if willContinue (addMinutes t (pomodoro s + shortBreak s)) n e then
        match planLines fuel s e
                (mkVars (addMinutes t (shortBreak s)) g
                   (v_rest v + shortBreak s) n) with
        | Some (ls, v') =>
            Some (work :: mkLine t (addMinutes t (shortBreak s)) ShortRest
                    :: ls, v')
        | None => None
        end
      else Some ([work], mkVars t g (v_rest v) n)
  else Some ([], v).
Proof. reflexivity. Qed.

(** One more unit of fuel does not change a finished schedule. *)
Lemma planLines_fuel_S (fuel : nat) (s : PomodoroSettings) (e : TimeOrCount) :
  forall v r, planLines fuel s e v = Some r ->
              planLines (S fuel) s e v = Some r.
Proof.
  induction fuel as [|fuel IH]; intros v r H.
  - rewrite planLines_O in H. rewrite planLines_S.
    destruct (willContinue _ _ _); [discriminate | assumption].
  - rewrite planLines_S in H. rewrite (planLines_S (S fuel)).
    destruct (willContinue _ _ _); [|assumption].
    cbv zeta in H |- *.
    destruct (_ =? _).
    + destruct (willContinue _ _ _); [|assumption].
      destruct (planLines fuel s e _) as [[ls v']|] eqn:E; [|discriminate].
      now rewrite (IH _ _ E).
    + destruct (willContinue _ _ _); [|assumption].
      destruct (planLines fuel s e _) as [[ls v']|] eqn:E; [|discriminate].
      now rewrite (IH _ _ E).
Qed.

Lemma planLines_fuel_le (s : PomodoroSettings) (e : TimeOrCount) (v : Vars)
  (r : list PlanLine * Vars) (fuel fuel' : nat) :
  (fuel <= fuel')%nat ->
  planLines fuel s e v = Some r -> planLines fuel' s e v = Some r.
Proof.
  induction 1 as [|fuel' _ IH]; [auto|].
  intros H. apply planLines_fuel_S. auto.
Qed.

(** The schedule depends on the four lengths only, not on the toggles. *)
Lemma planLines_lengths (fuel : nat) (s s' : PomodoroSettings)
  (e : TimeOrCount) :
  pomodoro s = pomodoro s' -> shortBreak s = shortBreak s' ->
  longBreak s = longBreak s' -> group s = group s' ->
  forall v, planLines fuel s e v = planLines fuel s' e v.
Proof.
  intros Hp Hs Hl Hg.
  induction fuel as [|fuel IH]; intros v; cbn [planLines];
    rewrite Hp, ?Hs, ?Hl, ?Hg; [reflexivity|].
  now rewrite !IH.
Qed.

(** A schedule that is entered starts with a work interval. *)
Lemma planLines_head (fuel : nat) (s : PomodoroSettings) (e : TimeOrCount)
  (v v' : Vars) (ls : list PlanLine) :
  planLines fuel s e v = Some (ls, v') ->
  willContinue (addMinutes (v_time v) (pomodoro s)) (v_count v) e = true ->
  exists l ls', ls = l :: ls' /\ isWork l = true.
Proof.
  intros H Ht. destruct fuel as [|fuel]; cbn [planLines] in H;
    rewrite Ht in H; [discriminate|].
  destruct (_ =? _).
  - destruct (willContinue _ _ _).
    + destruct (planLines fuel s e _) as [[ls0 v0]|]; [|discriminate].
      injection H as <- _. eauto.
    + injection H as <- _. eauto.
  - destruct (willContinue _ _ _).
    + destruct (planLines fuel s e _) as [[ls0 v0]|]; [|discriminate].
      injection H as <- _. eauto.
    + injection H as <- _. eauto.
Qed.



(** The counter grows by the number of work intervals scheduled. *)
Lemma planLines_count (fuel : nat) (s : PomodoroSettings) (e : TimeOrCount) :
  forall v ls v',
    planLines fuel s e v = Some (ls, v') ->
    v_count v' = v_count v + Z.of_nat (List.length (filter isWork ls)).
Proof.
  induction fuel as [|fuel IH]; intros v ls v' H; cbn [planLines] in H.
  - destruct (willContinue _ _ _); [discriminate|].
    injection H as <- <-. cbn. lia.
  - destruct (willContinue _ _ _); [|injection H as <- <-; cbn; lia].
    destruct (_ =? _).
    + destruct (willContinue _ _ _).
      * destruct (planLines fuel s e _) as [[ls0 v0]|] eqn:E; [|discriminate].
        injection H as <- <-. apply IH in E. cbn [v_count] in E.
        cbn [filter isWork line_label List.length]. lia.
      * injection H as <- <-. cbn. lia.
    + destruct (willContinue _ _ _).
      * destruct (planLines fuel s e _) as [[ls0 v0]|] eqn:E; [|discriminate].
        injection H as <- <-. apply IH in E. cbn [v_count] in E.
        cbn [filter isWork line_label List.length]. lia.
      * injection H as <- <-. cbn. lia.
Qed.

Lemma while_initial_schedule (fuel : nat) (s : PomodoroSettings)
  (e : TimeOrCount) (startTime : Date) (st : LoopState) :
  while fuel s e (initial startTime) = Some st ->
  exists ls,
    planLines fuel s e (mkVars startTime 0 0 1) = Some (ls, vars_of st)
    /\ markdown st = render (filter (shown s) ls).
Proof.
  rewrite while_planLines. cbn [vars_of initial currentTime groupCount
    totalRestTime pomodoroCount markdown].
  destruct (planLines fuel s e _) as [[ls v']|]; [|discriminate].
  intros [= <-]. exists ls. now destruct v'.
Qed.

Lemma while_fuel_le (s : PomodoroSettings) (e : TimeOrCount)
  (st st' : LoopState) (fuel fuel' : nat) :
  (fuel <= fuel')%nat ->
  while fuel s e st = Some st' -> while fuel' s e st = Some st'.
Proof.
  intros Hle. rewrite !while_planLines.
  destruct (planLines fuel s e _) as [[ls v']|] eqn:E; [|discriminate].
  now rewrite (planLines_fuel_le _ _ _ _ _ _ Hle E).
Qed.

(** ** Termination *)

Lemma willContinue_time (t m : Z) (n : Z) (e : TimeOrCount) :
  willContinue (addMinutes (DateAt t) m) n e = true ->
  match e with
  | Count c => n <= c
  | Time (DateAt te) => t + m * msPerMinute <= te
  | Time InvalidDate => False
  end.
Proof.
  rewrite addMinutes_at. destruct e as [c|[|te]]; cbn.
  - apply Z.leb_le.
  - discriminate.
  - apply Z.leb_le.
Qed.

Lemma willContinue_invalid (m n : Z) (e : TimeOrCount) :
  willContinue (addMinutes InvalidDate m) n e = true ->
  exists c, e = Count c /\ n <= c.
Proof.
  destruct e as [c|d]; cbn; [|discriminate].
  intros H. apply Z.leb_le in H. eauto.
Qed.

(** While the loop goes on something remains... *)
Lemma remaining_positive (s : PomodoroSettings) (e : TimeOrCount) (v : Vars) :
  0 < pomodoro s ->
  willContinue (addMinutes (v_time v) (pomodoro s)) (v_count v) e = true ->
  1 <= remaining e v.
Proof.
  intros Hp H. destruct v as [[|t] g r n]; cbn [v_time v_count] in H.
  - apply willContinue_invalid in H as (c & -> & H). cbn. lia.
  - apply willContinue_time in H. destruct e as [c|[|te]]; cbn;
      unfold msPerMinute in *; lia.
Qed.

(** ... and a pomodoro with its break takes some of it away. *)
Lemma remaining_decreases (s : PomodoroSettings) (e : TimeOrCount) (v : Vars)
  (b g r : Z) :
  0 < pomodoro s -> 0 <= b ->
  willContinue (addMinutes (v_time v) (pomodoro s)) (v_count v) e = true ->
  remaining e
    (mkVars (addMinutes (addMinutes (v_time v) (pomodoro s)) b) g r
       (v_count v + 1))
  <= remaining e v - 1.
Proof.
  intros Hp Hb H. destruct v as [[|t] g0 r0 n]; cbn [v_time v_count] in *.
  - apply willContinue_invalid in H as (c & -> & H). cbn. lia.
  - apply willContinue_time in H. rewrite !addMinutes_at.
    destruct e as [c|[|te]]; cbn; unfold msPerMinute in *; nia.
Qed.

Lemma planLines_terminates (s : PomodoroSettings) (e : TimeOrCount) :
  0 < pomodoro s -> 0 <= shortBreak s -> 0 <= longBreak s ->
  forall fuel v,
    remaining e v <= Z.of_nat fuel ->
    exists r, planLines fuel s e v = Some r.
Proof.
  intros Hp Hs Hl. induction fuel as [|fuel IH]; intros v Hr.
  - rewrite planLines_O.
    destruct (willContinue _ _ _) eqn:Ht; [|eauto].
    apply (remaining_positive s) in Ht; [lia | assumption].
  - rewrite planLines_S.
    destruct (willContinue _ _ _) eqn:Ht; [|eauto].
    cbv zeta. destruct (_ =? _).
    + destruct (willContinue (addMinutes (addMinutes _ _) _) _ _); [|eauto].
      destruct (IH (mkVars
                     (addMinutes (addMinutes (v_time v) (pomodoro s))
                        (longBreak s)) 0 (v_rest v + longBreak s)
                     (v_count v + 1))) as [[ls v'] E].
      { pose proof (remaining_decreases s e v (longBreak s) 0
                      (v_rest v + longBreak s) Hp Hl Ht). lia. }
      rewrite E. eauto.
    + destruct (willContinue (addMinutes (addMinutes _ _) _) _ _); [|eauto].
      destruct (IH (mkVars
                     (addMinutes (addMinutes (v_time v) (pomodoro s))
                        (shortBreak s)) (v_group v + 1)
                     (v_rest v + shortBreak s) (v_count v + 1)))
        as [[ls v'] E].
      { pose proof (remaining_decreases s e v (shortBreak s) (v_group v + 1)
                      (v_rest v + shortBreak s) Hp Hs Ht). lia. }
      rewrite E. eauto.
Qed.

(** ** generatePomodoroPlan as a whole *)

Ltac run_method :=
  cbv [generatePomodoroPlan onChange_number onChange_toggle onChange_end
       onChange_start onOpen bind ret get modify
       parseTime parseTimeOrCount newDate Notice run_loop resultEl_setText
       saveSettings].

Lemma parsesAsTime_valid (now : Z) (time : string) :
  negb (isNaN (getTime (parseTime_on (DateAt now) time))) = parsesAsTime time.
Proof.
  rewrite parseTime_on_at. unfold parsesAsTime.
  now destruct (hoursOf time), (minutesOf time).
Qed.

Lemma parseTimeOrCount_value (timeOrCount : string) (w : World) :
  parseTimeOrCount timeOrCount w
  = Return (endAt (clock w (reads w)) timeOrCount)
      (if String.eqb timeOrCount "" then w
       else if notifies timeOrCount
            then emit (NoticeShown "Invalid time or count format") (tick w)
            else tick w).
Proof.
  unfold endAt, notifies. run_method.
  destruct (String.eqb timeOrCount ""); [reflexivity|]. cbn [negb andb].
  rewrite parsesAsTime_valid.
  destruct (parsesAsTime timeOrCount); [reflexivity|].
  destruct (parseInt timeOrCount); reflexivity.
Qed.

(** The text a call leaves is the text of the loop run from the parsed
    start to the parsed end, with the statistics when they are wanted. *)
Ltac world_fields :=
  cbv [settings start end_ resultMarkdown resultEl clock reads log
       with_settings with_start with_end with_resultMarkdown with_resultEl
       tick emit].

Lemma textOf_generatePomodoroPlan (fuel : nat) (w : World) :
  textOf (generatePomodoroPlan fuel w)
  = option_map (planText (settings w))
      (while fuel (settings w) (endOf w) (initial (startOf w))).
Proof.
  unfold endOf, startOf.
  cbv [generatePomodoroPlan bind ret get modify parseTime newDate run_loop].
  rewrite parseTimeOrCount_value.
  destruct w as [s st0 en md el clk n lg]. world_fields.
  destruct (String.eqb en ""); [|destruct (notifies en)];
    (destruct (while fuel _ _ _) as [st|]; [|reflexivity]);
    cbn [option_map]; unfold planText;
    cbv [resultEl_setText saveSettings modify ret bind get]; world_fields;
    (destruct (pomodoroCount st - 1 =? 0); [|destruct (includeStats s)]);
    destruct el; reflexivity.
Qed.

(** A loop that scheduled no pomodoro wrote nothing. *)
Lemma empty_plan_markdown (fuel : nat) (s : PomodoroSettings)
  (e : TimeOrCount) (startTime : Date) (st : LoopState) :
  while fuel s e (initial startTime) = Some st ->
  pomodoroCount st - 1 = 0 -> markdown st = "".
Proof.
  intros Hw Hn.
  destruct (while_initial_schedule _ _ _ _ _ Hw) as (ls & Hp & ->).
  pose proof (planLines_count _ _ _ _ _ _ Hp) as Hc.
  cbn [v_count vars_of] in Hc.
  destruct (willContinue (addMinutes startTime (pomodoro s)) 1 e) eqn:Ht.
  - destruct (planLines_head _ _ _ _ _ _ Hp Ht) as (l & ls' & -> & Hl).
    cbn [filter] in Hc. rewrite Hl in Hc. cbn [List.length] in Hc. lia.
  - destruct fuel; cbn [planLines v_time v_count] in Hp; rewrite Ht in Hp;
      injection Hp as <- _; reflexivity.
Qed.

(** In an open modal the call returns, in the world [generated]. *)
Lemma generatePomodoroPlan_opened (fuel : nat) (w : World) (r : string)
  (st : LoopState) :
  resultEl w = Some r ->
  while fuel (settings w) (endOf w) (initial (startOf w)) = Some st ->
  generatePomodoroPlan fuel w = Return tt (generated w st).
Proof.
  intros Hel Hw.
  assert (Hmd : (pomodoroCount st - 1 =? 0) = true -> markdown st = "").
  { intros H. apply Z.eqb_eq in H. eauto using empty_plan_markdown. }
  revert Hel Hw Hmd.
  unfold endOf, startOf, generated, eventsOf, readingsOf.
  cbv [generatePomodoroPlan bind ret get modify parseTime newDate run_loop].
  rewrite parseTimeOrCount_value. unfold notifies.
  destruct w as [s st0 en md el clk n lg]. world_fields.
  intros -> Hw Hmd.
  destruct (String.eqb en ""); cbn [negb andb];
    [|destruct (negb (parsesAsTime en) && isNaN (parseInt en))];
    world_fields; rewrite Hw; unfold planText;
    cbv [resultEl_setText saveSettings modify ret bind get]; world_fields;
    (destruct (pomodoroCount st - 1 =? 0);
     [rewrite (Hmd eq_refl)|destruct (includeStats s)]);
    cbn [Nat.add app]; rewrite ?app_nil_r, <- ?app_assoc; reflexivity.
Qed.

(** ** Runs under different clock readings *)

Lemma shifted_addMinutes (delta : Z) (a b : Date) (m : Z) :
  shifted delta a b -> shifted delta (addMinutes a m) (addMinutes b m).
Proof.
  destruct a as [|x], b as [|y]; cbn [shifted]; try tauto.
  intros [-> Hf]. rewrite !addMinutes_at. cbn [shifted]. split; [ring|].
  rewrite !minuteOf_add.
  rewrite (Z.add_mod (minuteOf (x + delta))), (Z.add_mod (minuteOf x))
    by discriminate.
  now rewrite Hf.
Qed.

Lemma shifted_formatTime (delta : Z) (a b : Date) :
  shifted delta a b -> formatTime a = formatTime b.
Proof.
  destruct a as [|x], b as [|y]; cbn [shifted]; try tauto.
  intros [_ Hf]. now rewrite !formatTime_face, Hf.
Qed.

Lemma shifted_willContinue (delta : Z) (a b : Date) (n : Z)
  (e1 e2 : TimeOrCount) :
  shifted delta a b -> shifted_end delta e1 e2 ->
  willContinue a n e1 = willContinue b n e2.
Proof.
  intros Hab He.
  destruct e1 as [c1|[|x1]], e2 as [c2|[|x2]]; cbn [shifted_end] in He;
    try contradiction.
  - now subst.
  - destruct a, b; reflexivity.
  - destruct a as [|x], b as [|y]; cbn [shifted] in Hab; try contradiction;
      [reflexivity|].
    destruct Hab as [-> _]. subst x2. cbn.
    destruct (x <=? x1) eqn:E1, (x + delta <=? x1 + delta) eqn:E2;
      try reflexivity; lia.
Qed.

Lemma iteration_shifted (delta : Z) (s : PomodoroSettings)
  (e1 e2 : TimeOrCount) (st1 st2 : LoopState) :
  shifted_end delta e1 e2 -> shifted_state delta st1 st2 ->
  shifted_state delta (fst (iteration s e1 st1)) (fst (iteration s e2 st2))
  /\ snd (iteration s e1 st1) = snd (iteration s e2 st2).
Proof.
  intros He (Ht & Hg & Hr & Hn & Hm).
  pose proof (shifted_addMinutes delta _ _ (pomodoro s) Ht) as Ht1.
  unfold iteration. rewrite Hg, Hn, Hr, Hm.
  unfold pomodoroLine, longBreakLine, shortBreakLine.
  rewrite <- (shifted_formatTime _ _ _ Ht), <- (shifted_formatTime _ _ _ Ht1).
  destruct (_ =? _).
  - rewrite <- (shifted_willContinue delta _ _ _ e1 e2
                  (shifted_addMinutes _ _ _ (longBreak s + pomodoro s) Ht1)
                  He).
    rewrite <- (shifted_formatTime _ _ _
                  (shifted_addMinutes _ _ _ (longBreak s) Ht1)).
    destruct (willContinue _ _ e1); cbn [negb fst snd];
      (split; [|reflexivity]); unfold shifted_state;
      cbn [currentTime groupCount totalRestTime pomodoroCount markdown];
      auto using shifted_addMinutes.
  - rewrite <- (shifted_willContinue delta _ _ _ e1 e2
                  (shifted_addMinutes _ _ _ (pomodoro s + shortBreak s) Ht1)
                  He).
    rewrite <- (shifted_formatTime _ _ _
                  (shifted_addMinutes _ _ _ (shortBreak s) Ht1)).
    destruct (willContinue _ _ e1); cbn [negb fst snd];
      (split; [|reflexivity]); unfold shifted_state;
      cbn [currentTime groupCount totalRestTime pomodoroCount markdown];
      auto using shifted_addMinutes.
Qed.

(** Moving the start and a time-kind end by the same amount, to the same
    minute of the day, changes nothing but the time values in the loop:
    the same text, the same counters, the same number of iterations. *)
Lemma while_shifted (delta : Z) (s : PomodoroSettings) (e1 e2 : TimeOrCount) :
  shifted_end delta e1 e2 ->
  forall fuel st1 st2,
    shifted_state delta st1 st2 ->
    match while fuel s e1 st1, while fuel s e2 st2 with
    | Some a, Some b => shifted_state delta a b
    | None, None => True
    | _, _ => False
    end.
Proof.
  intros He. induction fuel as [|fuel IH]; intros st1 st2 Hst;
    cbn [while];
    pose proof Hst as (Ht & Hg & Hr & Hn & Hm);
    rewrite Hn;
    rewrite <- (shifted_willContinue delta _ _ (pomodoroCount st1) e1 e2
                  (shifted_addMinutes _ _ _ (pomodoro s) Ht) He);
    destruct (willContinue _ _ e1); try assumption; try exact I.
  destruct (iteration_shifted delta s e1 e2 st1 st2 He Hst) as [Hst' Hfl].
  destruct (iteration s e1 st1) as [a fa], (iteration s e2 st2) as [b fb].
  cbn [fst snd] in *. subst fb.
  destruct fa; [apply IH|]; assumption.
Qed.

Lemma parseTime_on_shifted (now now' : Z) (time : string) :
  shifted (keptOf now' - keptOf now)
    (parseTime_on (DateAt now) time) (parseTime_on (DateAt now') time).
Proof.
  rewrite !parseTime_on_at.
  destruct (hoursOf time) as [|h], (minutesOf time) as [|m];
    cbn [shifted]; try exact I.
  split; [ring|]. rewrite !minuteOf_kept.
  rewrite (Z.add_mod (Day now' * 1440)), (Z.add_mod (Day now * 1440))
    by discriminate.
  now rewrite !Z.mod_mul by discriminate.
Qed.

Lemma endAt_shifted (now now' : Z) (timeOrCount : string) :
  shifted_end (keptOf now' - keptOf now)
    (endAt now timeOrCount) (endAt now' timeOrCount).
Proof.
  unfold endAt. destruct (String.eqb timeOrCount ""); [reflexivity|].
  rewrite !parseTime_on_at.
  destruct (hoursOf timeOrCount) as [|h], (minutesOf timeOrCount) as [|m];
    cbn [getTime isNaN negb];
    try (destruct (parseInt timeOrCount); reflexivity).
  cbn [shifted_end]. ring.
Qed.

(** An end condition that is a count does not depend on the clock. *)
Lemma endAt_count (now now' c : Z) (timeOrCount : string) :
  endAt now timeOrCount = Count c -> endAt now' timeOrCount = Count c.
Proof.
  unfold endAt. destruct (String.eqb timeOrCount ""); [auto|].
  rewrite !parseTime_on_at.
  destruct (hoursOf timeOrCount) as [|h], (minutesOf timeOrCount) as [|m];
    cbn [getTime isNaN negb]; auto. discriminate.
Qed.

Lemma planText_shifted (delta : Z) (s : PomodoroSettings) (a b : LoopState) :
  shifted_state delta a b -> planText s a = planText s b.
Proof.
  intros (_ & _ & Hr & Hn & Hm).
  unfold planText, statsInfo, totalWorkTime. now rewrite Hr, Hn, Hm.
Qed.

(** Two calls with the same strings and settings leave the same text when
    their end conditions are as far apart as their start times. *)
Lemma textOf_shifted (fuel : nat) (w1 w2 : World) :
  start w1 = start w2 -> settings w1 = settings w2 ->
  shifted_end (keptOf (clock w2 (reads w2)) - keptOf (clock w1 (reads w1)))
    (endOf w1) (endOf w2) ->
  textOf (generatePomodoroPlan fuel w1) = textOf (generatePomodoroPlan fuel w2).
Proof.
  intros Hstart Hset He. rewrite !textOf_generatePomodoroPlan, <- Hset.
  assert (Hst : shifted_state
                  (keptOf (clock w2 (reads w2)) - keptOf (clock w1 (reads w1)))
                  (initial (startOf w1)) (initial (startOf w2))).
  { unfold shifted_state, initial, startOf; cbn [currentTime groupCount
      totalRestTime pomodoroCount markdown].
    rewrite <- Hstart. auto using parseTime_on_shifted. }
  pose proof (while_shifted _ (settings w1) _ _ He fuel _ _ Hst) as H.
  destruct (while fuel _ (endOf w1) _), (while fuel _ (endOf w2) _);
    try contradiction; [|reflexivity].
  cbn [option_map]. f_equal. eapply planText_shifted; eassumption.
Qed.

(** ** The lines of the final text *)

Lemma avoids_hoursAndMinutes (x : ascii) (h m : Z) :
  timeChar x = false ->
  avoids x " hours" = true -> avoids x ", " = true ->
  avoids x " minutes" = true ->
  avoids x (hoursAndMinutes h m) = true.
Proof.
  intros Hx H1 H2 H3. unfold hoursAndMinutes.
  destruct (0 <? h); [destruct (0 <? m)|];
    rewrite ?avoids_app, ?H1, ?H2, ?H3,
      ?(timeChar_avoids x _ Hx (all_chars_Z_toString _));
    reflexivity.
Qed.

Lemma avoids_statsLines (x : ascii) (s : PomodoroSettings) (st : LoopState) :
  timeChar x = false ->
  avoids x "  Total pomodoros: work rest time hours, minutes" = true ->
  Forall (fun l => avoids x l = true) (statsLines s st).
Proof.
  intros Hx Hlit.
  assert (H1 : avoids x " hours" = true /\ avoids x ", " = true
               /\ avoids x " minutes" = true
               /\ avoids x "  Total pomodoros: " = true
               /\ avoids x "  Total work time: " = true
               /\ avoids x "  Total rest time: " = true).
  { unfold avoids in *. cbn [all_chars] in *.
    repeat match type of Hlit with
           | _ && _ = true =>
               let H := fresh in
               apply andb_true_iff in Hlit as [H Hlit]; rewrite ?H
           end.
    repeat split; reflexivity. }
  destruct H1 as (Ha & Hb & Hc & Hd & He & Hf).
  unfold statsLines. repeat constructor;
    rewrite avoids_app, ?Hd, ?He, ?Hf; cbn [andb];
    auto using avoids_hoursAndMinutes, timeChar_avoids, all_chars_Z_toString.
Qed.

Lemma lines_statsInfo (s : PomodoroSettings) (st : LoopState) :
  lines (statsInfo s st) = statsLines s st.
Proof.
  pose proof (avoids_statsLines nl s st eq_refl eq_refl) as H.
  unfold statsLines in *.
  repeat match type of H with
         | Forall _ (_ :: _) =>
             let Hx := fresh "Hl" in
             let Hr := fresh "H" in
             apply Forall_cons_iff in H as [Hx H]
         end.
  unfold statsInfo.
  change (newline ++ newline ++ ?r) with ("" ++ newline ++ "" ++ newline ++ r).
  rewrite !lines_line by reflexivity.
  rewrite <- (append_assoc "  Total pomodoros: "), lines_line by assumption.
  rewrite <- (append_assoc "  Total work time: "), lines_line by assumption.
  rewrite <- (append_nil_r newline), <- (append_assoc "  Total rest time: "),
    lines_line by assumption.
  reflexivity.
Qed.

Lemma statsLines_plain (s : PomodoroSettings) (st : LoopState) :
  Forall (fun l => isPomodoroLine l = false /\ isBreakLine l = false)
    (statsLines s st).
Proof.
  pose proof (avoids_statsLines "P" s st eq_refl eq_refl) as HP.
  pose proof (avoids_statsLines "B" s st eq_refl eq_refl) as HB.
  rewrite Forall_forall in *. intros l Hl. split.
  - apply (contains_avoids "P"); [reflexivity | auto].
  - unfold isBreakLine.
    rewrite !(contains_avoids "B"); try reflexivity; auto.
Qed.

Lemma filter_shown_isWork (s : PomodoroSettings) (ls : list PlanLine) :
  filter isWork (filter (shown s) ls) = filter isWork ls.
Proof.
  induction ls as [|l ls IH]; [reflexivity|].
  cbn [filter].
  destruct (shown s l) eqn:Hs; cbn [filter]; rewrite IH; [reflexivity|].
  destruct (isWork l) eqn:Hw; [|reflexivity].
  unfold shown in Hs. unfold isWork in Hw.
  destruct (line_label l); discriminate.
Qed.






(** The lines of the text of a finished call: the shown entries of the
    schedule, then the statistics when they are there. *)
Lemma lines_planText (fuel : nat) (s : PomodoroSettings) (e : TimeOrCount)
  (startTime : Date) (st : LoopState) :
  while fuel s e (initial startTime) = Some st ->
  exists ls,
    planLines fuel s e (mkVars startTime 0 0 1) = Some (ls, vars_of st)
    /\ markdown st = render (filter (shown s) ls)
    /\ lines (planText s st)
       = (map renderLine (filter (shown s) ls)
          ++ (if pomodoroCount st - 1 =? 0 then []
              else if includeStats s then statsLines s st else []))%list.
Proof.
  intros H. destruct (while_initial_schedule _ _ _ _ _ H) as (ls & Hp & Hm).
  exists ls. split; [assumption|]. split; [assumption|].
  unfold planText. rewrite Hm.
  destruct (_ =? _); [|destruct (includeStats s)].
  - now rewrite app_nil_r, lines_render.
  - now rewrite lines_render_app, lines_statsInfo.
  - now rewrite app_nil_r, lines_render.
Qed.

Lemma filter_isPomodoroLine_render (ls : list PlanLine) :
  filter isPomodoroLine (map renderLine ls)
  = map renderLine (filter isWork ls).
Proof.
  induction ls as [|l ls IH]; [reflexivity|].
  cbn [map filter]. rewrite isPomodoroLine_renderLine.
  destruct (isWork l); cbn [map]; now rewrite IH.
Qed.

Lemma filter_isPomodoroLine_stats (s : PomodoroSettings) (st : LoopState) :
  filter isPomodoroLine (statsLines s st) = [].
Proof.
  pose proof (statsLines_plain s st) as H.
  induction H as [|l ls [Hl _] _ IH]; [reflexivity|].
  cbn [filter]. now rewrite Hl.
Qed.

(** With the count 0 as its end the loop does not start, and an open modal
    is left with the empty plan. *)
Lemma count_zero_gives_empty_plan_aux (fuel : nat) (w : World) (r : string) :
  endOf w = Count 0 -> resultEl w = Some r ->
  while fuel (settings w) (endOf w) (initial (startOf w))
  = Some (initial (startOf w))
  /\ generatePomodoroPlan fuel w
     = Return tt (generated w (initial (startOf w))).
Proof.
  intros He Hel.
  assert (Hw : while fuel (settings w) (endOf w) (initial (startOf w))
               = Some (initial (startOf w))).
  { rewrite He. now destruct fuel. }
  split; [assumption|].
  eapply generatePomodoroPlan_opened; eassumption.
Qed.

(** ** Times read from the form *)

Lemma formatTime_kept (now k : Z) :
  formatTime (DateAt (keptOf now + k * msPerMinute)) = face (k mod 1440).
Proof.
  rewrite formatTime_face, minuteOf_kept. f_equal.
  rewrite Z.add_comm. apply Z.mod_add. discriminate.
Qed.

Lemma keptOf_bounds (now : Z) :
  Day now * msPerDay <= keptOf now < Day now * msPerDay + msPerMinute.
Proof.
  unfold keptOf. pose proof (Z.mod_pos_bound now msPerMinute eq_refl). lia.
Qed.

Lemma while_S (fuel : nat) (s : PomodoroSettings) (e : TimeOrCount)
  (st : LoopState) :
  while (S fuel) s e st =
  if willContinue (addMinutes (currentTime st) (pomodoro s))
       (pomodoroCount st) e
  then match iteration s e st with
       | (st', Next) => while fuel s e st'
       | (st', Break) => Some st'
       end
  else Some st.
Proof. reflexivity. Qed.

(** ** Observing a call *)

Lemma textOf_while (fuel : nat) (w : World) (text : string) :
  textOf (generatePomodoroPlan fuel w) = Some text ->
  exists st,
    while fuel (settings w) (endOf w) (initial (startOf w)) = Some st
    /\ text = planText (settings w) st.
Proof.
  rewrite textOf_generatePomodoroPlan.
  destruct (while fuel _ _ _) as [st|]; [|discriminate].
  intros [= <-]. eauto.
Qed.

Lemma keeps_renderLine (s : PomodoroSettings) (l : PlanLine) :
  keeps s (renderLine l) = shown s l.
Proof.
  unfold keeps. rewrite isPomodoroLine_renderLine.
  unfold isWork, shown, renderLine.
  destruct (line_label l) eqn:E; cbn [labelText orb].
  - reflexivity.
  - replace (contains "Short Break" _) with true
      by (symmetry; do 5 apply contains_app_r; reflexivity).
    replace (contains "Long Break" _) with false.
    + now rewrite andb_true_r, andb_false_r, orb_false_r.
    + symmetry. apply (contains_avoids "L"); [reflexivity|].
      change "Short Break" with (labelText ShortRest). rewrite <- E.
      fold (renderLine l).
      rewrite avoids_renderLine, avoids_labelText, E by reflexivity.
      reflexivity.
  - replace (contains "Long Break" _) with true
      by (symmetry; do 5 apply contains_app_r; reflexivity).
    replace (contains "Short Break" _) with false.
    + now rewrite andb_true_r, andb_false_r.
    + symmetry. apply (contains_avoids "S"); [reflexivity|].
      change "Long Break" with (labelText LongRest). rewrite <- E.
      fold (renderLine l).
      rewrite avoids_renderLine, avoids_labelText, E by reflexivity.
      reflexivity.
Qed.

Lemma filter_keeps_render (s : PomodoroSettings) (ls : list PlanLine) :
  filter (keeps s) (map renderLine ls) = map renderLine (filter (shown s) ls).
Proof.
  induction ls as [|l ls IH]; [reflexivity|].
  cbn [map filter]. rewrite keeps_renderLine.
  destruct (shown s l); cbn [map]; now rewrite IH.
Qed.

(** Every call of generatePomodoroPlan reads the clock, once or twice, so
    a call can be told from no call. *)
Lemma generatePomodoroPlan_readings (fuel : nat) (w w' : World) :
  generatePomodoroPlan fuel w = Return tt w' ->
  reads w' = (readingsOf w + reads w)%nat.
Proof.
  unfold readingsOf.
  cbv [generatePomodoroPlan bind ret get modify parseTime newDate run_loop].
  rewrite parseTimeOrCount_value.
  destruct w as [s st0 en md el clk n lg]. world_fields.
  destruct (String.eqb en ""); [|destruct (notifies en)];
    (destruct (while fuel _ _ _) as [st|]; [|discriminate]);
    cbv [resultEl_setText saveSettings modify ret bind get]; world_fields;
    (destruct (pomodoroCount st - 1 =? 0); [|destruct (includeStats s)]);
    destruct el; try discriminate; intros [= <-]; reflexivity.
Qed.

Lemma generatePomodoroPlan_reads_clock (fuel : nat) (w w' : World) :
  generatePomodoroPlan fuel w = Return tt w' -> (reads w < reads w')%nat.
Proof.
  intros H. apply generatePomodoroPlan_readings in H. rewrite H.
  unfold readingsOf. destruct (String.eqb _ _); lia.
Qed.

Lemma endAt_five (now : Z) : endAt now "5" = Count 5.
Proof. unfold endAt. rewrite parseTime_on_at. reflexivity. Qed.

(** ** The form *)

(** A call in an open modal leaves the modal open: the text of the result
    element is replaced, the element stays. *)
Lemma generatePomodoroPlan_stays_open (fuel : nat) (w w' : World) (r : string) :
  resultEl w = Some r ->
  generatePomodoroPlan fuel w = Return tt w' ->
  exists r', resultEl w' = Some r'.
Proof.
  intros Hel Hg.
  destruct (while fuel (settings w) (endOf w) (initial (startOf w)))
    as [st|] eqn:Hw.
  - rewrite (generatePomodoroPlan_opened fuel w r st Hel Hw) in Hg.
    injection Hg as <-. unfold generated. cbn [resultEl]. eauto.
  - pose proof (textOf_generatePomodoroPlan fuel w) as Ht.
    rewrite Hw, Hg in Ht. discriminate.
Qed.

(** In an open modal no exception leaves generatePomodoroPlan. *)
Lemma generatePomodoroPlan_never_throws (fuel : nat) (w : World) (r : string) :
  resultEl w = Some r ->
  forall e w', generatePomodoroPlan fuel w <> Throw e w'.
Proof.
  intros Hel e w' Hg.
  destruct (while fuel (settings w) (endOf w) (initial (startOf w)))
    as [st|] eqn:Hw.
  - rewrite (generatePomodoroPlan_opened fuel w r st Hel Hw) in Hg.
    discriminate.
  - pose proof (textOf_generatePomodoroPlan fuel w) as Ht.
    rewrite Hw, Hg in Ht. discriminate.
Qed.

(** [onOpen] creates the result element before it generates, so the modal
    is open from then on and the TypeError of [setText] cannot occur. *)
Lemma onOpen_opens (fuel : nat) (s : PomodoroSettings) (clk : nat -> Z)
  (n : nat) :
  (forall e w', onOpen fuel (construct s clk n) <> Throw e w')
  /\ forall w', onOpen fuel (construct s clk n) = Return tt w' ->
                exists r, resultEl w' = Some r.
Proof.
  unfold onOpen. cbv [bind modify]. split.
  - now apply (generatePomodoroPlan_never_throws fuel _ "").
  - intros w'. now apply (generatePomodoroPlan_stays_open fuel _ w' "").
Qed.

(** With a pomodoro of positive length and breaks that are not negative a
    call of generatePomodoroPlan ends: some amount of fuel is enough. *)
Lemma generatePomodoroPlan_terminates (w : World) :
  0 < pomodoro (settings w) -> 0 <= shortBreak (settings w) ->
  0 <= longBreak (settings w) ->
  exists n text, forall fuel,
    (n <= fuel)%nat -> textOf (generatePomodoroPlan fuel w) = Some text.
Proof.
  intros Hp Hs Hl.
  set (v := mkVars (startOf w) 0 0 1).
  destruct (planLines_terminates (settings w) (endOf w) Hp Hs Hl
              (Z.to_nat (remaining (endOf w) v)) v) as [[ls v'] E]; [lia|].
  exists (Z.to_nat (remaining (endOf w) v)).
  eexists. intros fuel Hle.
  rewrite textOf_generatePomodoroPlan, while_planLines.
  change (vars_of (initial (startOf w))) with v.
  rewrite (planLines_fuel_le _ _ _ _ _ _ Hle E). reflexivity.
Qed.

(** Every callback of the form leaves an open modal open. *)
Lemma edits_stay_open (w w' : World) (r : string) :
  edits w w' -> resultEl w = Some r -> exists r', resultEl w' = Some r'.
Proof.
  intros He Hel.
  assert (Hgen : forall fuel f w2,
             resultEl (f w) = Some r ->
             (modify f ;;; generatePomodoroPlan fuel) w = Return tt w2 ->
             exists r', resultEl w2 = Some r').
  { intros fuel f w2 Hf. cbv [bind modify].
    now apply generatePomodoroPlan_stays_open with (r := r). }
  assert (Hnum : forall set fuel value w2,
             onChange_number set fuel value w = Return tt w2 ->
             exists r', resultEl w2 = Some r').
  { intros set fuel value w2. unfold onChange_number.
    destruct (parseInt value).
    - intros [= <-]. eauto.
    - now apply Hgen. }
  destruct He as [fuel value w w' H|fuel value w w' H|fuel value w w' H
                 |fuel value w w' H|fuel value w w' H|fuel value w w' H
                 |fuel value w w' H|fuel value w w' H|fuel value w w' H];
    try (now apply Hnum in H);
    now apply Hgen in H.
Qed.

(** The modal is open in every world it can be in, so the TypeError of
    [setText] is out of reach and no call made by the form throws. *)
Lemma reachable_open (w : World) :
  reachable w -> exists r, resultEl w = Some r.
Proof.
  induction 1 as [fuel s clk n w H|w w' _ [r IH] He].
  - now apply (onOpen_opens fuel s clk n).
  - eauto using edits_stay_open.
Qed.

Lemma reachable_never_throws (fuel : nat) (w : World) :
  reachable w -> forall e w', generatePomodoroPlan fuel w <> Throw e w'.
Proof.
  intros H. destruct (reachable_open w H) as [r Hr].
  now apply generatePomodoroPlan_never_throws with (r := r).
Qed.

(** * The host: clock changes, the range of a Date, the length of a text *)

(** ** Dates in a calm window *)

Section Calm.

Variable env : Host.Env.
Variables o a b : Z.
Hypothesis Hcalm : calm (Host.zone env) o a b.

Lemma getHours_calm (t : Z) :
  a <= t <= b -> Host.getHours env (DateAt t) = getHours (DateAt (t + o)).
Proof.
  intros Ht. cbn [Host.getHours getHours].
  now rewrite (proj1 (Hcalm t Ht)).
Qed.

Lemma getMinutes_calm (t : Z) :
  a <= t <= b -> Host.getMinutes env (DateAt t) = getMinutes (DateAt (t + o)).
Proof.
  intros Ht. cbn [Host.getMinutes getMinutes].
  now rewrite (proj1 (Hcalm t Ht)).
Qed.

Lemma formatTime_calm (t : Z) :
  a <= t <= b -> Host.formatTime env (DateAt t) = formatTime (DateAt (t + o)).
Proof.
  intros Ht. unfold Host.formatTime, formatTime.
  now rewrite getHours_calm, getMinutes_calm.
Qed.

(** In the window [addMinutes] adds the minutes to the instant. *)
Lemma addMinutes_calm (t m : Z) :
  a <= t <= b -> a <= t + m * msPerMinute <= b ->
  Host.addMinutes env (DateAt t) m = DateAt (t + m * msPerMinute).
Proof.
  intros Ht Ht'. unfold Host.addMinutes.
  cbn [Host.getMinutes add Host.setMinutes].
  rewrite (proj1 (Hcalm t Ht)).
  pose proof (addMinutes_at (t + o) m) as E.
  unfold addMinutes in E. cbn [getMinutes add setMinutes] in E.
  injection E as ->.
  replace (t + o + m * msPerMinute) with (t + m * msPerMinute + o) by ring.
  exact (proj2 (Hcalm _ Ht')).
Qed.


Lemma shift_addMinutes (t m : Z) :
  a <= t <= b -> a <= t + m * msPerMinute <= b ->
  shiftDate o (Host.addMinutes env (DateAt t) m)
  = addMinutes (shiftDate o (DateAt t)) m.
Proof.
  intros Ht Ht'. rewrite (addMinutes_calm t m Ht Ht').
  cbn [shiftDate]. rewrite addMinutes_at. f_equal. ring.
Qed.

End Calm.

Lemma shift_willContinue (o : Z) (d : Date) (n : Z) (e : TimeOrCount) :
  willContinue (shiftDate o d) n (shiftEnd o e) = willContinue d n e.
Proof.
  destruct e as [c|[|te]]; [reflexivity| |]; destruct d as [|t];
    try reflexivity.
  cbn [shiftEnd shiftDate willContinue Date_le le getTime].
  destruct (Z.leb_spec t te), (Z.leb_spec (t + o) (te + o)); (reflexivity || lia).
Qed.

Lemma addMinutes_invalid_host (env : Host.Env) (m : Z) :
  Host.addMinutes env InvalidDate m = InvalidDate.
Proof. reflexivity. Qed.

Lemma formatTime_invalid_host (env : Host.Env) :
  Host.formatTime env InvalidDate = formatTime InvalidDate.
Proof. reflexivity. Qed.

Lemma append_some (env : Host.Env) (x y z : string) :
  Host.append env x y = Some z -> z = x ++ y.
Proof.
  unfold Host.append. destruct (_ <=? _); [now intros [= <-] | discriminate].
Qed.

Lemma reach_shift (o : Z) (s : PomodoroSettings) (e : TimeOrCount) (t c : Z) :
  reach s (shiftEnd o e) (t + o) c = reach s e t c + o.
Proof.
  destruct e as [n|[|te]]; cbn [shiftEnd shiftDate reach]; lia.
Qed.

(** ** Parsing in a calm window *)

Section CalmParse.

Variable env : Host.Env.
Variables o a b : Z.
Hypothesis Hcalm : calm (Host.zone env) o a b.

Lemma setHours_calm (now h hl : Z) :
  a <= now <= b ->
  setHours (DateAt (now + o)) (Num h) = DateAt hl ->
  a <= hl - o <= b ->
  Host.setHours env (DateAt now) (Num h) = DateAt (hl - o).
Proof.
  intros Hn E Hl. cbn [Host.setHours].
  rewrite (proj1 (Hcalm now Hn)).
  cbn [setHours] in E. injection E as ->.
  replace hl with (hl - o + o) at 1 by ring.
  exact (proj2 (Hcalm _ Hl)).
Qed.

Lemma setMinutes_calm (t m tl : Z) :
  a <= t <= b ->
  setMinutes (DateAt (t + o)) (Num m) = DateAt tl ->
  a <= tl - o <= b ->
  Host.setMinutes env (DateAt t) (Num m) = DateAt (tl - o).
Proof.
  intros Hn E Hl. cbn [Host.setMinutes].
  rewrite (proj1 (Hcalm t Hn)).
  cbn [setMinutes] in E. injection E as ->.
  replace tl with (tl - o + o) at 1 by ring.
  exact (proj2 (Hcalm _ Hl)).
Qed.

(** On a string that [parseTime] stays in the window with, the host
    gives the instant of the local time the string names. *)
Lemma parseTime_on_calm (now : Z) (time : string) :
  parsedInside o a b now time ->
  shiftDate o (Host.parseTime_on env (DateAt now) time)
  = parseTime_on (DateAt (now + o)) time.
Proof.
  unfold parsedInside, Host.parseTime_on, parseTime_on.
  fold (hoursOf time). fold (minutesOf time).
  destruct (hoursOf time) as [|h]; [reflexivity|].
  destruct (minutesOf time) as [|m].
  - now destruct (Host.setHours env _ _).
  - destruct (setHours (DateAt (now + o)) (Num h)) as [|hl] eqn:Eh;
      [discriminate|].
    destruct (setMinutes (DateAt hl) (Num m)) as [|tl] eqn:Em;
      [discriminate|].
    intros (Hn & Hh & Ht).
    rewrite (setHours_calm now h hl Hn Eh Hh).
    rewrite (setMinutes_calm (hl - o) m tl Hh); [| |assumption].
    + cbn [shiftDate]. f_equal. ring.
    + now replace (hl - o + o) with hl by ring.
Qed.

End CalmParse.

(** ** Texts and their lengths *)

Lemma lengthZ_append (x y : string) :
  Host.lengthZ (x ++ y) = Host.lengthZ x + Host.lengthZ y.
Proof.
  unfold Host.lengthZ. induction x as [|c x IH]; [reflexivity|].
  cbn [String.append String.length]. lia.
Qed.

Lemma lengthZ_nonneg (x : string) : 0 <= Host.lengthZ x.
Proof. unfold Host.lengthZ. lia. Qed.

Lemma append_spec (env : Host.Env) (x y : string) :
  (Host.append env x y = Some (x ++ y)
   /\ Host.lengthZ (x ++ y) <= Host.maxLength env)
  \/ (Host.append env x y = None
      /\ Host.maxLength env < Host.lengthZ (x ++ y)).
Proof.
  unfold Host.append. rewrite lengthZ_append.
  destruct (Z.leb_spec (Host.lengthZ x + Host.lengthZ y) (Host.maxLength env));
    [left|right]; split; (reflexivity || assumption).
Qed.


Lemma while_markdown_grows (fuel : nat) (s : PomodoroSettings)
  (e : TimeOrCount) (st st' : LoopState) :
  while fuel s e st = Some st' ->
  Host.lengthZ (markdown st) <= Host.lengthZ (markdown st').
Proof.
  rewrite while_planLines.
  destruct (planLines fuel s e _) as [[ls v']|]; [|discriminate].
  intros [= <-]. cbn [state_of markdown]. rewrite lengthZ_append.
  pose proof (lengthZ_nonneg (render (filter (shown s) ls))). lia.
Qed.

Lemma pomodoroLine_length (s : PomodoroSettings) (t : Date) (n : Z) :
  0 < Host.lengthZ (pomodoroLine s t n).
Proof.
  unfold pomodoroLine. rewrite lengthZ_append.
  pose proof (lengthZ_nonneg
                (formatTime t ++ " - " ++ formatTime (addMinutes t (pomodoro s))
                 ++ " Pomodoro #" ++ Z_toString n ++ newline)).
  change (Host.lengthZ "- [ ] ") with 6. lia.
Qed.

Lemma iteration_markdown_longer (s : PomodoroSettings) (e : TimeOrCount)
  (st : LoopState) :
  Host.lengthZ (markdown st)
  < Host.lengthZ (markdown (fst (iteration s e st))).
Proof.
  pose proof (pomodoroLine_length s (currentTime st) (pomodoroCount st)).
  pose proof (lengthZ_nonneg
                (longBreakLine s (addMinutes (currentTime st) (pomodoro s)))).
  pose proof (lengthZ_nonneg
                (shortBreakLine s (addMinutes (currentTime st) (pomodoro s)))).
  unfold iteration.
  destruct (_ =? _); destruct (negb _); try destruct (includeLongBreak s);
    try destruct (includeShortBreak s); cbn [fst markdown];
    rewrite !lengthZ_append; lia.
Qed.

(** ** The loop in a calm window *)

Section CalmLoop.

Variable env : Host.Env.
Variables o a b : Z.
Hypothesis Hcalm : calm (Host.zone env) o a b.
Variable s : PomodoroSettings.
Hypothesis Hp : 0 <= pomodoro s.
Hypothesis Hs : 0 <= shortBreak s.
Hypothesis Hl : 0 <= longBreak s.
Variable e : TimeOrCount.

(** The room the window leaves when the loop stands at [t]: for the end
    of the pomodoro; when that is allowed, for the look-ahead and for the
    break; and when the look-ahead holds, for the loop to go on from the
    end of the break. *)
Lemma reach_room (t c rest : Z) :
  0 <= rest <= shortBreak s + longBreak s ->
  a <= t -> reach s e t c <= b ->
  let A := t + pomodoro s * msPerMinute in
  a <= t <= b /\ a <= A <= b
  /\ (willContinue (DateAt A) c e = true ->
      a <= A + (rest + pomodoro s) * msPerMinute <= b
      /\ a <= A + rest * msPerMinute <= b
      /\ (willContinue (DateAt (A + (rest + pomodoro s) * msPerMinute))
            (c + 1) e = true ->
          reach s e (A + rest * msPerMinute) (c + 1) <= b)).
Proof.
  intros Hr Ha Hb A. subst A. unfold reach in *.
  destruct e as [n|[|te]]; cbn [willContinue Date_le le getTime].
  - assert (Hk : 0 <= Z.max 0 (n + 1 - c)
                      * ((pomodoro s + (shortBreak s + longBreak s))
                         * msPerMinute))
      by (apply Z.mul_nonneg_nonneg; unfold msPerMinute; lia).
    unfold msPerMinute in *.
    split; [lia|]. split; [lia|]. intros _. split; [lia|]. split; [lia|].
    intros Hc. apply Z.leb_le in Hc.
    replace (Z.max 0 (n + 1 - (c + 1))) with (n - c) by lia.
    replace (Z.max 0 (n + 1 - c)) with (n - c + 1) in Hb by lia.
    lia.
  - unfold msPerMinute in *. split; [lia|]. split; [lia|]. discriminate.
  - unfold msPerMinute in *. split; [lia|]. split; [lia|].
    intros Hf. apply Z.leb_le in Hf. split; [lia|]. split; [lia|].
    intros Hc. apply Z.leb_le in Hc. lia.
Qed.

(** What the host computes in one pass from a place with room: the times
    of the loop in local time, shown as the loop in local time shows
    them. *)
Lemma calm_steps (d : Date) (c : Z) :
  room a b s e d c ->
  let A := Host.addMinutes env d (pomodoro s) in
  Host.formatTime env d = formatTime (shiftDate o d)
  /\ shiftDate o A = addMinutes (shiftDate o d) (pomodoro s)
  /\ Host.formatTime env A = formatTime (shiftDate o A)
  /\ (willContinue A c e = true ->
      forall rest, 0 <= rest <= shortBreak s + longBreak s ->
        let B := Host.addMinutes env A rest in
        shiftDate o (Host.addMinutes env A (rest + pomodoro s))
        = addMinutes (shiftDate o A) (rest + pomodoro s)
        /\ shiftDate o B = addMinutes (shiftDate o A) rest
        /\ Host.formatTime env B = formatTime (shiftDate o B)
        /\ (willContinue (Host.addMinutes env A (rest + pomodoro s))
              (c + 1) e = true -> room a b s e B (c + 1))).
Proof.
  destruct d as [|t]; cbn [room].
  - intros _. cbn.
    repeat split; try reflexivity.
  - intros [Ha Hb].
    pose proof (reach_room t c 0 ltac:(lia) Ha Hb)
      as (Ht & HA & _).
    cbn zeta in HA.
    rewrite (addMinutes_calm env o a b Hcalm t (pomodoro s) Ht HA).
    rewrite !(formatTime_calm env o a b Hcalm) by assumption.
    cbn [shiftDate]. rewrite addMinutes_at.
    split; [reflexivity|]. split; [f_equal; ring|]. split; [reflexivity|].
    intros Hfit rest Hrest.
    pose proof (reach_room t c rest Hrest Ha Hb)
      as (_ & _ & H).
    cbn zeta in H. destruct (H Hfit) as (H1 & H2 & H3).
    rewrite !(addMinutes_calm env o a b Hcalm) by assumption.
    rewrite !(formatTime_calm env o a b Hcalm) by assumption.
    cbn [shiftDate room]. rewrite !addMinutes_at.
    split; [f_equal; ring|]. split; [f_equal; ring|]. split; [reflexivity|].
    intros Hc. split; [lia|]. now apply H3.
Qed.

Lemma fits_calm (d : Date) (c : Z) :
  room a b s e d c ->
  willContinue (Host.addMinutes env d (pomodoro s)) c e
  = willContinue (addMinutes (shiftDate o d) (pomodoro s)) c (shiftEnd o e).
Proof.
  intros H.
  destruct (calm_steps d c H) as (_ & <- & _).
  now rewrite shift_willContinue.
Qed.

(** One pass through the body of the loop in a calm window: the host does
    what the loop in local time does, unless an append passes the limit,
    and then the text in local time is longer than the limit. *)
Lemma iteration_calm (st : LoopState) :
  room a b s e (currentTime st) (pomodoroCount st) ->
  willContinue (Host.addMinutes env (currentTime st) (pomodoro s))
    (pomodoroCount st) e = true ->
  match Host.iteration env s e st with
  | Host.Passed st' f =>
      iteration s (shiftEnd o e) (shiftState o st) = (shiftState o st', f)
      /\ Host.lengthZ (markdown st') <= Host.maxLength env
      /\ (f = Next -> room a b s e (currentTime st') (pomodoroCount st'))
  | Host.RangeError md =>
      md = markdown st \/ Host.lengthZ md <= Host.maxLength env
  end
  /\ (forall md, Host.iteration env s e st = Host.RangeError md ->
      Host.maxLength env
      < Host.lengthZ
          (markdown (fst (iteration s (shiftEnd o e) (shiftState o st))))).
Proof.
  intros Hroom Hfit.
  destruct (calm_steps _ _ Hroom)
    as (F1 & F2 & F3 & F).
  specialize (F Hfit).
  assert (L1 : Host.pomodoroLine env s (currentTime st) (pomodoroCount st)
               = pomodoroLine s (shiftDate o (currentTime st))
                   (pomodoroCount st)).
  { unfold Host.pomodoroLine, pomodoroLine. now rewrite F1, F3, F2. }
  destruct (F (longBreak s) ltac:(lia)) as (G1 & G2 & G3 & G4).
  destruct (F (shortBreak s) ltac:(lia)) as (S1 & S2 & S3 & S4).
  replace (shortBreak s + pomodoro s) with (pomodoro s + shortBreak s)
    in S1, S4 by ring.
  set (A := Host.addMinutes env (currentTime st) (pomodoro s)) in *.
  assert (L2 : Host.longBreakLine env s A = longBreakLine s (shiftDate o A)).
  { unfold Host.longBreakLine, longBreakLine.
    now rewrite F3, G3, G2. }
  assert (L3 : Host.shortBreakLine env s A = shortBreakLine s (shiftDate o A)).
  { unfold Host.shortBreakLine, shortBreakLine.
    now rewrite F3, S3, S2. }
  unfold Host.iteration, iteration.
  cbn [shiftState currentTime groupCount totalRestTime pomodoroCount markdown].
  fold A. rewrite <- F2, <- G1, <- S1, <- G2, <- S2, !shift_willContinue.
  rewrite <- L1, <- L2, <- L3.
  set (line := Host.pomodoroLine env s (currentTime st) (pomodoroCount st)).
  destruct (append_spec env (markdown st) line) as [[E1 H1]|[E1 H1]]; rewrite E1.
  2: { destruct (_ =? _); destruct (negb _); try destruct (includeLongBreak s);
       try destruct (includeShortBreak s); cbn [fst markdown];
       (split; [now left|intros ? _]); rewrite ?lengthZ_append in H1; rewrite ?lengthZ_append;
       pose proof (lengthZ_nonneg (Host.longBreakLine env s A));
       pose proof (lengthZ_nonneg (Host.shortBreakLine env s A)); lia. }
  destruct (groupCount st + 1 =? group s).
  - destruct (willContinue (Host.addMinutes env A (longBreak s + pomodoro s))
                (pomodoroCount st + 1) e) eqn:Hc; cbn [negb].
    + destruct (includeLongBreak s).
      * destruct (append_spec env (markdown st ++ line)
                    (Host.longBreakLine env s A)) as [[E2 H2]|[E2 H2]]; rewrite E2.
        -- split; [|discriminate]. split; [reflexivity|].
           split; [assumption|]. intros _. now apply G4.
        -- cbn [fst markdown]. split; [now right|now intros ? _].
      * split; [|discriminate]. split; [reflexivity|].
        split; [assumption|]. intros _. now apply G4.
    + split; [|discriminate]. split; [reflexivity|].
      split; [assumption|discriminate].
  - destruct (willContinue (Host.addMinutes env A (pomodoro s + shortBreak s))
                (pomodoroCount st + 1) e) eqn:Hc; cbn [negb].
    + destruct (includeShortBreak s).
      * destruct (append_spec env (markdown st ++ line)
                    (Host.shortBreakLine env s A)) as [[E2 H2]|[E2 H2]]; rewrite E2.
        -- split; [|discriminate]. split; [reflexivity|].
           split; [assumption|]. intros _. now apply S4.
        -- cbn [fst markdown]. split; [now right|now intros ? _].
      * split; [|discriminate]. split; [reflexivity|].
        split; [assumption|]. intros _. now apply S4.
    + split; [|discriminate]. split; [reflexivity|].
      split; [assumption|discriminate].
Qed.

(** The loop in a calm window: the host ends where the loop in local time
    ends, with the same text and counters, and runs out of the same fuel;
    when an append passes the limit, the text in local time (if that loop
    ends) is longer than the limit. *)
Lemma while_calm (fuel : nat) :
  forall st,
    room a b s e (currentTime st) (pomodoroCount st) ->
    match Host.while env fuel s e st with
    | Host.Finished st' =>
        while fuel s (shiftEnd o e) (shiftState o st)
        = Some (shiftState o st')
        /\ (markdown st' = markdown st
            \/ Host.lengthZ (markdown st') <= Host.maxLength env)
    | Host.OutOfFuel =>
        while fuel s (shiftEnd o e) (shiftState o st) = None
    | Host.Overflow md =>
        (forall stI,
            while fuel s (shiftEnd o e) (shiftState o st) = Some stI ->
            Host.maxLength env < Host.lengthZ (markdown stI)
            /\ Host.lengthZ (markdown st) < Host.lengthZ (markdown stI))
        /\ (md = markdown st \/ Host.lengthZ md <= Host.maxLength env)
    end.
Proof.
  induction fuel as [|fuel IH]; intros st Hroom; cbn [Host.while while];
    cbn [shiftState currentTime pomodoroCount];
    rewrite <- (fits_calm _ _ Hroom);
    destruct (willContinue _ _ e) eqn:Hfit; auto.
  destruct (iteration_calm st Hroom Hfit)
    as [H1 H2].
  change (mkLoop (shiftDate o (currentTime st)) (groupCount st)
            (totalRestTime st) (pomodoroCount st) (markdown st))
    with (shiftState o st).
  destruct (Host.iteration env s e st) as [st1 f|md].
  - destruct H1 as (E & Hlen & Hnext). rewrite E.
    destruct f; [|auto].
    specialize (IH st1 (Hnext eq_refl)).
    destruct (Host.while env fuel s e st1) as [st'|md|].
    + destruct IH as [IH1 IH2]. split; [assumption|].
      right. destruct IH2 as [->|]; assumption.
    + destruct IH as [IH1 IH2]. split.
      * intros stI HI. destruct (IH1 stI HI) as [I1 I2].
        split; [assumption|].
        pose proof (iteration_markdown_longer s (shiftEnd o e)
                      (shiftState o st)) as Hg.
        rewrite E in Hg. cbn [fst shiftState markdown] in Hg. lia.
      * right. destruct IH2 as [->|]; assumption.
    + assumption.
  - split; [|assumption]. specialize (H2 md eq_refl).
    pose proof (iteration_markdown_longer s (shiftEnd o e)
                  (shiftState o st)) as Hg.
    destruct (iteration s (shiftEnd o e) (shiftState o st)) as [stI1 f].
    cbn [fst] in H2, Hg. cbn [shiftState markdown] in Hg.
    intros stI. destruct f.
    + intros Hw. apply while_markdown_grows in Hw. lia.
    + intros [= <-]. lia.
Qed.

End CalmLoop.

(** ** generatePomodoroPlan on the host *)

Ltac run_host :=
  cbv [Host.generatePomodoroPlan Host.onChange_number Host.onChange_toggle
       Host.onChange_end Host.onChange_start Host.onOpen Host.onChange
       bind ret get modify
       Host.parseTime Host.parseTimeOrCount newDate Notice Host.run_loop
       Host.appendInfo resultEl_setText saveSettings].

Lemma host_parseTimeOrCount (env : Host.Env) (timeOrCount : string)
  (w : World) :
  Host.parseTimeOrCount env timeOrCount w
  = Return (hostEndAt env (clock w (reads w)) timeOrCount)
      (if String.eqb timeOrCount "" then w
       else if hostNotifies env (clock w (reads w)) timeOrCount
            then emit (NoticeShown "Invalid time or count format") (tick w)
            else tick w).
Proof.
  unfold hostEndAt, hostNotifies. run_host.
  destruct (String.eqb timeOrCount ""); [reflexivity|]. cbn [negb andb].
  destruct (isNaN (getTime (Host.parseTime_on env _ timeOrCount)));
    [|reflexivity].
  cbn [negb]. destruct (parseInt timeOrCount); reflexivity.
Qed.

(** A call is: the two parses, the loop, and what the rest of the method
    makes of the way the loop ended. *)
Lemma host_generatePomodoroPlan (env : Host.Env) (fuel : nat) (w : World) :
  Host.generatePomodoroPlan env fuel w
  = afterLoop env (atLoop env w) (hostLoop env fuel w).
Proof.
  unfold hostLoop, hostEndOf, hostStartOf, atLoop, afterLoop, readingsOf.
  cbv [Host.generatePomodoroPlan bind ret get modify Host.parseTime newDate
       Host.run_loop].
  rewrite host_parseTimeOrCount. unfold hostNotifies.
  destruct w as [s st0 en md el clk n lg]. world_fields.
  destruct (String.eqb en ""); cbn [negb andb];
    [|destruct (isNaN (getTime (Host.parseTime_on env _ en))
                && isNaN (parseInt en))];
    world_fields; rewrite ?app_nil_r;
    (destruct (Host.while env fuel _ _ _) as [st|md'|]; [|reflexivity..]);
    cbv [resultEl_setText saveSettings modify ret bind get Host.appendInfo];
    world_fields;
    (destruct (pomodoroCount st - 1 =? 0);
     [|destruct (includeStats s); [destruct (Host.append env _ _)|]]);
    destruct el; reflexivity.
Qed.

(** ** A call in a calm window *)

Lemma shiftState_initial (o : Z) (d : Date) :
  shiftState o (Host.initial d "") = initial (shiftDate o d).
Proof. reflexivity. Qed.

Lemma planText_shiftState (o : Z) (s : PomodoroSettings) (st : LoopState) :
  planText s (shiftState o st) = planText s st.
Proof. reflexivity. Qed.

Lemma statsInfo_length (s : PomodoroSettings) (st : LoopState) :
  0 < Host.lengthZ (statsInfo s st).
Proof.
  unfold statsInfo. cbv zeta. rewrite lengthZ_append.
  match goal with |- 0 < _ + Host.lengthZ ?x =>
    pose proof (lengthZ_nonneg x) end.
  change (Host.lengthZ newline) with 1. lia.
Qed.

Lemma isNaN_getTime_shift (o : Z) (d : Date) :
  isNaN (getTime (shiftDate o d)) = isNaN (getTime d).
Proof. now destruct d. Qed.

Section QuietCall.

Variable env : Host.Env.
Variables o a b : Z.
Variable w : World.
Hypothesis Hquiet : quiet env o a b w.

Lemma quiet_start : shiftDate o (hostStartOf env w) = startOf (local o w).
Proof.
  destruct Hquiet as (Hcalm & Hs & _).
  exact (parseTime_on_calm env o a b Hcalm _ _ Hs).
Qed.

Lemma quiet_end : shiftEnd o (hostEndOf env w) = endOf (local o w).
Proof.
  destruct Hquiet as (Hcalm & _ & He & _).
  pose proof (parseTime_on_calm env o a b Hcalm _ _ He) as E.
  unfold hostEndOf, hostEndAt, endOf, endAt.
  cbn [local clock reads end_].
  destruct (String.eqb (end_ w) ""); [reflexivity|].
  rewrite <- E, isNaN_getTime_shift.
  destruct (isNaN (getTime _)); cbn [negb]; [|reflexivity].
  now destruct (parseInt (end_ w)).
Qed.

Lemma quiet_room :
  room a b (settings w) (hostEndOf env w) (hostStartOf env w) 1.
Proof.
  pose proof quiet_start as Es. pose proof quiet_end as Ee.
  destruct Hquiet as (_ & Hs & _ & Hr).
  unfold parsedInside in Hs.
  change (parseTime_on _ _) with (startOf (local o w)) in Hs.
  destruct (hostStartOf env w) as [|t]; [exact I|].
  cbn [shiftDate] in Es. rewrite <- Es in Hs, Hr. rewrite <- Ee in Hr.
  rewrite reach_shift in Hr. cbn [room]. lia.
Qed.

Hypothesis Hp : 0 <= pomodoro (settings w).
Hypothesis Hs : 0 <= shortBreak (settings w).
Hypothesis Hl : 0 <= longBreak (settings w).

(** The loop of the call and the loop in local time. *)
Lemma quiet_loop (fuel : nat) :
  match hostLoop env fuel w with
  | Host.Finished st' =>
      while fuel (settings w) (endOf (local o w))
        (initial (startOf (local o w))) = Some (shiftState o st')
      /\ (markdown st' = ""
          \/ Host.lengthZ (markdown st') <= Host.maxLength env)
  | Host.OutOfFuel =>
      while fuel (settings w) (endOf (local o w))
        (initial (startOf (local o w))) = None
  | Host.Overflow md =>
      forall stI,
        while fuel (settings w) (endOf (local o w))
          (initial (startOf (local o w))) = Some stI ->
        Host.maxLength env < Host.lengthZ (markdown stI)
        /\ 0 < Host.lengthZ (markdown stI)
  end.
Proof.
  pose proof (while_calm env o a b (proj1 Hquiet) (settings w) Hp Hs Hl
                (hostEndOf env w) fuel (Host.initial (hostStartOf env w) "")
                quiet_room) as H.
  rewrite shiftState_initial, quiet_start, quiet_end in H.
  unfold hostLoop. destruct (Host.while env fuel _ _ _); [assumption| |assumption].
  destruct H as [H _]. exact H.
Qed.

(** When the call returns, the loop in local time ends, and the text of
    the call is the text of that loop. *)
Lemma host_returns (fuel : nat) (w' : World) :
  Host.generatePomodoroPlan env fuel w = Return tt w' ->
  exists st,
    hostLoop env fuel w = Host.Finished st
    /\ while fuel (settings w) (endOf (local o w))
         (initial (startOf (local o w))) = Some (shiftState o st)
    /\ resultMarkdown w' = planText (settings w) st
    /\ (resultMarkdown w' = ""
        \/ Host.lengthZ (resultMarkdown w') <= Host.maxLength env).
Proof.
  rewrite host_generatePomodoroPlan. pose proof (quiet_loop fuel) as H.
  destruct (hostLoop env fuel w) as [st|md|]; cbn [afterLoop];
    [|discriminate..].
  destruct H as [Hw Hlen]. intros Hr. exists st.
  split; [reflexivity|]. split; [assumption|]. revert Hr.
  unfold planText.
  change (settings (atLoop env w)) with (settings w).
  change (resultEl (atLoop env w)) with (resultEl w).
  destruct (pomodoroCount st - 1 =? 0).
  - destruct (resultEl w); [|discriminate]. intros [= <-].
    split; [reflexivity|exact Hlen].
  - destruct (includeStats (settings w)).
    + destruct (append_spec env (markdown st) (statsInfo (settings w) st))
        as [[E H1]|[E H1]]; rewrite E; [|discriminate].
      destruct (resultEl w); intros [= <-]; (split; [reflexivity|now right]).
    + destruct (resultEl w); intros [= <-]; (split; [reflexivity|exact Hlen]).
Qed.

(** When the loop in local time ends with a text within the limit, the
    call ends with that text. *)
Lemma host_text (fuel : nat) (st : LoopState) :
  while fuel (settings w) (endOf (local o w))
    (initial (startOf (local o w))) = Some st ->
  planText (settings w) st = ""
  \/ Host.lengthZ (planText (settings w) st) <= Host.maxLength env ->
  textOf (Host.generatePomodoroPlan env fuel w)
  = Some (planText (settings w) st).
Proof.
  intros Hw Hlen.
  rewrite host_generatePomodoroPlan. pose proof (quiet_loop fuel) as H.
  rewrite Hw in H.
  assert (Hmd : Host.lengthZ (markdown st)
                <= Host.lengthZ (planText (settings w) st)).
  { unfold planText. destruct (_ =? _); [lia|].
    destruct (includeStats _); [|lia]. rewrite lengthZ_append.
    pose proof (statsInfo_length (settings w) st). lia. }
  destruct (hostLoop env fuel w) as [stH|md|]; cbn [afterLoop];
    [| |discriminate].
  2: { destruct (H st eq_refl) as [H1 H2].
       destruct Hlen as [Hlen|Hlen]; [rewrite Hlen in Hmd; cbn in Hmd|]; lia. }
  destruct H as [H _]. injection H as ->.
  rewrite planText_shiftState in *. unfold planText in *.
  change (settings (atLoop env w)) with (settings w).
  change (resultEl (atLoop env w)) with (resultEl w).
  cbn [shiftState pomodoroCount markdown] in *.
  destruct (pomodoroCount stH - 1 =? 0).
  - now destruct (resultEl w).
  - destruct (includeStats (settings w)).
    + destruct (append_spec env (markdown stH) (statsInfo (settings w) stH))
        as [[E H1]|[E H1]]; rewrite E.
      * now destruct (resultEl w).
      * exfalso. pose proof (statsInfo_length (settings w) stH).
        destruct Hlen as [Hlen|Hlen]; [|lia].
        apply (f_equal Host.lengthZ) in Hlen.
        rewrite lengthZ_append in Hlen.
        change (Host.lengthZ "") with 0 in Hlen.
        pose proof (lengthZ_nonneg (markdown stH)). lia.
    + now destruct (resultEl w).
Qed.

End QuietCall.

(** ** Calm windows *)

(** A zone without clock changes is calm everywhere in the range of a
    Date. *)
Lemma calm_no_changes (z : Host.Zone) (a b : Z) :
  Host.changes z = [] ->
  - Host.maxTime <= a -> b <= Host.maxTime ->
  calm z (Host.firstOffset z) a b.
Proof.
  intros Hz Ha Hb t Ht. unfold Host.LocalTime, Host.UTC. rewrite Hz.
  cbn [Host.offsetFrom Host.utcFrom]. split; [reflexivity|].
  replace (t + Host.firstOffset z - Host.firstOffset z) with t by ring.
  unfold Host.TimeClip.
  destruct (Z.leb_spec (Z.abs t) Host.maxTime); [reflexivity|lia].
Qed.

(** New York is calm from one clock change to the next: in summer time
    from the change of 8 March 2026 up to the change of 1 November. *)
Lemma calm_newYork_summer (a b : Z) :
  1772953200000 <= a -> b < 1793512800000 ->
  calm newYork (-14400000) a b.
Proof.
  intros Ha Hb t Ht. unfold Host.LocalTime, Host.UTC, newYork.
  cbn [Host.firstOffset Host.changes Host.offsetFrom Host.utcFrom].
  destruct (Z.ltb_spec t 1772953200000); [lia|].
  destruct (Z.ltb_spec t 1793512800000); [|lia].
  split; [reflexivity|].
  destruct (Z.ltb_spec (t + -14400000 - -18000000) 1772953200000); [lia|].
  destruct (Z.ltb_spec (t + -14400000 - -14400000) 1772953200000); [lia|].
  destruct (Z.ltb_spec (t + -14400000 - -14400000) 1793512800000); [|lia].
  unfold Host.TimeClip, Host.maxTime.
  destruct (Z.leb_spec (Z.abs (t + -14400000 - -14400000)) 8640000000000000);
    [f_equal; ring|lia].
Qed.

(** And in winter time up to the change of 8 March 2026. *)
Lemma calm_newYork_winter (a b : Z) :
  - Host.maxTime <= a -> b < 1772953200000 ->
  calm newYork (-18000000) a b.
Proof.
  intros Ha Hb t Ht. unfold Host.LocalTime, Host.UTC, newYork.
  cbn [Host.firstOffset Host.changes Host.offsetFrom Host.utcFrom].
  destruct (Z.ltb_spec t 1772953200000); [|lia].
  split; [reflexivity|].
  destruct (Z.ltb_spec (t + -18000000 - -18000000) 1772953200000); [|lia].
  unfold Host.TimeClip, Host.maxTime in *.
  destruct (Z.leb_spec (Z.abs (t + -18000000 - -18000000)) 8640000000000000);
    [f_equal; ring|lia].
Qed.

(** ** Two runs that stand alike before their ends *)

Lemma aligned_addMinutes (e1 e2 : TimeOrCount) (d1 d2 : Date) (m : Z) :
  aligned e1 e2 d1 d2 -> aligned e1 e2 (addMinutes d1 m) (addMinutes d2 m).
Proof.
  destruct d1 as [|x], d2 as [|y]; cbn [aligned]; try tauto.
  intros [Hf Hk]. rewrite !addMinutes_at. cbn [aligned]. split.
  - rewrite !minuteOf_add.
    rewrite (Z.add_mod (minuteOf y)), (Z.add_mod (minuteOf x)) by discriminate.
    now rewrite Hf.
  - intros k n. specialize (Hk (m + k) n).
    now replace (x + m * msPerMinute + k * msPerMinute)
      with (x + (m + k) * msPerMinute) by ring;
    replace (y + m * msPerMinute + k * msPerMinute)
      with (y + (m + k) * msPerMinute) by ring.
Qed.

Lemma aligned_formatTime (e1 e2 : TimeOrCount) (d1 d2 : Date) :
  aligned e1 e2 d1 d2 -> formatTime d1 = formatTime d2.
Proof.
  destruct d1 as [|x], d2 as [|y]; cbn [aligned]; try tauto.
  intros [Hf _]. now rewrite !formatTime_face, Hf.
Qed.

Lemma aligned_willContinue (e1 e2 : TimeOrCount) (d1 d2 : Date) (n : Z) :
  sameKind e1 e2 -> aligned e1 e2 d1 d2 ->
  willContinue d1 n e1 = willContinue d2 n e2.
Proof.
  intros He. destruct d1 as [|x], d2 as [|y]; cbn [aligned]; try tauto.
  - intros _. destruct e1 as [c1|t1], e2 as [c2|t2]; cbn [sameKind] in He;
      try contradiction; [now subst|reflexivity].
  - intros [_ Hk]. specialize (Hk 0 n).
    now rewrite !Z.add_0_r in Hk.
Qed.

Lemma iteration_aligned (s : PomodoroSettings) (e1 e2 : TimeOrCount)
  (st1 st2 : LoopState) :
  sameKind e1 e2 -> aligned_state e1 e2 st1 st2 ->
  aligned_state e1 e2 (fst (iteration s e1 st1)) (fst (iteration s e2 st2))
  /\ snd (iteration s e1 st1) = snd (iteration s e2 st2).
Proof.
  intros He (Ht & Hg & Hr & Hn & Hm).
  pose proof (aligned_addMinutes _ _ _ _ (pomodoro s) Ht) as Ht1.
  unfold iteration. rewrite Hg, Hn, Hr, Hm.
  unfold pomodoroLine, longBreakLine, shortBreakLine.
  rewrite <- (aligned_formatTime _ _ _ _ Ht), <- (aligned_formatTime _ _ _ _ Ht1).
  destruct (_ =? _).
  - rewrite <- (aligned_willContinue e1 e2 _ _ (pomodoroCount st1 + 1) He
                  (aligned_addMinutes _ _ _ _ (longBreak s + pomodoro s) Ht1)).
    rewrite <- (aligned_formatTime _ _ _ _
                  (aligned_addMinutes _ _ _ _ (longBreak s) Ht1)).
    destruct (willContinue _ _ e1); cbn [negb fst snd];
      (split; [|reflexivity]); unfold aligned_state;
      cbn [currentTime groupCount totalRestTime pomodoroCount markdown];
      auto using aligned_addMinutes.
  - rewrite <- (aligned_willContinue e1 e2 _ _ (pomodoroCount st1 + 1) He
                  (aligned_addMinutes _ _ _ _ (pomodoro s + shortBreak s) Ht1)).
    rewrite <- (aligned_formatTime _ _ _ _
                  (aligned_addMinutes _ _ _ _ (shortBreak s) Ht1)).
    destruct (willContinue _ _ e1); cbn [negb fst snd];
      (split; [|reflexivity]); unfold aligned_state;
      cbn [currentTime groupCount totalRestTime pomodoroCount markdown];
      auto using aligned_addMinutes.
Qed.

(** Two loops that start alike before their ends run alike: the same
    text, the same counters, the same number of iterations. *)
Lemma while_aligned (s : PomodoroSettings) (e1 e2 : TimeOrCount) :
  sameKind e1 e2 ->
  forall fuel st1 st2,
    aligned_state e1 e2 st1 st2 ->
    match while fuel s e1 st1, while fuel s e2 st2 with
    | Some x, Some y => aligned_state e1 e2 x y
    | None, None => True
    | _, _ => False
    end.
Proof.
  intros He. induction fuel as [|fuel IH]; intros st1 st2 Hst;
    cbn [while];
    pose proof Hst as (Ht & Hg & Hr & Hn & Hm);
    rewrite Hn;
    rewrite <- (aligned_willContinue e1 e2 _ _ (pomodoroCount st1) He
                  (aligned_addMinutes _ _ _ _ (pomodoro s) Ht));
    destruct (willContinue _ _ e1); try assumption; try exact I.
  destruct (iteration_aligned s e1 e2 st1 st2 He Hst) as [Hst' Hfl].
  destruct (iteration s e1 st1) as [x fx], (iteration s e2 st2) as [y fy].
  cbn [fst snd] in *. subst fy.
  destruct fx; [apply IH|]; assumption.
Qed.

Lemma planText_aligned (s : PomodoroSettings) (e1 e2 : TimeOrCount)
  (st1 st2 : LoopState) :
  aligned_state e1 e2 st1 st2 -> planText s st1 = planText s st2.
Proof.
  intros (_ & _ & Hr & Hn & Hm).
  unfold planText, statsInfo, totalWorkTime. now rewrite Hr, Hn, Hm.
Qed.

(** A time of day is allowed by an end of the same day exactly when its
    minute is not after the minute of the end, as long as the seconds the
    end keeps are not fewer than those the time keeps. *)
Lemma kept_le (n1 n2 x y : Z) :
  Day n2 = Day n1 -> n1 mod msPerMinute <= n2 mod msPerMinute ->
  (keptOf n1 + x * msPerMinute <=? keptOf n2 + y * msPerMinute) = (x <=? y).
Proof.
  intros Hd Hs. unfold keptOf. rewrite Hd.
  pose proof (Z.mod_pos_bound n1 msPerMinute eq_refl).
  pose proof (Z.mod_pos_bound n2 msPerMinute eq_refl).
  unfold msPerMinute in *.
  destruct (Z.leb_spec x y), (Z.leb_spec (Day n1 * msPerDay + n1 mod 60000 + x * 60000)
    (Day n1 * msPerDay + n2 mod 60000 + y * 60000)); (reflexivity || lia).
Qed.

(** Two calls with the same strings start alike before their ends when
    each has its two clock readings in order. *)
Lemma calls_aligned (w1 w2 : World) :
  start w1 = start w2 -> end_ w1 = end_ w2 ->
  inOrder w1 -> inOrder w2 ->
  sameKind (endOf w1) (endOf w2)
  /\ aligned (endOf w1) (endOf w2) (startOf w1) (startOf w2).
Proof.
  intros Hstart Hend H1 H2.
  unfold inOrder in H1, H2. rewrite <- Hend in H2.
  unfold endOf, endAt, startOf. rewrite <- Hstart, <- Hend.
  rewrite !parseTime_on_at. unfold parsesAsTime in *.
  destruct (String.eqb (end_ w1) "").
  { split; [reflexivity|].
    destruct (hoursOf (start w1)), (minutesOf (start w1)); cbn [aligned];
      try exact I.
    split; [|reflexivity].
    rewrite !minuteOf_kept.
    rewrite (Z.add_mod (Day _ * 1440)), (Z.add_mod (Day (clock w1 _) * 1440))
      by discriminate.
    now rewrite !Z.mod_mul by discriminate. }
  destruct (hoursOf (end_ w1)) as [|h'], (minutesOf (end_ w1)) as [|m'];
    cbn [getTime isNaN negb andb] in *.
  1-3: (split; [now destruct (parseInt (end_ w1))|]);
       destruct (hoursOf (start w1)), (minutesOf (start w1)); cbn [aligned];
       try exact I;
       (split; [|now destruct (parseInt (end_ w1))]);
       rewrite !minuteOf_kept;
       rewrite (Z.add_mod (Day _ * 1440)),
         (Z.add_mod (Day (clock w1 _) * 1440)) by discriminate;
       now rewrite !Z.mod_mul by discriminate.
  destruct H1 as [H1|[D1 S1]]; [discriminate|].
  destruct H2 as [H2|[D2 S2]]; [discriminate|].
  split; [exact I|].
  destruct (hoursOf (start w1)) as [|h], (minutesOf (start w1)) as [|m];
    cbn [aligned]; try exact I.
  split.
  - rewrite !minuteOf_kept.
    rewrite (Z.add_mod (Day _ * 1440)), (Z.add_mod (Day (clock w1 _) * 1440))
      by discriminate.
    now rewrite !Z.mod_mul by discriminate.
  - intros k n. cbn [willContinue Date_le le getTime].
    replace (keptOf (clock w1 (reads w1)) + (60 * h + m) * msPerMinute
             + k * msPerMinute)
      with (keptOf (clock w1 (reads w1)) + (60 * h + m + k) * msPerMinute)
      by ring.
    replace (keptOf (clock w2 (reads w2)) + (60 * h + m) * msPerMinute
             + k * msPerMinute)
      with (keptOf (clock w2 (reads w2)) + (60 * h + m + k) * msPerMinute)
      by ring.
    now rewrite !kept_le.
Qed.

(** Such calls leave the same text in local time, and run out of the
    same fuel. *)
Lemma calls_same_loop (fuel : nat) (w1 w2 : World) :
  start w1 = start w2 -> end_ w1 = end_ w2 -> settings w1 = settings w2 ->
  inOrder w1 -> inOrder w2 ->
  match while fuel (settings w1) (endOf w1) (initial (startOf w1)),
        while fuel (settings w2) (endOf w2) (initial (startOf w2)) with
  | Some x, Some y => planText (settings w1) x = planText (settings w2) y
  | None, None => True
  | _, _ => False
  end.
Proof.
  intros Hstart Hend Hset H1 H2. rewrite <- Hset.
  destruct (calls_aligned w1 w2 Hstart Hend H1 H2) as [Hk Ha].
  assert (Hst : aligned_state (endOf w1) (endOf w2)
                  (initial (startOf w1)) (initial (startOf w2)))
    by (unfold aligned_state, initial; cbn; auto).
  pose proof (while_aligned (settings w1) _ _ Hk fuel _ _ Hst) as H.
  destruct (while fuel _ (endOf w1) _), (while fuel _ (endOf w2) _);
    try contradiction; [|exact I].
  eapply planText_aligned; eassumption.
Qed.

(** ** What a returned call leaves *)



Lemma host_readings (env : Host.Env) (fuel : nat) (w w' : World) :
  Host.generatePomodoroPlan env fuel w = Return tt w' ->
  reads w' = (readingsOf w + reads w)%nat.
Proof.
  rewrite host_generatePomodoroPlan. unfold afterLoop.
  destruct (hostLoop env fuel w) as [st|md|]; [|discriminate..].
  change (resultEl (atLoop env w)) with (resultEl w).
  destruct (_ =? _); [|destruct (if includeStats _ then _ else _)];
    destruct (resultEl w); try discriminate; now intros [= <-].
Qed.


(** * The claims *)

(** ** C1: example 1 of the specification *)

(** C1, as stated, fails in its last item: for start 09:00, five
    pomodoros and the default settings the statistics say "Total rest
    time: 30 minutes", not 15; the three short breaks are taken and
    counted although their lines are not written. *)
Lemma example1_rest_time_is_not_15 :
  exists w',
    generatePomodoroPlan 5 example1 = Return tt w'
    /\ In "  Total rest time: 30 minutes" (lines (resultMarkdown w'))
    /\ ~ In "  Total rest time: 15 minutes" (lines (resultMarkdown w'))
    /\ contains "Total rest time: 15 minutes" (resultMarkdown w') = false.
Proof.
  eexists. split; [vm_compute; reflexivity|].
  split; [vm_compute; tauto|].
  split; [|vm_compute; reflexivity].
  vm_compute. intros H.
  repeat (destruct H as [H|H]; [discriminate H|]). exact H.
Qed.

(** C1, amended.  For start "09:00", end "5" and the default settings
    (pomodoro 25, short break 5, long break 15, group 4, short break lines
    off, long break lines on, statistics on), under every clock and with
    fuel for five iterations, the text is: five Pomodoro lines, one Long
    Break line right after the fourth of them, no Short Break line, and
    the statistics "Total pomodoros: 5", "Total work time: 2 hours, 5
    minutes", "Total rest time: 30 minutes". *)
Theorem example1_plan (fuel : nat) (w : World) :
  start w = "09:00" -> end_ w = "5" -> settings w = DEFAULT_SETTINGS ->
  (5 <= fuel)%nat ->
  textOf (generatePomodoroPlan fuel w) = Some example1_text
  /\ lines example1_text = (example1_schedule ++ example1_stats)%list
  /\ filter isPomodoroLine (lines example1_text)
     = [ "- [ ] 09:00 - 09:25 Pomodoro #1";
         "- [ ] 09:30 - 09:55 Pomodoro #2";
         "- [ ] 10:00 - 10:25 Pomodoro #3";
         "- [ ] 10:30 - 10:55 Pomodoro #4";
         "- [ ] 11:10 - 11:35 Pomodoro #5" ]
  /\ filter isBreakLine (lines example1_text)
     = [ "- [ ] 10:55 - 11:10 Long Break" ]
  /\ nth_error (lines example1_text) 3
     = Some "- [ ] 10:30 - 10:55 Pomodoro #4"
  /\ nth_error (lines example1_text) 4
     = Some "- [ ] 10:55 - 11:10 Long Break".
Proof.
  intros Hstart Hend Hset Hfuel.
  split; [|repeat split; vm_compute; reflexivity].
  assert (He : shifted_end
                 (keptOf (clock example1 (reads example1))
                  - keptOf (clock w (reads w)))
                 (endOf w) (endOf example1)).
  { unfold endOf. rewrite Hend. cbn [end_ example1 opened].
    now rewrite !endAt_five. }
  rewrite (textOf_shifted fuel w example1 Hstart Hset He).
  rewrite textOf_generatePomodoroPlan.
  assert (E : exists st,
             while 5 (settings example1) (endOf example1)
               (initial (startOf example1)) = Some st
             /\ planText (settings example1) st = example1_text)
    by (eexists; split; vm_compute; reflexivity).
  destruct E as (st & E & Htext).
  now rewrite (while_fuel_le _ _ _ _ _ _ Hfuel E), <- Htext.
Qed.

(** The premises hold in the open modal of example 1. *)
Lemma example1_plan_witness :
  (start example1 = "09:00" /\ end_ example1 = "5"
   /\ settings example1 = DEFAULT_SETTINGS /\ (5 <= 5)%nat)
  /\ textOf (generatePomodoroPlan 5 example1) = Some example1_text.
Proof.
  split; [repeat split; apply le_n|].
  apply (example1_plan 5 example1); reflexivity.
Defined.

(** ** C2: no break is left dangling *)


(** Lengths below zero leave a break dangling as well, at the end of the
    range of a Date: with a pomodoro of minus a hundred million days and
    a long break of twice that, the look-ahead comes back to the start
    and is allowed, and the break ends beyond the range, in an Invalid
    Date that stops the loop. *)
Example negative_length_leaves_a_break :
  exists w',
    Host.generatePomodoroPlan inIstanbul 2
      (opened (mkSettings (-144000000000) 5 288000000000 1 false false true)
         "09:00" "09:30" (frozen ten_o_clock)) = Return tt w'
    /\ lines (resultMarkdown w')
       = [ "- [ ] 09:00 - 09:00 Pomodoro #1";
           "- [ ] 09:00 - NaN:NaN Long Break" ].
Proof. eexists. split; vm_compute; reflexivity. Qed.



(** ** C3: a count of zero gives the empty plan *)

(** C3.  When the end condition is the count 0, whatever the start time
    and the settings are, the loop does not run a single iteration,
    pomodoroCount - 1 is 0, and the call leaves the empty text: no
    schedule line and no statistics block, also when includeStats is set.
    In an open modal, which is every world the form can be in
    ([reachable_open]), the call returns, the result element shows the
    empty text, and nothing is saved: the only event there can be is the
    notice of [parseTimeOrCount]. *)
Theorem count_zero_gives_empty_plan (fuel : nat) (w : World) :
  endOf w = Count 0 ->
  while fuel (settings w) (endOf w) (initial (startOf w))
  = Some (initial (startOf w))
  /\ pomodoroCount (initial (startOf w)) - 1 = 0
  /\ textOf (generatePomodoroPlan fuel w) = Some ""
  /\ lines "" = []
  /\ forall r,
       resultEl w = Some r ->
       exists w',
         generatePomodoroPlan fuel w = Return tt w'
         /\ resultMarkdown w' = ""
         /\ resultEl w' = Some ""
         /\ log w'
            = (log w ++ if notifies (end_ w)
                        then [NoticeShown "Invalid time or count format"]
                        else [])%list.
Proof.
  intros He.
  assert (Hw : while fuel (settings w) (endOf w) (initial (startOf w))
               = Some (initial (startOf w))).
  { rewrite He. now destruct fuel. }
  split; [assumption|]. split; [reflexivity|].
  split; [now rewrite textOf_generatePomodoroPlan, Hw|].
  split; [reflexivity|].
  intros r Hel.
  destruct (count_zero_gives_empty_plan_aux fuel w r He Hel) as (_ & Hg).
  exists (generated w (initial (startOf w))). split; [assumption|].
  repeat (split; [reflexivity|]).
  unfold generated, eventsOf. cbn [log initial pomodoroCount].
  change (1 - 1 =? 0) with true. cbv iota. now rewrite app_nil_r.
Qed.

(** The end string "0" is the count 0, with the statistics switched on. *)
Lemma count_zero_gives_empty_plan_witness :
  (endOf count_zero = Count 0
   /\ includeStats (settings count_zero) = true)
  /\ textOf (generatePomodoroPlan 0 count_zero) = Some "".
Proof.
  split; [split; vm_compute; reflexivity|].
  apply (count_zero_gives_empty_plan 0 count_zero).
  vm_compute; reflexivity.
Defined.

(** ** C4: an end string that is neither a time nor a count *)

(** C4, as stated, fails at the empty end string: it is neither a time
    nor an integer, and [parseTimeOrCount] returns the count 0 for it
    before it comes to its notice, so the user is not notified. *)
Lemma empty_end_is_not_notified :
  parsesAsTime "" = false
  /\ isNaN (parseInt "") = true
  /\ parseTimeOrCount "" empty_end = Return (Count 0) empty_end
  /\ exists w',
       generatePomodoroPlan 0 empty_end = Return tt w'
       /\ resultMarkdown w' = ""
       /\ log w' = [].
Proof.
  repeat split. eexists. repeat split.
Qed.

(** C4, amended.  For every end string that is not empty and parses
    neither as a time nor as an integer, [parseTimeOrCount] shows the
    notice "Invalid time or count format" and returns the count 0; the
    call of generatePomodoroPlan goes on and leaves the empty plan; and in
    an open modal, which is every world the form can be in
    ([reachable_open]), the call returns (no exception leaves it) with the
    notice as its only event. *)
Theorem invalid_end_is_notified (fuel : nat) (w : World) :
  end_ w <> "" ->
  parsesAsTime (end_ w) = false ->
  isNaN (parseInt (end_ w)) = true ->
  (forall w0,
      parseTimeOrCount (end_ w) w0
      = Return (Count 0)
          (emit (NoticeShown "Invalid time or count format") (tick w0)))
  /\ textOf (generatePomodoroPlan fuel w) = Some ""
  /\ forall r,
       resultEl w = Some r ->
       exists w',
         generatePomodoroPlan fuel w = Return tt w'
         /\ log w'
            = (log w ++ [NoticeShown "Invalid time or count format"])%list
         /\ resultMarkdown w' = ""
         /\ resultEl w' = Some "".
Proof.
  intros Hne Ht Hi.
  assert (Hn : notifies (end_ w) = true).
  { unfold notifies. rewrite Ht, Hi.
    destruct (String.eqb_spec (end_ w) ""); [contradiction | reflexivity]. }
  assert (He : forall now, endAt now (end_ w) = Count 0).
  { intros now. unfold endAt. rewrite parsesAsTime_valid, Ht.
    destruct (String.eqb (end_ w) ""); [reflexivity|].
    destruct (parseInt (end_ w)); [reflexivity | discriminate]. }
  split; [|split].
  - intros w0. rewrite parseTimeOrCount_value, He, Hn.
    destruct (String.eqb_spec (end_ w) ""); [contradiction | reflexivity].
  - rewrite textOf_generatePomodoroPlan. unfold endOf. rewrite He.
    now destruct fuel.
  - intros r Hel.
    destruct (count_zero_gives_empty_plan_aux fuel w r (He _) Hel)
      as (Hw & Hg).
    exists (generated w (initial (startOf w))). split; [assumption|].
    unfold generated, eventsOf. cbn [log resultMarkdown resultEl].
    rewrite Hn. repeat split.
Qed.

(** The end string "abc" of example 3 is such a string. *)
Lemma invalid_end_is_notified_witness :
  (end_ example3 <> "" /\ parsesAsTime (end_ example3) = false
   /\ isNaN (parseInt (end_ example3)) = true)
  /\ (forall w0,
         parseTimeOrCount (end_ example3) w0
         = Return (Count 0)
             (emit (NoticeShown "Invalid time or count format") (tick w0)))
  /\ textOf (generatePomodoroPlan 0 example3) = Some ""
  /\ forall r,
       resultEl example3 = Some r ->
       exists w',
         generatePomodoroPlan 0 example3 = Return tt w'
         /\ log w'
            = (log example3
               ++ [NoticeShown "Invalid time or count format"])%list
         /\ resultMarkdown w' = ""
         /\ resultEl w' = Some "".
Proof.
  split; [repeat split; discriminate|].
  apply (invalid_end_is_notified 0 example3);
    try reflexivity; discriminate.
Defined.

(** ** C5: the loop terminates *)

(** C5.  With a pomodoro of positive length and breaks that are not
    negative the loop ends from every start time and for every end
    condition: some amount of fuel is enough, and more fuel gives the same
    final state.  While the loop goes on, what remains before the end
    condition is positive, and each iteration counts one more pomodoro,
    moves a valid clock forward and lowers what remains. *)
Theorem loop_terminates (s : PomodoroSettings) (e : TimeOrCount)
  (startTime : Date) :
  0 < pomodoro s -> 0 <= shortBreak s -> 0 <= longBreak s ->
  (exists n st, forall fuel,
      (n <= fuel)%nat -> while fuel s e (initial startTime) = Some st)
  /\ forall st,
       willContinue (addMinutes (currentTime st) (pomodoro s))
         (pomodoroCount st) e = true ->
       let st' := fst (iteration s e st) in
       0 < remaining e (vars_of st)
       /\ remaining e (vars_of st') < remaining e (vars_of st)
       /\ pomodoroCount st' = pomodoroCount st + 1
       /\ forall t, currentTime st = DateAt t ->
                    exists t', currentTime st' = DateAt t' /\ t < t'.
Proof.
  intros Hp Hs Hl. split.
  - set (v := mkVars startTime 0 0 1).
    destruct (planLines_terminates s e Hp Hs Hl
                (Z.to_nat (remaining e v)) v) as [[ls v'] E]; [lia|].
    exists (Z.to_nat (remaining e v)), (state_of v' (render (filter (shown s) ls))).
    intros fuel Hle. rewrite while_planLines.
    change (vars_of (initial startTime)) with v.
    now rewrite (planLines_fuel_le _ _ _ _ _ _ Hle E).
  - intros st Ht st'.
    pose proof (remaining_positive s e (vars_of st) Hp Ht) as Hpos.
    split; [lia|].
    assert (Hdec : forall b g r, 0 <= b ->
              remaining e
                (mkVars (addMinutes (addMinutes (currentTime st) (pomodoro s)) b)
                   g r (pomodoroCount st + 1))
              < remaining e (vars_of st)).
    { intros b g r Hb.
      pose proof (remaining_decreases s e (vars_of st) b g r Hp Hb Ht).
      cbn [v_time v_count vars_of] in *. lia. }
    assert (Hadv : forall b t, 0 <= b -> currentTime st = DateAt t ->
              exists t', addMinutes (addMinutes (currentTime st) (pomodoro s)) b
                         = DateAt t' /\ t < t').
    { intros b t Hb ->. rewrite !addMinutes_at. eexists. split; [reflexivity|].
      unfold msPerMinute. nia. }
    assert (H0 : addMinutes (currentTime st) (pomodoro s)
                 = addMinutes (addMinutes (currentTime st) (pomodoro s)) 0).
    { rewrite addMinutes_add. f_equal. lia. }
    subst st'. unfold iteration.
    destruct (_ =? _); destruct (negb _); cbn [fst];
      unfold vars_of at 1;
      cbn [currentTime groupCount totalRestTime pomodoroCount].
    + rewrite H0. split; [apply Hdec; lia|]. split; [reflexivity|].
      intros t Et. apply Hadv; [lia | assumption].
    + split; [apply Hdec; lia|]. split; [reflexivity|].
      intros t Et. apply Hadv; assumption.
    + rewrite H0. split; [apply Hdec; lia|]. split; [reflexivity|].
      intros t Et. apply Hadv; [lia | assumption].
    + split; [apply Hdec; lia|]. split; [reflexivity|].
      intros t Et. apply Hadv; assumption.
Qed.

(** The default settings are such settings. *)
Lemma loop_terminates_witness :
  (0 < pomodoro DEFAULT_SETTINGS /\ 0 <= shortBreak DEFAULT_SETTINGS
   /\ 0 <= longBreak DEFAULT_SETTINGS)
  /\ (exists n st, forall fuel,
        (n <= fuel)%nat ->
        while fuel DEFAULT_SETTINGS (endOf example2)
          (initial (startOf example2)) = Some st).
Proof.
  split; [cbn; lia|].
  apply (loop_terminates DEFAULT_SETTINGS (endOf example2)
           (startOf example2)); cbn; lia.
Defined.

(** ** C6: example 2 of the specification, the inclusive time boundary *)

(** C6, as stated, fails: the end 09:30 is 09:30 of the day of the clock
    reading [parseTime] makes for it.  When midnight passes between the
    two clock readings of the call, the start is 09:00 of one day and the
    end 09:30 of the next, and the plan has 45 pomodoros. *)
Lemma midnight_between_the_readings :
  (start over_midnight = "09:00" /\ end_ over_midnight = "09:30"
   /\ pomodoro (settings over_midnight) = 25)
  /\ exists text,
       textOf (generatePomodoroPlan 45 over_midnight) = Some text
       /\ List.length (filter isPomodoroLine (lines text)) = 45%nat
       /\ nth 1 (lines text) "" = "- [ ] 09:30 - 09:55 Pomodoro #2".
Proof.
  split; [repeat split|].
  eexists. split; [vm_compute; reflexivity|].
  split; vm_compute; reflexivity.
Qed.


(** Under the default settings and a steady clock the call of example 2
    leaves its one line and the statistics. *)
Example example2_default_text :
  textOf (generatePomodoroPlan 1 example2) = Some example2_text.
Proof. vm_compute. reflexivity. Qed.

(** C6, amended.  With a time as the end the loop goes on as long as the
    end of the next pomodoro is not after it, the boundary included.  For
    start "09:00", end "09:30" and a pomodoro of 25 minutes, with breaks
    that are not negative and a clock that stays within one day during
    the call:
    the first test holds (09:25 is not after 09:30), the line "09:00 -
    09:25 Pomodoro #1" is written, the look-ahead before the break fails,
    and the loop ends with that one line and pomodoroCount - 1 = 1. *)
Theorem example2_plan (fuel : nat) (w : World) :
  start w = "09:00" -> end_ w = "09:30" ->
  pomodoro (settings w) = 25 ->
  0 <= shortBreak (settings w) -> 0 <= longBreak (settings w) ->
  Day (clock w (S (reads w))) = Day (clock w (reads w)) ->
  (1 <= fuel)%nat ->
  (forall t te n,
      willContinue (DateAt t) n (Time (DateAt te)) = (t <=? te))
  /\ (exists te, endOf w = Time (DateAt te))
  /\ willContinue (addMinutes (startOf w) 25) 1 (endOf w) = true
  /\ exists st,
       while fuel (settings w) (endOf w) (initial (startOf w)) = Some st
       /\ lines (markdown st) = [ "- [ ] 09:00 - 09:25 Pomodoro #1" ]
       /\ pomodoroCount st - 1 = 1
       /\ willContinue
            (addMinutes (currentTime st)
               (if 1 =? group (settings w)
                then longBreak (settings w) + 25
                else 25 + shortBreak (settings w)))
            (pomodoroCount st) (endOf w) = false.
Proof.
  intros Hstart Hend Hp Hs Hl Hday Hfuel.
  split; [reflexivity|].
  pose proof (keptOf_bounds (clock w (reads w))) as B1.
  pose proof (keptOf_bounds (clock w (S (reads w)))) as B2.
  rewrite Hday in B2.
  assert (Es : startOf w
               = DateAt (keptOf (clock w (reads w)) + 540 * msPerMinute)).
  { unfold startOf. now rewrite Hstart, parseTime_on_at. }
  assert (Ee : endOf w
               = Time (DateAt (keptOf (clock w (S (reads w)))
                               + 570 * msPerMinute))).
  { unfold endOf, endAt. now rewrite Hend, parseTime_on_at. }
  remember (keptOf (clock w (reads w))) as a eqn:Ea.
  remember (keptOf (clock w (S (reads w)))) as b eqn:Eb.
  rewrite Es, Ee. split; [eauto|].
  assert (Ht : willContinue (addMinutes (DateAt (a + 540 * msPerMinute)) 25) 1
                 (Time (DateAt (b + 570 * msPerMinute))) = true).
  { rewrite addMinutes_at. cbn [willContinue Date_le le getTime].
    apply Z.leb_le.
    unfold msPerMinute, msPerDay in *. lia. }
  split; [assumption|].
  destruct fuel as [|fuel]; [lia|].
  rewrite while_S. cbn [initial currentTime pomodoroCount].
  rewrite Hp, Ht. unfold iteration.
  cbn [initial currentTime groupCount totalRestTime pomodoroCount markdown].
  rewrite Hp.
  assert (Hlong : willContinue
                    (addMinutes (addMinutes (DateAt (a + 540 * msPerMinute)) 25)
                       (longBreak (settings w) + 25)) (1 + 1)
                    (Time (DateAt (b + 570 * msPerMinute))) = false).
  { rewrite !addMinutes_at. cbn [willContinue Date_le le getTime].
    apply Z.leb_gt.
    unfold msPerMinute, msPerDay in *. lia. }
  assert (Hshort : willContinue
                     (addMinutes (addMinutes (DateAt (a + 540 * msPerMinute)) 25)
                        (25 + shortBreak (settings w))) (1 + 1)
                     (Time (DateAt (b + 570 * msPerMinute))) = false).
  { rewrite !addMinutes_at. cbn [willContinue Date_le le getTime].
    apply Z.leb_gt.
    unfold msPerMinute, msPerDay in *. lia. }
  change (0 + 1) with 1.
  assert (Hline : lines ("" ++ pomodoroLine (settings w)
                                 (DateAt (a + 540 * msPerMinute)) 1)
                  = [ "- [ ] 09:00 - 09:25 Pomodoro #1" ]).
  { unfold pomodoroLine. rewrite Hp, addMinutes_at.
    replace (a + 540 * msPerMinute + 25 * msPerMinute)
      with (a + 565 * msPerMinute) by ring.
    subst a. now rewrite !formatTime_kept. }
  destruct (1 =? group (settings w)).
  - rewrite Hlong. cbn [negb]. eexists. split; [reflexivity|].
    cbn [currentTime pomodoroCount markdown]. auto.
  - rewrite Hshort. cbn [negb]. eexists. split; [reflexivity|].
    cbn [currentTime pomodoroCount markdown]. auto.
Qed.

(** Example 2 under the default settings and a steady clock. *)
Lemma example2_plan_witness :
  (start example2 = "09:00" /\ end_ example2 = "09:30"
   /\ pomodoro (settings example2) = 25
   /\ 0 <= shortBreak (settings example2)
   /\ 0 <= longBreak (settings example2)
   /\ Day (clock example2 (S (reads example2)))
      = Day (clock example2 (reads example2))
   /\ (1 <= 1)%nat)
  /\ exists st,
       while 1 (settings example2) (endOf example2)
         (initial (startOf example2)) = Some st
       /\ lines (markdown st) = [ "- [ ] 09:00 - 09:25 Pomodoro #1" ]
       /\ pomodoroCount st - 1 = 1
       /\ willContinue
            (addMinutes (currentTime st)
               (if 1 =? group (settings example2)
                then longBreak (settings example2) + 25
                else 25 + shortBreak (settings example2)))
            (pomodoroCount st) (endOf example2) = false.
Proof.
  split; [repeat split; try reflexivity; discriminate|].
  apply (example2_plan 1 example2); try reflexivity; discriminate.
Defined.

(** ** C7: the count that is reported is the count of Pomodoro lines *)

(** C7.  Whenever a call of generatePomodoroPlan ends, pomodoroCount - 1 is
    the number of lines of the text that contain "Pomodoro #", the work
    time that goes into the statistics is the pomodoro length times that
    number, and when the statistics are written they show this number and
    this time. *)
Theorem pomodoro_lines_counted (fuel : nat) (w : World) (text : string) :
  textOf (generatePomodoroPlan fuel w) = Some text ->
  exists st,
    while fuel (settings w) (endOf w) (initial (startOf w)) = Some st
    /\ let n := Z.of_nat (List.length (filter isPomodoroLine (lines text))) in
       pomodoroCount st - 1 = n
       /\ totalWorkTime (settings w) st = pomodoro (settings w) * n
       /\ (n <> 0 -> includeStats (settings w) = true ->
           In ("  Total pomodoros: " ++ Z_toString n) (lines text)
           /\ In ("  Total work time: "
                    ++ hoursAndMinutes (pomodoro (settings w) * n / 60)
                         (Z.rem (pomodoro (settings w) * n) 60))
                (lines text)).
Proof.
  intros H. apply textOf_while in H as (st & Hw & ->).
  exists st. split; [assumption|].
  destruct (lines_planText _ _ _ _ _ Hw) as (ls & Hp & Hm & Hl).
  apply planLines_count in Hp. cbn [v_count vars_of] in Hp.
  assert (Hn : pomodoroCount st - 1
               = Z.of_nat (List.length
                   (filter isPomodoroLine
                      (lines (planText (settings w) st))))).
  { rewrite Hl, filter_app, filter_isPomodoroLine_render,
      filter_shown_isWork, length_app, length_map.
    replace (filter isPomodoroLine _) with (@nil string); [cbn; lia|].
    destruct (_ =? _); [reflexivity|].
    destruct (includeStats _); [|reflexivity].
    now rewrite filter_isPomodoroLine_stats. }
  cbv zeta. rewrite <- Hn. split; [reflexivity|]. split; [reflexivity|].
  intros Hne Hstats. rewrite Hl.
  apply Z.eqb_neq in Hne. rewrite Hne, Hstats.
  split; apply in_or_app; right; unfold statsLines, totalWorkTime; cbn [In];
    auto.
Qed.

(** Example 1 is such a call. *)
Lemma pomodoro_lines_counted_witness :
  textOf (generatePomodoroPlan 5 example1) = Some example1_text
  /\ exists st,
       while 5 (settings example1) (endOf example1)
         (initial (startOf example1)) = Some st
       /\ let n := Z.of_nat
                     (List.length
                        (filter isPomodoroLine (lines example1_text))) in
          pomodoroCount st - 1 = n
          /\ totalWorkTime (settings example1) st
             = pomodoro (settings example1) * n
          /\ (n <> 0 -> includeStats (settings example1) = true ->
              In ("  Total pomodoros: " ++ Z_toString n)
                (lines example1_text)
              /\ In ("  Total work time: "
                       ++ hoursAndMinutes
                            (pomodoro (settings example1) * n / 60)
                            (Z.rem (pomodoro (settings example1) * n) 60))
                   (lines example1_text)).
Proof.
  split; [vm_compute; reflexivity|].
  apply (pomodoro_lines_counted 5 example1 example1_text).
  vm_compute; reflexivity.
Defined.

(** ** C8: what the text depends on *)

(** C8, as stated, fails: [parseTime] reads the wall clock each time it is
    called and takes the day from the reading, so the plan depends on
    the day of the call.  In New York, three pomodoros from 01:00 have
    the third at 03:00 in the night of 8 March 2026, in which 02:00
    becomes 03:00, and at 02:00 a week later.  In Istanbul, the plan from
    09:00 to 09:30 has one pomodoro late in the evening, and 45 when
    midnight passes between the two clock readings of the call: the end
    is then 09:30 of the next day. *)
Lemma day_of_the_call_changes_the_plan :
  (start spring_call = start later_call
   /\ end_ spring_call = end_ later_call
   /\ settings spring_call = settings later_call
   /\ (exists w',
          Host.generatePomodoroPlan inNewYork 3 spring_call = Return tt w'
          /\ filter isPomodoroLine (lines (resultMarkdown w'))
             = [ "- [ ] 01:00 - 01:25 Pomodoro #1";
                 "- [ ] 01:30 - 01:55 Pomodoro #2";
                 "- [ ] 03:00 - 03:25 Pomodoro #3" ])
   /\ (exists w',
          Host.generatePomodoroPlan inNewYork 3 later_call = Return tt w'
          /\ filter isPomodoroLine (lines (resultMarkdown w'))
             = [ "- [ ] 01:00 - 01:25 Pomodoro #1";
                 "- [ ] 01:30 - 01:55 Pomodoro #2";
                 "- [ ] 02:00 - 02:25 Pomodoro #3" ])
   /\ textOf (Host.generatePomodoroPlan inNewYork 3 spring_call)
      <> textOf (Host.generatePomodoroPlan inNewYork 3 later_call))
  /\ (start late_call = start midnight_call
      /\ end_ late_call = end_ midnight_call
      /\ settings late_call = settings midnight_call
      /\ (exists w',
             Host.generatePomodoroPlan inIstanbul 45 late_call = Return tt w'
             /\ filter isPomodoroLine (lines (resultMarkdown w'))
                = [ "- [ ] 09:00 - 09:25 Pomodoro #1" ])
      /\ (exists w',
             Host.generatePomodoroPlan inIstanbul 45 midnight_call
             = Return tt w'
             /\ List.length
                  (filter isPomodoroLine (lines (resultMarkdown w')))
                = 45%nat)).
Proof.
  split; repeat split;
    try (eexists; split; vm_compute; reflexivity).
  vm_compute. discriminate.
Qed.

(** The seconds of a clock reading stay in the Date [parseTime] returns
    as well, which the amended claim leaves aside: with start "09:00" and
    end "09:25", when the minute changes between the two readings the
    start carries 59.999 seconds and the end none, so 09:25 with those
    seconds is after the end and the plan is empty, while under a clock
    that stands still it has one pomodoro. *)
Example kept_seconds_empty_the_plan :
  (exists w',
      generatePomodoroPlan 1 steady = Return tt w'
      /\ filter isPomodoroLine (lines (resultMarkdown w'))
         = [ "- [ ] 09:00 - 09:25 Pomodoro #1" ])
  /\ (exists w',
         generatePomodoroPlan 1 across_minute = Return tt w'
         /\ resultMarkdown w' = "").
Proof. split; eexists; split; vm_compute; reflexivity. Qed.

(** C8, amended.  A call reads the wall clock once for the start string
    and once more for an end string that is not empty, and each
    [parseTime] takes the day from its reading.  Two calls with the same
    start string, end string and settings, with no negative length, leave
    the same text when no clock change disturbs either of them and each
    has its clock readings in order: on the same local day, the second
    not earlier within its minute than the first; when the end field
    holds no time the second reading does not matter.  If the one call
    returns, the other ends with the same text. *)
Theorem same_text_between_clock_changes (env : Host.Env)
  (o1 a1 b1 o2 a2 b2 : Z) (fuel : nat) (w1 w2 w1' : World) :
  start w1 = start w2 -> end_ w1 = end_ w2 -> settings w1 = settings w2 ->
  0 <= pomodoro (settings w1) ->
  0 <= shortBreak (settings w1) -> 0 <= longBreak (settings w1) ->
  quiet env o1 a1 b1 w1 -> quiet env o2 a2 b2 w2 ->
  inOrder (local o1 w1) -> inOrder (local o2 w2) ->
  Host.generatePomodoroPlan env fuel w1 = Return tt w1' ->
  textOf (Host.generatePomodoroPlan env fuel w2) = Some (resultMarkdown w1')
  /\ reads w1' = (readingsOf w1 + reads w1)%nat.
Proof.
  intros Hstart Hend Hset Hp Hs Hl Hq1 Hq2 Ho1 Ho2 Hr.
  split; [|exact (host_readings env fuel w1 w1' Hr)].
  destruct (host_returns env o1 a1 b1 w1 Hq1 Hp Hs Hl fuel w1' Hr)
    as (st1 & _ & Hw1 & Ht & Hlen).
  pose proof (calls_same_loop fuel (local o1 w1) (local o2 w2)
                Hstart Hend Hset Ho1 Ho2) as H.
  change (settings (local o1 w1)) with (settings w1) in H.
  change (settings (local o2 w2)) with (settings w2) in H.
  rewrite Hw1 in H.
  destruct (while fuel (settings w2) _ _) as [st2|] eqn:Hw2;
    [|contradiction].
  rewrite planText_shiftState, <- Ht in H. rewrite H in *.
  rewrite Hset in Hp, Hs, Hl.
  exact (host_text env o2 a2 b2 w2 Hq2 Hp Hs Hl fuel st2 Hw2 Hlen).
Qed.

(** A call in New York on 1 July 2026 with five milliseconds between its
    two clock readings, and a call on the next day. *)
Lemma same_text_between_clock_changes_witness :
  (start july_call = start next_call /\ end_ july_call = end_ next_call
   /\ settings july_call = settings next_call
   /\ quiet inNewYork (-14400000) july_midnight (july_midnight + msPerDay)
        july_call
   /\ quiet inNewYork (-14400000) (july_midnight + msPerDay)
        (july_midnight + 2 * msPerDay) next_call
   /\ inOrder (local (-14400000) july_call)
   /\ inOrder (local (-14400000) next_call))
  /\ exists w',
       Host.generatePomodoroPlan inNewYork 1 july_call = Return tt w'
       /\ textOf (Host.generatePomodoroPlan inNewYork 1 next_call)
          = Some (resultMarkdown w').
Proof.
  assert (Hq1 : quiet inNewYork (-14400000) july_midnight
                  (july_midnight + msPerDay) july_call).
  { split; [apply calm_newYork_summer; vm_compute; easy|].
    repeat split; vm_compute; discriminate. }
  assert (Hq2 : quiet inNewYork (-14400000) (july_midnight + msPerDay)
                  (july_midnight + 2 * msPerDay) next_call).
  { split; [apply calm_newYork_summer; vm_compute; easy|].
    repeat split; vm_compute; discriminate. }
  assert (Ho1 : inOrder (local (-14400000) july_call))
    by (right; split; vm_compute; (reflexivity || discriminate)).
  assert (Ho2 : inOrder (local (-14400000) next_call))
    by (right; split; vm_compute; (reflexivity || discriminate)).
  split; [do 3 (split; [reflexivity|]); auto|].
  destruct (Host.generatePomodoroPlan inNewYork 1 july_call)
    as [[] w'|error w'|] eqn:Hr; [|vm_compute in Hr; discriminate..].
  exists w'. split; [reflexivity|].
  apply (same_text_between_clock_changes inNewYork (-14400000)
           july_midnight (july_midnight + msPerDay) (-14400000)
           (july_midnight + msPerDay) (july_midnight + 2 * msPerDay)
           1 july_call next_call w');
    try reflexivity; try assumption; cbn; lia.
Defined.

(** ** C9: an edit that is not a number is ignored *)

(** C9.  For each of the four numeric fields (pomodoro, short break, long
    break, group size): when the edited text does not parse as an integer,
    its onChange callback leaves the modal and its environment exactly as
    they were.  The settings keep their values, which stay integers, and
    generatePomodoroPlan was not called, since a call never leaves the
    world unchanged. *)
Theorem non_numeric_edit_ignored (fuel : nat) (value : string) (w : World) :
  isNaN (parseInt value) = true ->
  onChange_pomodoro fuel value w = Return tt w
  /\ onChange_shortBreak fuel value w = Return tt w
  /\ onChange_longBreak fuel value w = Return tt w
  /\ onChange_group fuel value w = Return tt w
  /\ generatePomodoroPlan fuel w <> Return tt w.
Proof.
  intros H.
  unfold onChange_pomodoro, onChange_shortBreak, onChange_longBreak,
    onChange_group, onChange_number.
  destruct (parseInt value); [|discriminate].
  repeat (split; [reflexivity|]).
  intros Hg. apply generatePomodoroPlan_reads_clock in Hg. lia.
Qed.

(** The edit "xyz" of example 4 of the specification. *)
Lemma non_numeric_edit_ignored_witness :
  isNaN (parseInt "xyz") = true
  /\ onChange_pomodoro 5 "xyz" example1 = Return tt example1
  /\ onChange_shortBreak 5 "xyz" example1 = Return tt example1
  /\ onChange_longBreak 5 "xyz" example1 = Return tt example1
  /\ onChange_group 5 "xyz" example1 = Return tt example1
  /\ generatePomodoroPlan 5 example1 <> Return tt example1.
Proof.
  split; [reflexivity|].
  apply (non_numeric_edit_ignored 5 "xyz" example1). reflexivity.
Defined.

(** ** C10: the toggles only hide lines *)

(** C10.  An iteration that takes its break moves the clock by the length
    of the break and adds it to totalRestTime, whether the line of the
    break is written or not.  So two runs of the loop that differ in the
    includeShortBreak and includeLongBreak toggles only end together, with
    the same clock, the same counters and the same accumulated rest time;
    their Pomodoro lines and their statistics blocks are the same; and each
    text is made of the lines of one common schedule, every break listed,
    that its own toggles keep. *)
Theorem toggles_only_hide_lines (fuel : nat) (s : PomodoroSettings)
  (short long : bool) (e : TimeOrCount) (startTime : Date) :
  let s' := set_includeShortBreak short (set_includeLongBreak long s) in
  (forall st,
      snd (iteration s e st) = Next ->
      let rest := if groupCount st + 1 =? group s
                  then longBreak s else shortBreak s in
      currentTime (fst (iteration s e st))
      = addMinutes (addMinutes (currentTime st) (pomodoro s)) rest
      /\ totalRestTime (fst (iteration s e st)) = totalRestTime st + rest)
  /\ match while fuel s e (initial startTime),
           while fuel s' e (initial startTime) with
     | Some st, Some st' =>
         currentTime st' = currentTime st
         /\ groupCount st' = groupCount st
         /\ totalRestTime st' = totalRestTime st
         /\ pomodoroCount st' = pomodoroCount st
         /\ filter isPomodoroLine (lines (markdown st'))
            = filter isPomodoroLine (lines (markdown st))
         /\ statsInfo s' st' = statsInfo s st
         /\ exists full,
              lines (markdown st) = filter (keeps s) full
              /\ lines (markdown st') = filter (keeps s') full
     | None, None => True
     | _, _ => False
     end.
Proof.
  intros s'. split.
  { intros st. unfold iteration.
    destruct (_ =? _); destruct (negb _); cbn [fst snd currentTime
      totalRestTime]; (discriminate || auto). }
  rewrite !while_planLines.
  rewrite (planLines_lengths fuel s' s) by reflexivity.
  cbn [vars_of initial currentTime groupCount totalRestTime pomodoroCount
       markdown].
  destruct (planLines fuel s e _) as [[ls v']|]; [|exact I].
  cbn [state_of currentTime groupCount totalRestTime pomodoroCount markdown
       append].
  repeat (split; [reflexivity|]).
  rewrite !lines_render, !filter_isPomodoroLine_render, !filter_shown_isWork.
  split; [reflexivity|]. split; [reflexivity|].
  exists (map renderLine ls). now rewrite !filter_keeps_render.
Qed.


(** * More of the code *)

(** ** Times of day: parseTime, formatTime, addMinutes *)

Lemma reads_back_below_60 (z : Z) : 0 <= z < 60 -> reads_back z = true.
Proof.
  intros Hz.
  assert (Hall : forallb reads_back (map Z.of_nat (seq 0 60)) = true)
    by (vm_compute; reflexivity).
  rewrite forallb_forall in Hall. apply Hall.
  apply in_map_iff. exists (Z.to_nat z). split; [lia|].
  apply in_seq. lia.
Qed.

Lemma reads_back_spec (z : Z) :
  reads_back z = true ->
  String.length (twoDigits z) = 2%nat
  /\ avoids ":" (twoDigits z) = true
  /\ Number (twoDigits z) = Num z.
Proof.
  unfold reads_back. rewrite !andb_true_iff. intros [[H1 H2] H3].
  apply Nat.eqb_eq in H1. repeat split; try assumption.
  destruct (Number (twoDigits z)); [discriminate|].
  apply Z.eqb_eq in H3. now subst.
Qed.

Lemma split_without (sep : ascii) (s : string) :
  avoids sep s = true -> split sep s = [s].
Proof.
  induction s as [|c s IH]; [reflexivity|].
  unfold avoids; cbn [all_chars split]. rewrite andb_true_iff.
  intros [Hc Hs]. apply negb_true_iff in Hc. rewrite Hc.
  now rewrite (IH Hs).
Qed.

Lemma split_two (sep : ascii) (a b : string) :
  avoids sep a = true -> avoids sep b = true ->
  split sep (a ++ String sep b) = [a; b].
Proof.
  intros Ha Hb. induction a as [|c a IH].
  - cbn [append split]. rewrite Ascii.eqb_refl. now rewrite split_without.
  - unfold avoids in Ha; cbn [all_chars] in Ha.
    apply andb_true_iff in Ha as [Hc Ha]. apply negb_true_iff in Hc.
    cbn [append split]. rewrite Hc. now rewrite (IH Ha).
Qed.

Lemma length_append (a b : string) :
  String.length (a ++ b) = (String.length a + String.length b)%nat.
Proof. induction a as [|c a IH]; cbn; [reflexivity | now rewrite IH]. Qed.

Lemma formatTime_twoDigits (t : Z) :
  formatTime (DateAt t)
  = twoDigits (HourFromTime t) ++ ":" ++ twoDigits (MinFromTime t).
Proof. reflexivity. Qed.

Lemma HourFromTime_range (t : Z) : 0 <= HourFromTime t < 24.
Proof. unfold HourFromTime. apply Z.mod_pos_bound. lia. Qed.

Lemma MinFromTime_range (t : Z) : 0 <= MinFromTime t < 60.
Proof. unfold MinFromTime. apply Z.mod_pos_bound. lia. Qed.

(** X1.  [formatTime] of a valid Date is five characters, "HH:MM": two
    digits of an hour from 0 to 23, a colon, two digits of a minute from 0
    to 59; and it shows nothing of the day, the seconds or the
    milliseconds, as two time values in the same minute of the day look
    the same. *)
Theorem formatTime_shape (t : Z) :
  (exists h m,
      0 <= h < 24 /\ 0 <= m < 60
      /\ formatTime (DateAt t) = twoDigits h ++ ":" ++ twoDigits m
      /\ String.length (twoDigits h) = 2%nat
      /\ String.length (twoDigits m) = 2%nat
      /\ minuteOf t mod 1440 = 60 * h + m)
  /\ String.length (formatTime (DateAt t)) = 5%nat
  /\ forall t',
       minuteOf t' mod 1440 = minuteOf t mod 1440 ->
       formatTime (DateAt t') = formatTime (DateAt t).
Proof.
  pose proof (HourFromTime_range t) as Hh.
  pose proof (MinFromTime_range t) as Hm.
  assert (Hh' : 0 <= HourFromTime t < 60) by lia.
  destruct (reads_back_spec _ (reads_back_below_60 _ Hh')) as (Lh & _ & _).
  destruct (reads_back_spec _ (reads_back_below_60 _ Hm)) as (Lm & _ & _).
  split; [|split].
  - exists (HourFromTime t), (MinFromTime t).
    repeat (split; try assumption; try lia).
    unfold minuteOf, HourFromTime, MinFromTime, msPerHour, msPerMinute.
    Z.to_euclidean_division_equations. lia.
  - rewrite formatTime_twoDigits.
    rewrite !length_append, Lh, Lm. reflexivity.
  - intros t' E. now rewrite !formatTime_face, E.
Qed.

Lemma face_of_minute (k : Z) :
  face (k mod 1440) = twoDigits (k mod 1440 / 60) ++ ":"
                        ++ twoDigits (k mod 1440 mod 60).
Proof. reflexivity. Qed.

Lemma hoursOf_formatTime (t : Z) :
  hoursOf (formatTime (DateAt t)) = Num (HourFromTime t)
  /\ minutesOf (formatTime (DateAt t)) = Num (MinFromTime t).
Proof.
  pose proof (HourFromTime_range t) as Hh.
  pose proof (MinFromTime_range t) as Hm.
  assert (Hh' : 0 <= HourFromTime t < 60) by lia.
  destruct (reads_back_spec _ (reads_back_below_60 _ Hh')) as (_ & Ah & Nh).
  destruct (reads_back_spec _ (reads_back_below_60 _ Hm)) as (_ & Am & Nm).
  unfold hoursOf, minutesOf. rewrite formatTime_twoDigits.
  change (":" ++ twoDigits (MinFromTime t))
    with (String ":" (twoDigits (MinFromTime t))).
  rewrite (split_two ":" _ _ Ah Am). cbn [map nth]. auto.
Qed.

(** ** The schedule of the loop *)

(** The three ways an iteration can go: the loop is over, it breaks off
    after a pomodoro, or it takes the break and goes on. *)
Lemma planLines_cases (s : PomodoroSettings) (e : TimeOrCount)
  (P : Vars -> list PlanLine -> Vars -> Prop) :
  (forall v, fits s e v = false -> P v [] v) ->
  (forall v, fits s e v = true -> lookAhead s e v = false ->
             P v [workEntry s v] (afterWork s v)) ->
  (forall v ls v',
      fits s e v = true -> lookAhead s e v = true ->
      P (afterRest s v) ls v' ->
      P v (workEntry s v :: restEntry s v :: ls) v') ->
  forall fuel v ls v', planLines fuel s e v = Some (ls, v') -> P v ls v'.
Proof.
  intros Hstop Hlast Hnext.
  induction fuel as [|fuel IH]; intros v ls v' H.
  - rewrite planLines_O in H. fold (fits s e v) in H.
    destruct (fits s e v) eqn:Hf; [discriminate|].
    injection H as <- <-. auto.
  - rewrite planLines_S in H. fold (fits s e v) in H.
    destruct (fits s e v) eqn:Hf; [|injection H as <- <-; auto].
    cbv zeta in H.
    specialize (Hlast v Hf). specialize (Hnext v).
    unfold lookAhead, workEntry, restEntry, afterWork, afterRest in *.
    unfold restLength, restLabel in *. unfold longDue in *.
    destruct (v_group v + 1 =? group s); cbv iota in Hlast, Hnext.
    + destruct (willContinue _ (v_count v + 1) e).
      * destruct (planLines fuel s e _) as [[ls0 v0]|] eqn:E; [|discriminate].
        injection H as <- <-. apply Hnext; auto.
      * injection H as <- <-. auto.
    + rewrite (Z.add_comm (pomodoro s) (shortBreak s)) in H.
      destruct (willContinue _ (v_count v + 1) e).
      * destruct (planLines fuel s e _) as [[ls0 v0]|] eqn:E; [|discriminate].
        injection H as <- <-. apply Hnext; auto.
      * injection H as <- <-. auto.
Qed.

Lemma addMinutes_0 (d : Date) : addMinutes d 0 = d.
Proof.
  destruct d as [|t]; [reflexivity|]. rewrite addMinutes_at. f_equal. ring.
Qed.

Lemma lengthOf_restLabel (s : PomodoroSettings) (v : Vars) :
  lengthOf s (restLabel s v) = restLength s v.
Proof. unfold restLabel, restLength. now destruct (longDue s v). Qed.

Lemma isWork_restEntry (s : PomodoroSettings) (v : Vars) :
  isWork (restEntry s v) = false.
Proof.
  unfold isWork, restEntry, restLabel; cbn [line_label].
  now destruct (longDue s v).
Qed.

(** The schedule is a chain from the start, the clock ends at the end of
    the chain, and the rest time is the length of the breaks in it. *)
Lemma planLines_chained (s : PomodoroSettings) (e : TimeOrCount) (fuel : nat)
  (v : Vars) (ls : list PlanLine) (v' : Vars) :
  planLines fuel s e v = Some (ls, v') ->
  chained s (v_time v) ls
  /\ v_time v' = addMinutes (v_time v) (totalLength s ls)
  /\ v_rest v' = v_rest v + totalLength s (filter isRest ls).
Proof.
  revert fuel v ls v'. apply planLines_cases.
  - intros v _. cbn [chained totalLength fold_right filter].
    rewrite addMinutes_0. repeat split. lia.
  - intros v _ _.
    cbn [chained totalLength fold_right filter isRest isWork workEntry
         afterWork line_start line_end line_label lengthOf negb v_time v_rest].
    rewrite Z.add_0_r. repeat split. lia.
  - intros v ls v' _ _ (Hc & Ht & Hr).
    cbn [afterRest v_time v_rest] in Hc, Ht, Hr.
    cbn [chained]. unfold isRest in *.
    cbn [filter]. rewrite isWork_restEntry.
    cbn [workEntry restEntry line_start line_end line_label lengthOf isWork
         negb totalLength fold_right filter].
    rewrite lengthOf_restLabel. fold (totalLength s ls).
    fold (totalLength s (filter (fun l => negb (isWork l)) ls)).
    repeat split; try assumption.
    + rewrite Ht, !addMinutes_add. f_equal; ring.
    + rewrite Hr. ring.
Qed.

(** The pomodoros of a schedule carry the numbers from the counter on. *)
Lemma planLines_numbered (s : PomodoroSettings) (e : TimeOrCount) (fuel : nat)
  (v : Vars) (ls : list PlanLine) (v' : Vars) :
  planLines fuel s e v = Some (ls, v') ->
  map line_label (filter isWork ls)
  = map Work (countFrom (v_count v) (List.length (filter isWork ls))).
Proof.
  revert fuel v ls v'. apply planLines_cases.
  - reflexivity.
  - reflexivity.
  - intros v ls v' _ _ IH. cbn [afterRest v_count] in IH.
    cbn [filter]. rewrite isWork_restEntry.
    cbn [workEntry isWork line_label filter map List.length countFrom].
    now rewrite IH.
Qed.

Lemma inStep_afterRest (s : PomodoroSettings) (v : Vars) :
  inStep (group s) v ->
  inStep (group s) (afterRest s v)
  /\ restLabel s v = dueRest (group s) (v_count v).
Proof.
  unfold inStep, afterRest, restLabel, dueRest, longDue;
    cbn [v_group v_count].
  intros [H0 Hg].
  destruct (0 <? group s) eqn:Hpos; cbn [andb].
  - apply Z.ltb_lt in Hpos. destruct (Hg Hpos) as [Hlt Hmod].
    destruct (v_group v + 1 =? group s) eqn:E.
    + apply Z.eqb_eq in E.
      assert (Hk : v_count v mod group s = 0).
      { replace (v_count v)
          with (v_count v - 1 - v_group v + 1 * group s) by lia.
        rewrite Z.mod_add by lia. assumption. }
      rewrite Hk. cbn. split; [|reflexivity].
      split; [lia|]. intros _. split; [lia|].
      replace (v_count v + 1 - 1 - 0) with (v_count v) by lia. assumption.
    + apply Z.eqb_neq in E.
      assert (Hk : v_count v mod group s <> 0).
      { intros Hk.
        assert (Hz : (v_group v + 1) mod group s = 0).
        { replace (v_group v + 1)
            with (v_count v - (v_count v - 1 - v_group v)) by lia.
          rewrite Zminus_mod, Hk, Hmod. reflexivity. }
        rewrite Z.mod_small in Hz by lia. lia. }
      apply Z.eqb_neq in Hk. rewrite Hk. split; [|reflexivity].
      split; [lia|]. intros _. split; [lia|].
      replace (v_count v + 1 - 1 - (v_group v + 1))
        with (v_count v - 1 - v_group v) by lia. assumption.
  - apply Z.ltb_ge in Hpos.
    destruct (v_group v + 1 =? group s) eqn:E.
    + apply Z.eqb_eq in E. lia.
    + split; [|reflexivity]. split; [lia|]. intros; lia.
Qed.

(** Every break of the schedule is the one that is due. *)
Lemma planLines_cadence (s : PomodoroSettings) (e : TimeOrCount) (fuel : nat)
  (v : Vars) (ls : list PlanLine) (v' : Vars) :
  planLines fuel s e v = Some (ls, v') ->
  inStep (group s) v ->
  Forall (fun kr => snd kr = dueRest (group s) (fst kr)) (restsAfter ls).
Proof.
  revert fuel v ls v'.
  apply (planLines_cases s e
           (fun v ls _ =>
              inStep (group s) v ->
              Forall (fun kr => snd kr = dueRest (group s) (fst kr))
                     (restsAfter ls))).
  - constructor.
  - constructor.
  - intros v ls v' _ _ IH Hv.
    destruct (inStep_afterRest s v Hv) as [Hv' Hl].
    assert (E : restsAfter (workEntry s v :: restEntry s v :: ls)
                = (v_count v, restLabel s v) :: restsAfter ls).
    { cbn [restsAfter workEntry restEntry line_label].
      unfold restLabel. destruct (longDue s v); reflexivity. }
    rewrite E. constructor; [exact Hl | auto].
Qed.

(** The schedule function, one iteration at a time. *)
Lemma planLines_step (fuel : nat) (s : PomodoroSettings) (e : TimeOrCount)
  (v : Vars) :
  planLines (S fuel) s e v =
  if fits s e v then
    if lookAhead s e v then
      match planLines fuel s e (afterRest s v) with
      | Some (ls, v') => Some (workEntry s v :: restEntry s v :: ls, v')
      | None => None
      end
    else Some ([workEntry s v], afterWork s v)
  else Some ([], v).
Proof.
  rewrite planLines_S. fold (fits s e v).
  destruct (fits s e v); [|reflexivity]. cbv zeta.
  unfold lookAhead, workEntry, restEntry, afterWork, afterRest.
  unfold restLength, restLabel. unfold longDue.
  destruct (v_group v + 1 =? group s); [reflexivity|].
  now rewrite (Z.add_comm (pomodoro s) (shortBreak s)).
Qed.

Lemma planLines_stop (fuel : nat) (s : PomodoroSettings) (e : TimeOrCount)
  (v : Vars) :
  fits s e v = false -> planLines fuel s e v = Some ([], v).
Proof.
  intros H. destruct fuel.
  - rewrite planLines_O. fold (fits s e v). now rewrite H.
  - rewrite planLines_step. now rewrite H.
Qed.

Lemma planLines_starved (s : PomodoroSettings) (e : TimeOrCount) (v : Vars) :
  fits s e v = true -> planLines O s e v = None.
Proof. intros H. rewrite planLines_O. fold (fits s e v). now rewrite H. Qed.

Lemma totalLength_cons (s : PomodoroSettings) (l : PlanLine)
  (ls : list PlanLine) :
  totalLength s (l :: ls) = lengthOf s (line_label l) + totalLength s ls.
Proof. reflexivity. Qed.

Lemma totalLength_split (s : PomodoroSettings) (ls : list PlanLine) :
  totalLength s ls
  = pomodoro s * Z.of_nat (List.length (filter isWork ls))
    + totalLength s (filter isRest ls)
  /\ totalLength s (filter isRest ls)
     = shortBreak s * Z.of_nat (List.length (filter isShort ls))
       + longBreak s * Z.of_nat (List.length (filter isLong ls)).
Proof.
  induction ls as [|l ls [IH1 IH2]]; [split; cbn; lia|].
  rewrite totalLength_cons. cbn [filter].
  unfold isRest, isWork, isShort, isLong in *.
  destruct (line_label l) eqn:E; cbn [negb];
    rewrite ?totalLength_cons, ?E; cbn [lengthOf List.length];
    rewrite ?Nat2Z.inj_succ; split; lia.
Qed.

(** ** The schedule behind the text *)

(** X6 (generatePomodoroPlan, the loop): the Pomodoro lines of a plan are
    numbered 1, 2, ... in the order of the text, up to the number of the
    statistics, without a gap or a repeat. *)
Theorem pomodoros_numbered_in_order (fuel : nat) (s : PomodoroSettings)
  (e : TimeOrCount) (startTime : Date) (st : LoopState) :
  while fuel s e (initial startTime) = Some st ->
  exists ls,
    filter isPomodoroLine (lines (planText s st))
    = map renderLine (filter isWork ls)
    /\ map line_label (filter isWork ls)
       = map Work (countFrom 1 (Z.to_nat (pomodoroCount st - 1))).
Proof.
  intros H. destruct (lines_planText _ _ _ _ _ H) as (ls & Hp & Hm & Hl).
  exists ls. split.
  - rewrite Hl, filter_app, filter_isPomodoroLine_render,
      filter_shown_isWork.
    replace (filter isPomodoroLine _) with (@nil string);
      [now rewrite app_nil_r|].
    destruct (_ =? _); [reflexivity|].
    destruct (includeStats _); [|reflexivity].
    now rewrite filter_isPomodoroLine_stats.
  - pose proof (planLines_count _ _ _ _ _ _ Hp) as Hc.
    apply planLines_numbered in Hp. cbn [v_count vars_of] in *.
    rewrite Hp. do 2 f_equal. lia.
Qed.

(** The five pomodoros of example 1 are numbered so. *)
Lemma pomodoros_numbered_in_order_witness :
  exists st,
    while 5 DEFAULT_SETTINGS (Count 5) (initial (startOf example1)) = Some st
    /\ exists ls,
         filter isPomodoroLine (lines (planText DEFAULT_SETTINGS st))
         = map renderLine (filter isWork ls)
         /\ map line_label (filter isWork ls)
            = map Work (countFrom 1 (Z.to_nat (pomodoroCount st - 1))).
Proof.
  destruct (while 5 DEFAULT_SETTINGS (Count 5) (initial (startOf example1)))
    as [st|] eqn:E; [|vm_compute in E; discriminate].
  exists st. split; [reflexivity|].
  apply (pomodoros_numbered_in_order 5 DEFAULT_SETTINGS (Count 5)
           (startOf example1) st E).
Defined.

Lemma restsAfter_step (s : PomodoroSettings) (v : Vars)
  (ls : list PlanLine) :
  restsAfter (workEntry s v :: restEntry s v :: ls)
  = (v_count v, restLabel s v) :: restsAfter ls.
Proof.
  cbn [restsAfter workEntry restEntry line_label].
  unfold restLabel. destruct (longDue s v); reflexivity.
Qed.

(** The breaks of a schedule are the ones [restsAfter] lists. *)
Lemma planLines_rests (s : PomodoroSettings) (e : TimeOrCount) (fuel : nat)
  (v : Vars) (ls : list PlanLine) (v' : Vars) :
  planLines fuel s e v = Some (ls, v') ->
  map line_label (filter isRest ls) = map snd (restsAfter ls).
Proof.
  revert fuel v ls v'.
  apply (planLines_cases s e
           (fun _ ls _ =>
              map line_label (filter isRest ls) = map snd (restsAfter ls))).
  - reflexivity.
  - reflexivity.
  - intros v ls v' _ _ IH. rewrite restsAfter_step.
    unfold isRest in *. cbn [filter]. rewrite isWork_restEntry.
    cbn [workEntry isWork line_label negb map snd]. now rewrite IH.
Qed.

(** Without a positive group size no break is a long one. *)
Lemma planLines_no_group (s : PomodoroSettings) (e : TimeOrCount) (fuel : nat)
  (v : Vars) (ls : list PlanLine) (v' : Vars) :
  planLines fuel s e v = Some (ls, v') ->
  inStep (group s) v -> group s <= 0 -> filter isLong ls = [].
Proof.
  revert fuel v ls v'.
  apply (planLines_cases s e
           (fun v ls _ =>
              inStep (group s) v -> group s <= 0 -> filter isLong ls = [])).
  - reflexivity.
  - reflexivity.
  - intros v ls v' _ _ IH Hv Hg.
    destruct (inStep_afterRest s v Hv) as [Hv' _].
    cbn [filter].
    replace (isLong (workEntry s v)) with false by reflexivity.
    replace (isLong (restEntry s v)) with (longDue s v)
      by (unfold isLong, restEntry, restLabel; cbn [line_label];
          now destruct (longDue s v)).
    unfold longDue. destruct Hv as [H0 _].
    destruct (v_group v + 1 =? group s) eqn:E;
      [apply Z.eqb_eq in E; lia | auto].
Qed.

Lemma inStep_initial (g : Z) (startTime : Date) :
  inStep g (mkVars startTime 0 0 1).
Proof.
  unfold inStep; cbn [v_group v_count]. split; [lia|].
  intros Hg. split; [lia|]. now rewrite Z.mod_0_l by lia.
Qed.

(** X7 (generatePomodoroPlan, the loop): the break after pomodoro number k
    is the long one exactly when the group size is positive and k is a
    multiple of it, and the short one otherwise; so with a group size of
    zero or less a plan has no long break at all.  Every break of the plan
    comes after a pomodoro. *)
Theorem long_break_closes_each_group (fuel : nat) (s : PomodoroSettings)
  (e : TimeOrCount) (startTime : Date) (st : LoopState) :
  while fuel s e (initial startTime) = Some st ->
  exists ls,
    markdown st = render (filter (shown s) ls)
    /\ map line_label (filter isRest ls) = map snd (restsAfter ls)
    /\ Forall (fun kr => snd kr = dueRest (group s) (fst kr)) (restsAfter ls)
    /\ (group s <= 0 -> filter isLong ls = []).
Proof.
  intros H. apply while_initial_schedule in H as (ls & Hp & Hm).
  exists ls. split; [assumption|]. split; [|split].
  - exact (planLines_rests _ _ _ _ _ _ Hp).
  - exact (planLines_cadence _ _ _ _ _ _ Hp (inStep_initial _ _)).
  - exact (planLines_no_group _ _ _ _ _ _ Hp (inStep_initial _ _)).
Qed.

(** The five pomodoros of example 1, in groups of four. *)
Lemma long_break_closes_each_group_witness :
  exists st,
    while 5 DEFAULT_SETTINGS (Count 5) (initial (startOf example1)) = Some st
    /\ exists ls,
         markdown st = render (filter (shown DEFAULT_SETTINGS) ls)
         /\ map line_label (filter isRest ls) = map snd (restsAfter ls)
         /\ Forall (fun kr => snd kr = dueRest (group DEFAULT_SETTINGS) (fst kr))
              (restsAfter ls)
         /\ (group DEFAULT_SETTINGS <= 0 -> filter isLong ls = []).
Proof.
  destruct (while 5 DEFAULT_SETTINGS (Count 5) (initial (startOf example1)))
    as [st|] eqn:E; [|vm_compute in E; discriminate].
  exists st. split; [reflexivity|].
  apply (long_break_closes_each_group 5 DEFAULT_SETTINGS (Count 5)
           (startOf example1) st E).
Defined.

(** ** The end of the loop *)

Lemma fits_count (s : PomodoroSettings) (n : Z) (v : Vars) :
  fits s (Count n) v = (v_count v <=? n).
Proof. reflexivity. Qed.

Lemma lookAhead_count (s : PomodoroSettings) (n : Z) (v : Vars) :
  lookAhead s (Count n) v = (v_count v + 1 <=? n).
Proof. reflexivity. Qed.

(** With a count as end the loop needs no more iterations than the count,
    whatever the lengths are. *)
Lemma planLines_count_end (s : PomodoroSettings) (n : Z) :
  forall fuel v,
    (Z.to_nat (n + 1 - v_count v) <= fuel)%nat ->
    exists ls v',
      planLines fuel s (Count n) v = Some (ls, v')
      /\ v_count v' = Z.max (v_count v) (n + 1).
Proof.
  induction fuel as [|fuel IH]; intros v H.
  - exists [], v. split; [|lia].
    apply planLines_stop. rewrite fits_count. apply Z.leb_gt. lia.
  - rewrite planLines_step, fits_count, lookAhead_count.
    destruct (v_count v <=? n) eqn:E1.
    + apply Z.leb_le in E1.
      destruct (v_count v + 1 <=? n) eqn:E2.
      * apply Z.leb_le in E2.
        destruct (IH (afterRest s v)) as (ls & v' & -> & Hc).
        { cbn [afterRest v_count]. lia. }
        cbn [afterRest v_count] in Hc.
        eexists _, v'. split; [reflexivity|]. lia.
      * apply Z.leb_gt in E2.
        eexists _, _. split; [reflexivity|]. cbn [afterWork v_count]. lia.
    + apply Z.leb_gt in E1. exists [], v. split; [reflexivity|]. lia.
Qed.

(** The Pomodoro lines of a finished plan are as many as its counter
    says. *)
Lemma pomodoroLines_planText (fuel : nat) (s : PomodoroSettings)
  (e : TimeOrCount) (startTime : Date) (st : LoopState) :
  while fuel s e (initial startTime) = Some st ->
  Z.of_nat (List.length (filter isPomodoroLine (lines (planText s st))))
  = pomodoroCount st - 1.
Proof.
  intros H. destruct (lines_planText _ _ _ _ _ H) as (ls & Hp & Hm & Hl).
  apply planLines_count in Hp. cbn [v_count vars_of] in Hp.
  rewrite Hl, filter_app, filter_isPomodoroLine_render,
    filter_shown_isWork, length_app, length_map.
  replace (filter isPomodoroLine _) with (@nil string); [cbn; lia|].
  destruct (_ =? _); [reflexivity|].
  destruct (includeStats _); [|reflexivity].
  now rewrite filter_isPomodoroLine_stats.
Qed.

(** X8 (generatePomodoroPlan with a count as end): the plan has exactly
    that many Pomodoro lines (none for a count below 1), and the loop
    ends within that many iterations, whatever the settings are: lengths
    that are zero or negative do not keep a counted plan from ending. *)
Theorem count_end_gives_that_many (fuel : nat) (w : World) (n : Z) :
  endOf w = Count n ->
  (Z.to_nat n <= fuel)%nat ->
  exists text,
    textOf (generatePomodoroPlan fuel w) = Some text
    /\ List.length (filter isPomodoroLine (lines text)) = Z.to_nat n.
Proof.
  intros He Hf.
  destruct (planLines_count_end (settings w) n fuel
              (mkVars (startOf w) 0 0 1)) as (ls & v' & Hp & Hc).
  { cbn [v_count]. replace (n + 1 - 1) with n by lia. assumption. }
  cbn [v_count] in Hc.
  pose proof (while_planLines fuel (settings w) (Count n)
                (initial (startOf w))) as Hw.
  change (vars_of (initial (startOf w))) with (mkVars (startOf w) 0 0 1)
    in Hw.
  rewrite Hp in Hw.
  rewrite textOf_generatePomodoroPlan, He, Hw. cbn [option_map].
  eexists. split; [reflexivity|].
  pose proof (pomodoroLines_planText _ _ _ _ _ Hw) as Hn.
  cbn [state_of pomodoroCount] in Hn. lia.
Qed.

(** Example 1 asks for five pomodoros. *)
Lemma count_end_gives_that_many_witness :
  endOf example1 = Count 5
  /\ (Z.to_nat 5 <= 5)%nat
  /\ exists text,
       textOf (generatePomodoroPlan 5 example1) = Some text
       /\ List.length (filter isPomodoroLine (lines text)) = Z.to_nat 5.
Proof.
  split; [vm_compute; reflexivity|]. split; [vm_compute; lia|].
  apply (count_end_gives_that_many 5 example1 5);
    [vm_compute; reflexivity | vm_compute; lia].
Defined.

Lemma Date_le_at (a b : Z) : Date_le (DateAt a) (DateAt b) = (a <=? b).
Proof. reflexivity. Qed.

Lemma Date_le_invalid_l (d : Date) : Date_le InvalidDate d = false.
Proof. reflexivity. Qed.

Lemma Date_le_invalid_r (d : Date) : Date_le d InvalidDate = false.
Proof. now destruct d. Qed.

(** A time that is not after the end stays so when fewer minutes are
    added. *)
Lemma Date_le_earlier (x d : Date) (a b : Z) :
  0 <= b ->
  Date_le (addMinutes x (a + b)) d = true ->
  Date_le (addMinutes x a) d = true.
Proof.
  intros Hb. destruct x as [|t]; [now rewrite !addMinutes_invalid|].
  rewrite !addMinutes_at. destruct d as [|te].
  - now rewrite !Date_le_invalid_r.
  - rewrite !Date_le_at, !Z.leb_le. unfold msPerMinute. nia.
Qed.

Lemma fits_afterRest (s : PomodoroSettings) (e : TimeOrCount) (v : Vars) :
  fits s e (afterRest s v) = lookAhead s e v.
Proof.
  unfold fits, lookAhead, afterRest; cbn [v_time v_count].
  now rewrite !addMinutes_add.
Qed.

(** With a time as end, what the loop lets into the schedule. *)
Lemma planLines_before_end (s : PomodoroSettings) (d : Date) (fuel : nat)
  (v : Vars) (ls : list PlanLine) (v' : Vars) :
  planLines fuel s (Time d) v = Some (ls, v') ->
  Forall (fun l => isWork l = true -> Date_le (line_end l) d = true) ls
  /\ (0 <= pomodoro s ->
      Forall (fun l => Date_le (line_end l) d = true) ls).
Proof.
  revert fuel v ls v'.
  apply (planLines_cases s (Time d)
           (fun _ ls _ =>
              Forall (fun l => isWork l = true ->
                               Date_le (line_end l) d = true) ls
              /\ (0 <= pomodoro s ->
                  Forall (fun l => Date_le (line_end l) d = true) ls))).
  - intros v _. split; [constructor | intros _; constructor].
  - intros v Hf _. unfold fits in Hf; cbn [willContinue] in Hf.
    split; [|intros _]; repeat constructor; auto.
  - intros v ls v' Hf Hl [IH1 IH2].
    unfold fits in Hf; cbn [willContinue] in Hf.
    unfold lookAhead in Hl; cbn [willContinue] in Hl.
    split.
    + constructor; [auto|]. constructor; [|assumption].
      rewrite isWork_restEntry. discriminate.
    + intros Hp. constructor; [assumption|].
      constructor; [|auto].
      cbn [restEntry line_end]. exact (Date_le_earlier _ _ _ _ Hp Hl).
Qed.

(** Where a schedule stops: at once, because the first pomodoro is not
    allowed, or after a pomodoro, because the break that is due and one
    more pomodoro are not. *)
Lemma planLines_maximal (s : PomodoroSettings) (e : TimeOrCount) (fuel : nat)
  (v : Vars) (ls : list PlanLine) (v' : Vars) :
  planLines fuel s e v = Some (ls, v') ->
  (v' = v /\ fits s e v = false)
  \/ (v_count v < v_count v' /\ nextFits s e v' = false).
Proof.
  revert fuel v ls v'.
  apply (planLines_cases s e
           (fun v _ v' =>
              (v' = v /\ fits s e v = false)
              \/ (v_count v < v_count v' /\ nextFits s e v' = false))).
  - intros v Hf. left. auto.
  - intros v _ Hl. right. split; [cbn [afterWork v_count]; lia|].
    exact Hl.
  - intros v ls v' _ Hl [[-> Hf]|[Hc Hn]].
    + rewrite fits_afterRest in Hf. congruence.
    + right. cbn [afterRest v_count] in Hc. split; [lia | assumption].
Qed.

Lemma textOf_none (o : outcome unit) : textOf o = None -> o = Timeout.
Proof. destruct o; [discriminate | discriminate | reflexivity]. Qed.

(** When the pomodoro and either break add up to nothing, a loop with a
    time as end stands still at a time from which a pomodoro fits. *)
Lemma planLines_never_ends (s : PomodoroSettings) (te : Z) :
  pomodoro s + shortBreak s = 0 -> pomodoro s + longBreak s = 0 ->
  forall fuel v t,
    v_time v = DateAt t -> t + pomodoro s * msPerMinute <= te ->
    planLines fuel s (Time (DateAt te)) v = None.
Proof.
  intros Hs Hl. induction fuel as [|fuel IH]; intros v t Hv Ht.
  - apply planLines_starved. unfold fits; cbn [willContinue].
    rewrite Hv, addMinutes_at, Date_le_at. now apply Z.leb_le.
  - assert (Hr : pomodoro s + restLength s v = 0)
      by (unfold restLength; now destruct (longDue s v)).
    rewrite planLines_step.
    replace (fits s (Time (DateAt te)) v) with true.
    2:{ unfold fits; cbn [willContinue].
        rewrite Hv, addMinutes_at, Date_le_at. symmetry. now apply Z.leb_le. }
    replace (lookAhead s (Time (DateAt te)) v) with true.
    2:{ unfold lookAhead; cbn [willContinue].
        rewrite Hv, addMinutes_add, addMinutes_at, Date_le_at. symmetry.
        apply Z.leb_le.
        replace (pomodoro s + (restLength s v + pomodoro s))
          with (pomodoro s) by lia.
        assumption. }
    rewrite (IH (afterRest s v) t); [reflexivity| |assumption].
    cbn [afterRest v_time]. rewrite Hv, addMinutes_add, Hr.
    apply addMinutes_0.
Qed.

(** ** Starts and ends that do not work out *)

Lemma startOf_invalid (w : World) :
  parsesAsTime (start w) = false -> startOf w = InvalidDate.
Proof.
  unfold startOf, parsesAsTime. rewrite parseTime_on_at.
  destruct (hoursOf (start w)), (minutesOf (start w));
    try reflexivity; discriminate.
Qed.

Lemma renderLine_invalid (l : PlanLine) :
  line_start l = InvalidDate -> line_end l = InvalidDate ->
  renderLine l = nanLine (line_label l).
Proof. unfold renderLine. now intros -> ->. Qed.

(** From a start that is no time the loop makes only entries without
    times. *)
Lemma planLines_invalid (s : PomodoroSettings) (e : TimeOrCount) (fuel : nat)
  (v : Vars) (ls : list PlanLine) (v' : Vars) :
  planLines fuel s e v = Some (ls, v') ->
  v_time v = InvalidDate ->
  Forall (fun l => renderLine l = nanLine (line_label l)) ls.
Proof.
  revert fuel v ls v'.
  apply (planLines_cases s e
           (fun v ls _ =>
              v_time v = InvalidDate ->
              Forall (fun l => renderLine l = nanLine (line_label l)) ls)).
  - constructor.
  - intros v _ _ Hv. constructor; [|constructor].
    apply renderLine_invalid; cbn [workEntry line_start line_end];
      now rewrite Hv.
  - intros v ls v' _ _ IH Hv. constructor; [|constructor].
    + apply renderLine_invalid; cbn [workEntry line_start line_end];
        now rewrite Hv.
    + apply renderLine_invalid; cbn [restEntry line_start line_end];
        now rewrite Hv.
    + apply IH. cbn [afterRest v_time]. now rewrite Hv.
Qed.

Lemma map_renderLine_filter (f : PlanLine -> bool) (ls : list PlanLine) :
  Forall (fun l => renderLine l = nanLine (line_label l)) ls ->
  map renderLine (filter f ls) = map nanLine (map line_label (filter f ls)).
Proof.
  induction 1 as [|l ls Hl _ IH]; [reflexivity|].
  cbn [filter]. destruct (f l); [|assumption].
  cbn [map]. now rewrite Hl, IH.
Qed.

(** X12 (generatePomodoroPlan, parseTime, willContinue, formatTime): a
    start field that does not hold a time (emptied, or without a colon)
    is not reported.  With a time as end the plan is then empty; with a
    count as end the plan still has its lines, each reading
    NaN:NaN - NaN:NaN where its times should be. *)
Theorem start_that_is_no_time (fuel : nat) (w : World) (text : string) :
  parsesAsTime (start w) = false ->
  textOf (generatePomodoroPlan fuel w) = Some text ->
  (forall d, endOf w = Time d -> text = "")
  /\ exists st labels,
       text = planText (settings w) st
       /\ lines text
          = (map nanLine labels
             ++ (if pomodoroCount st - 1 =? 0 then []
                 else if includeStats (settings w)
                      then statsLines (settings w) st else []))%list.
Proof.
  intros Hs H. apply textOf_while in H as (st & Hw & ->).
  rewrite (startOf_invalid w Hs) in Hw. split.
  - intros d Hd. rewrite Hd, while_planLines, planLines_stop in Hw
      by reflexivity.
    injection Hw as <-. reflexivity.
  - destruct (lines_planText _ _ _ _ _ Hw) as (ls & Hp & Hm & Hl).
    exists st, (map line_label (filter (shown (settings w)) ls)).
    split; [reflexivity|]. rewrite Hl. f_equal.
    apply map_renderLine_filter.
    exact (planLines_invalid _ _ _ _ _ _ Hp eq_refl).
Qed.

(** An emptied start field and two pomodoros. *)
Lemma start_that_is_no_time_witness :
  parsesAsTime (start no_start) = false
  /\ textOf (generatePomodoroPlan 2 no_start) = Some no_start_text
  /\ exists st labels,
       no_start_text = planText (settings no_start) st
       /\ lines no_start_text
          = (map nanLine labels
             ++ (if pomodoroCount st - 1 =? 0 then []
                 else if includeStats (settings no_start)
                      then statsLines (settings no_start) st else []))%list.
Proof.
  split; [reflexivity|]. split; [vm_compute; reflexivity|].
  apply (start_that_is_no_time 2 no_start no_start_text);
    [reflexivity | vm_compute; reflexivity].
Defined.

Lemma while_stop (fuel : nat) (s : PomodoroSettings) (e : TimeOrCount)
  (startTime : Date) :
  willContinue (addMinutes startTime (pomodoro s)) 1 e = false ->
  while fuel s e (initial startTime) = Some (initial startTime).
Proof.
  intros H. rewrite while_planLines, planLines_stop by exact H. reflexivity.
Qed.

(** ** The preview, the saved settings and the buttons *)

(** A call on an open modal that returns leaves the world [generated]. *)
Lemma generatePomodoroPlan_result (fuel : nat) (w w' : World) (r : string) :
  resultEl w = Some r ->
  generatePomodoroPlan fuel w = Return tt w' ->
  exists st,
    while fuel (settings w) (endOf w) (initial (startOf w)) = Some st
    /\ w' = generated w st.
Proof.
  intros Hr H.
  assert (Ht : textOf (generatePomodoroPlan fuel w) = Some (resultMarkdown w'))
    by now rewrite H.
  apply textOf_while in Ht as (st & Hw & _).
  exists st. split; [assumption|].
  rewrite (generatePomodoroPlan_opened fuel w r st Hr Hw) in H.
  now injection H.
Qed.

Lemma lines_nonempty (text : string) : lines text <> [] -> text <> "".
Proof. intros H ->. now apply H. Qed.

(** The text of a finished plan is empty exactly when no pomodoro was
    scheduled. *)
Lemma planText_empty (fuel : nat) (s : PomodoroSettings) (e : TimeOrCount)
  (startTime : Date) (st : LoopState) :
  while fuel s e (initial startTime) = Some st ->
  (pomodoroCount st - 1 = 0 -> planText s st = "")
  /\ (pomodoroCount st - 1 <> 0 ->
      filter isPomodoroLine (lines (planText s st)) <> []).
Proof.
  intros H. split.
  - intros E. unfold planText. apply Z.eqb_eq in E as E'. rewrite E'.
    exact (empty_plan_markdown _ _ _ _ _ H E).
  - intros N E. pose proof (pomodoroLines_planText _ _ _ _ _ H) as Hn.
    rewrite E in Hn. cbn in Hn. lia.
Qed.

Lemma filter_nonempty {A : Type} (f : A -> bool) (l : list A) :
  filter f l <> [] -> l <> [].
Proof. intros H ->. now apply H. Qed.

(** After a returning call on an open modal the preview shows the text
    kept for the buttons. *)
Lemma generatePomodoroPlan_preview (fuel : nat) (w w' : World) (r : string) :
  resultEl w = Some r ->
  generatePomodoroPlan fuel w = Return tt w' ->
  resultEl w' = Some (resultMarkdown w')
  /\ emptyOrPlan (resultMarkdown w').
Proof.
  intros Hr H.
  destruct (generatePomodoroPlan_result fuel w w' r Hr H) as (st & Hw & ->).
  destruct (planText_empty _ _ _ _ _ Hw) as [He Hn].
  cbn [generated resultEl resultMarkdown]. split; [reflexivity|].
  unfold emptyOrPlan.
  destruct (Z.eq_dec (pomodoroCount st - 1) 0) as [E|N]; auto.
Qed.

(** X14 (generatePomodoroPlan, lines 129-170): after a call on an open
    modal the preview element shows exactly the text kept for the
    buttons, and that text is empty or has a Pomodoro line.  The call
    changes no field of the form, and it saves the settings, the current
    ones and once, exactly when the plan is not empty. *)
Theorem plan_is_shown_and_saved (fuel : nat) (w w' : World) (r : string) :
  resultEl w = Some r ->
  generatePomodoroPlan fuel w = Return tt w' ->
  resultEl w' = Some (resultMarkdown w')
  /\ emptyOrPlan (resultMarkdown w')
  /\ settings w' = settings w /\ start w' = start w /\ end_ w' = end_ w
  /\ log w'
     = (log w
        ++ (if notifies (end_ w)
            then [NoticeShown "Invalid time or count format"] else [])
        ++ (if String.eqb (resultMarkdown w') "" then []
            else [SettingsSaved (settings w)]))%list.
Proof.
  intros Hr H.
  destruct (generatePomodoroPlan_preview fuel w w' r Hr H) as [Hel Hep].
  split; [assumption|]. split; [assumption|]. clear Hel Hep.
  destruct (generatePomodoroPlan_result fuel w w' r Hr H) as (st & Hw & ->).
  destruct (planText_empty _ _ _ _ _ Hw) as [He Hn].
  cbn [generated resultEl resultMarkdown settings start end_ log].
  split; [reflexivity|]. split; [reflexivity|]. split; [reflexivity|].
  unfold eventsOf. do 2 f_equal.
  destruct (pomodoroCount st - 1 =? 0) eqn:E.
  - apply Z.eqb_eq in E. now rewrite (He E).
  - apply Z.eqb_neq in E.
    destruct (String.eqb_spec (planText (settings w) st) "") as [E'|_];
      [|reflexivity].
    now apply (lines_nonempty _ (filter_nonempty _ _ (Hn E))) in E'.
Qed.

(** Example 1: the plan is shown and the settings are saved. *)
Lemma plan_is_shown_and_saved_witness :
  exists w',
    (resultEl example1 = Some ""
     /\ generatePomodoroPlan 5 example1 = Return tt w')
    /\ resultEl w' = Some example1_text
    /\ log w' = [SettingsSaved DEFAULT_SETTINGS].
Proof.
  destruct (generatePomodoroPlan 5 example1) as [[] w'| |] eqn:E;
    [|vm_compute in E; discriminate ..].
  exists w'. split; [split; reflexivity|].
  destruct (plan_is_shown_and_saved 5 example1 w' "" eq_refl E)
    as (Hel & _ & _ & _ & _ & Hlog).
  assert (Hmd : resultMarkdown w' = example1_text)
    by (vm_compute in E; injection E as <-; reflexivity).
  rewrite Hel, Hlog, Hmd. split; reflexivity.
Defined.

(** An edit keeps the preview in step with the text for the buttons. *)
Lemma edits_keep_preview (w w' : World) :
  edits w w' ->
  resultEl w = Some (resultMarkdown w) /\ emptyOrPlan (resultMarkdown w) ->
  resultEl w' = Some (resultMarkdown w') /\ emptyOrPlan (resultMarkdown w').
Proof.
  intros He [Hel Hep].
  assert (Hgen : forall fuel f w2,
             resultEl (f w) = Some (resultMarkdown w) ->
             (modify f ;;; generatePomodoroPlan fuel) w = Return tt w2 ->
             resultEl w2 = Some (resultMarkdown w2)
             /\ emptyOrPlan (resultMarkdown w2)).
  { intros fuel f w2 Hf. cbv [bind modify].
    now apply generatePomodoroPlan_preview with (r := resultMarkdown w). }
  assert (Hnum : forall set fuel value w2,
             onChange_number set fuel value w = Return tt w2 ->
             resultEl w2 = Some (resultMarkdown w2)
             /\ emptyOrPlan (resultMarkdown w2)).
  { intros set fuel value w2. unfold onChange_number.
    destruct (parseInt value).
    - intros [= <-]. auto.
    - now apply Hgen. }
  destruct He as [fuel value w w' H|fuel value w w' H|fuel value w w' H
                 |fuel value w w' H|fuel value w w' H|fuel value w w' H
                 |fuel value w w' H|fuel value w w' H|fuel value w w' H];
    try (now apply Hnum in H);
    now apply Hgen in H.
Qed.

(** In every world of the form the preview shows the text the buttons
    work with. *)
Lemma reachable_preview (w : World) :
  reachable w ->
  resultEl w = Some (resultMarkdown w) /\ emptyOrPlan (resultMarkdown w).
Proof.
  induction 1 as [fuel s clk n w H|w w' _ IH He].
  - unfold onOpen in H. cbv [bind modify] in H.
    now apply generatePomodoroPlan_preview with (r := "") in H.
  - now apply (edits_keep_preview w w').
Qed.

(** ** The plugin *)

Lemma lookup_assignKey (key key' : string) (v : PomodoroPlanner.value)
  (o : PomodoroPlanner.object) :
  PomodoroPlanner.lookup key (PomodoroPlanner.assignKey key' v o)
  = if String.eqb key key' then Some v else PomodoroPlanner.lookup key o.
Proof.
  induction o as [|[k0 v0] o IH];
    cbn [PomodoroPlanner.assignKey PomodoroPlanner.lookup].
  - destruct (String.eqb key key'); reflexivity.
  - destruct (String.eqb_spec key' k0) as [->|N];
      cbn [PomodoroPlanner.lookup].
    + destruct (String.eqb key k0); reflexivity.
    + rewrite IH. destruct (String.eqb_spec key k0) as [->|N2];
        [|reflexivity].
      destruct (String.eqb_spec k0 key'); [congruence | reflexivity].
Qed.

(** [Object.assign] from one source: the source's properties win, the
    others stay. *)
Lemma lookup_assignFrom (key : string) (source : PomodoroPlanner.object) :
  distinctKeys source = true ->
  forall target,
    PomodoroPlanner.lookup key (PomodoroPlanner.assignFrom target source)
    = match PomodoroPlanner.lookup key source with
      | Some v => Some v
      | None => PomodoroPlanner.lookup key target
      end.
Proof.
  unfold PomodoroPlanner.assignFrom.
  induction source as [|[k0 v0] source IH]; intros Hd target;
    [reflexivity|].
  cbn [distinctKeys] in Hd.
  destruct (PomodoroPlanner.lookup k0 source) eqn:E0; [discriminate|].
  cbn [fold_left fst snd PomodoroPlanner.lookup].
  rewrite (IH Hd), lookup_assignKey.
  destruct (String.eqb_spec key k0) as [->|N]; [now rewrite E0|].
  reflexivity.
Qed.

Lemma ofObject_toObject (s : PomodoroSettings) :
  PomodoroPlanner.ofObject (PomodoroPlanner.toObject s) = Some s.
Proof. now destruct s. Qed.

(** What [onOpen] makes of a modal fresh from the constructor. *)
Lemma onOpen_construct (fuel : nat) (s : PomodoroSettings) (clk : nat -> Z)
  (n : nat) :
  onOpen fuel (construct s clk n)
  = Return tt
      (mkWorld s (formatTime (DateAt (clk n))) "" "" (Some "") clk
         (S (S n)) []).
Proof.
  unfold onOpen. cbv [bind modify].
  set (w := with_resultEl (Some "") (construct s clk n)).
  rewrite (generatePomodoroPlan_opened fuel w "" (initial (startOf w))
             eq_refl).
  - reflexivity.
  - apply while_stop. reflexivity.
Qed.

(** X16 (PomodoroPlanner.loadSettings, lines 44-46): the settings after
    loading are the saved properties over the defaults: a property of the
    data file wins, a property it lacks has its default, and nothing else
    appears.  So the first run has the default settings, and the data of
    the older version, which has the four numbers and no toggles, gives
    those numbers with the default toggles. *)
Theorem loadSettings_fills_in_defaults (p : PomodoroPlanner.Plugin)
  (key : string) :
  (forall d,
      PomodoroPlanner.data p = Some d -> distinctKeys d = true ->
      PomodoroPlanner.lookup key
        (PomodoroPlanner.this_settings (PomodoroPlanner.loadSettings p))
      = match PomodoroPlanner.lookup key d with
        | Some v => Some v
        | None =>
            PomodoroPlanner.lookup key
              (PomodoroPlanner.toObject DEFAULT_SETTINGS)
        end)
  /\ (PomodoroPlanner.data p = None ->
      PomodoroPlanner.this_settings (PomodoroPlanner.loadSettings p)
      = PomodoroPlanner.toObject DEFAULT_SETTINGS)
  /\ (forall e po sb lb g,
        PomodoroPlanner.data p = Some (olderData e po sb lb g) ->
        PomodoroPlanner.ofObject
          (PomodoroPlanner.this_settings (PomodoroPlanner.loadSettings p))
        = Some (mkSettings po sb lb g true false true)).
Proof.
  unfold PomodoroPlanner.loadSettings, PomodoroPlanner.loadData.
  cbn [PomodoroPlanner.this_settings PomodoroPlanner.Object_assign fold_left].
  split; [|split].
  - intros d -> Hd. now rewrite lookup_assignFrom.
  - intros ->. reflexivity.
  - intros e po sb lb g ->. reflexivity.
Qed.

(** X17 (PomodoroPlanner.saveSettings, loadSettings and the command's
    editorCallback, lines 31-50, with the constructor and onOpen): what
    was saved is what the next modal starts from.  After the settings s
    were saved the command opens a modal with settings s; the modal shows
    an empty plan, has the time of the clock reading as its start, has
    shown no notice and saved nothing, and this needs no iteration of the
    loop, whatever the lengths in s are. *)
Theorem saved_settings_open_the_next_modal (fuel : nat) (clk : nat -> Z)
  (n : nat) (s : PomodoroSettings) (p : PomodoroPlanner.Plugin) :
  PomodoroPlanner.editorCallback fuel clk n
    (PomodoroPlanner.saveSettings (PomodoroPlanner.toObject s) p)
  = Some (PomodoroPlanner.mkPlugin (PomodoroPlanner.toObject s)
            (Some (PomodoroPlanner.toObject s)),
          Return tt
            (mkWorld s (formatTime (DateAt (clk n))) "" "" (Some "") clk
               (S (S n)) [])).
Proof.
  unfold PomodoroPlanner.editorCallback, PomodoroPlanner.saveSettings,
    PomodoroPlanner.saveData, PomodoroPlanner.loadSettings,
    PomodoroPlanner.loadData.
  cbn [PomodoroPlanner.this_settings PomodoroPlanner.data
       PomodoroPlanner.Object_assign fold_left].
  replace (PomodoroPlanner.assignFrom _ (PomodoroPlanner.toObject s))
    with (PomodoroPlanner.toObject s) by reflexivity.
  now rewrite ofObject_toObject, onOpen_construct.
Qed.

(** ** Moving the end *)

Lemma willContinue_notBefore (e1 e2 : TimeOrCount) (d : Date) (n : Z) :
  notBefore e1 e2 ->
  willContinue d n e1 = true -> willContinue d n e2 = true.
Proof.
  destruct e1 as [a|[|a]], e2 as [b|[|b]]; cbn [notBefore]; try tauto.
  - cbn [willContinue]. rewrite !Z.leb_le. lia.
  - cbn [willContinue]. destruct d as [|t]; [discriminate|].
    rewrite !Date_le_at, !Z.leb_le. lia.
Qed.

(** What the loop schedules up to an end, it schedules up to every end
    that is not before it. *)
Lemma planLines_extends (s : PomodoroSettings) (e1 e2 : TimeOrCount) :
  notBefore e1 e2 ->
  forall fuel1 v ls1 v1,
    planLines fuel1 s e1 v = Some (ls1, v1) ->
    forall fuel2 ls2 v2,
      planLines fuel2 s e2 v = Some (ls2, v2) ->
      exists more, ls2 = (ls1 ++ more)%list.
Proof.
  intros Hb.
  apply (planLines_cases s e1
           (fun v ls1 _ =>
              forall fuel2 ls2 v2,
                planLines fuel2 s e2 v = Some (ls2, v2) ->
                exists more, ls2 = (ls1 ++ more)%list)).
  - intros v _ fuel2 ls2 v2 _. now exists ls2.
  - intros v Hf _ fuel2 ls2 v2 H2.
    apply (willContinue_notBefore _ _ _ _ Hb) in Hf. fold (fits s e2 v) in Hf.
    destruct fuel2 as [|fuel2];
      [now rewrite planLines_starved in H2|].
    rewrite planLines_step, Hf in H2.
    destruct (lookAhead s e2 v).
    + destruct (planLines fuel2 s e2 _) as [[ls v']|]; [|discriminate].
      injection H2 as <- <-. now eexists.
    + injection H2 as <- <-. now exists [].
  - intros v ls1 v1 Hf Hl IH fuel2 ls2 v2 H2.
    apply (willContinue_notBefore _ _ _ _ Hb) in Hf. fold (fits s e2 v) in Hf.
    apply (willContinue_notBefore _ _ _ _ Hb) in Hl.
    fold (lookAhead s e2 v) in Hl.
    destruct fuel2 as [|fuel2];
      [now rewrite planLines_starved in H2|].
    rewrite planLines_step, Hf, Hl in H2.
    destruct (planLines fuel2 s e2 _) as [[ls v']|] eqn:E; [|discriminate].
    injection H2 as <- <-.
    destruct (IH _ _ _ E) as [more ->]. now exists more.
Qed.

Lemma filter_app_render (s : PomodoroSettings) (a b : list PlanLine) :
  render (filter (shown s) (a ++ b))
  = render (filter (shown s) a) ++ render (filter (shown s) b).
Proof. now rewrite filter_app, render_app. Qed.

(** X18 (generatePomodoroPlan, the loop; willContinue): a later end time,
    or a larger count, only adds to a plan.  With the same start and
    settings, the schedule lines up to an end are the first schedule lines
    of the plan up to any end of the same kind that is not before it. *)
Theorem later_end_extends_the_plan (fuel1 fuel2 : nat) (s : PomodoroSettings)
  (e1 e2 : TimeOrCount) (startTime : Date) (st1 st2 : LoopState) :
  notBefore e1 e2 ->
  while fuel1 s e1 (initial startTime) = Some st1 ->
  while fuel2 s e2 (initial startTime) = Some st2 ->
  exists more,
    markdown st2 = markdown st1 ++ more
    /\ lines (markdown st2) = (lines (markdown st1) ++ lines more)%list.
Proof.
  intros Hb H1 H2.
  apply while_initial_schedule in H1 as (ls1 & Hp1 & ->).
  apply while_initial_schedule in H2 as (ls2 & Hp2 & ->).
  destruct (planLines_extends s e1 e2 Hb _ _ _ _ Hp1 _ _ _ Hp2)
    as [more ->].
  exists (render (filter (shown s) more)).
  rewrite filter_app_render. split; [reflexivity|].
  now rewrite <- render_app, !lines_render, map_app.
Qed.

(** Five pomodoros and then eight, from the start of example 1. *)
Lemma later_end_extends_the_plan_witness :
  exists st1 st2,
    (notBefore (Count 5) (Count 8)
     /\ while 5 DEFAULT_SETTINGS (Count 5) (initial (startOf example1))
        = Some st1
     /\ while 8 DEFAULT_SETTINGS (Count 8) (initial (startOf example1))
        = Some st2)
    /\ exists more,
         markdown st2 = markdown st1 ++ more
         /\ lines (markdown st2) = (lines (markdown st1) ++ lines more)%list.
Proof.
  destruct (while 5 DEFAULT_SETTINGS (Count 5) (initial (startOf example1)))
    as [st1|] eqn:E1; [|vm_compute in E1; discriminate].
  destruct (while 8 DEFAULT_SETTINGS (Count 8) (initial (startOf example1)))
    as [st2|] eqn:E2; [|vm_compute in E2; discriminate].
  assert (Hb : notBefore (Count 5) (Count 8)) by (cbn; lia).
  exists st1, st2. split; [repeat split; exact Hb|].
  exact (later_end_extends_the_plan 5 8 DEFAULT_SETTINGS (Count 5) (Count 8)
           (startOf example1) st1 st2 Hb E1 E2).
Defined.

(** ** Ends that are counts *)

Lemma parsesAsTime_without_colon (time : string) :
  avoids ":" time = true -> parsesAsTime time = false.
Proof.
  intros H. unfold parsesAsTime, minutesOf.
  rewrite (split_without _ _ H). cbn [map nth isNaN negb].
  apply andb_false_r.
Qed.

(** X19 (parseTimeOrCount, parseTime): an end without a colon is never
    taken as a time of day: "17" is seventeen pomodoros, not five o'clock
    in the afternoon.  parseTimeOrCount returns the count parseInt reads
    from it, or 0 with the notice when parseInt reads none and the string
    is not empty; it never throws. *)
Theorem end_without_colon_is_a_count (timeOrCount : string) (w : World) :
  avoids ":" timeOrCount = true ->
  exists w',
    parseTimeOrCount timeOrCount w = Return (Count (countOf timeOrCount)) w'
    /\ log w'
       = (log w
          ++ (if negb (String.eqb timeOrCount "")
                 && isNaN (parseInt timeOrCount)
              then [NoticeShown "Invalid time or count format"]
              else []))%list.
Proof.
  intros H. pose proof (parsesAsTime_without_colon _ H) as Hp.
  rewrite parseTimeOrCount_value. eexists. split.
  - f_equal. unfold endAt, countOf.
    destruct (String.eqb_spec timeOrCount "") as [->|_]; [reflexivity|].
    rewrite parsesAsTime_valid, Hp.
    now destruct (parseInt timeOrCount).
  - unfold notifies. rewrite Hp.
    destruct (String.eqb timeOrCount ""); cbn [negb andb];
      [now rewrite app_nil_r|].
    destruct (isNaN (parseInt timeOrCount)); cbn [emit tick log];
      [reflexivity | now rewrite app_nil_r].
Qed.

(** The end "17". *)
Lemma end_without_colon_is_a_count_witness :
  avoids ":" (end_ seventeen) = true
  /\ exists w',
       parseTimeOrCount (end_ seventeen) seventeen = Return (Count 17) w'
       /\ log w' = [].
Proof.
  split; [reflexivity|].
  destruct (end_without_colon_is_a_count (end_ seventeen) seventeen eq_refl)
    as (w' & Hp & Hl).
  exists w'. split; [exact Hp | exact Hl].
Defined.

(** ** Calls that throw, and what a call starts from *)

Lemma generatePomodoroPlan_unopened (fuel : nat) (w : World)
  (st : LoopState) :
  resultEl w = None ->
  while fuel (settings w) (endOf w) (initial (startOf w)) = Some st ->
  generatePomodoroPlan fuel w
  = if pomodoroCount st - 1 =? 0
    then Throw "TypeError" (leftUnopened w st)
    else Return tt (leftUnopened w st).
Proof.
  intros Hel Hw.
  assert (Hmd : (pomodoroCount st - 1 =? 0) = true -> markdown st = "").
  { intros H. apply Z.eqb_eq in H. eauto using empty_plan_markdown. }
  revert Hel Hw Hmd.
  unfold endOf, startOf, leftUnopened, noticesOf, readingsOf.
  cbv [generatePomodoroPlan bind ret get modify parseTime newDate run_loop].
  rewrite parseTimeOrCount_value. unfold notifies.
  destruct w as [s st0 en md el clk n lg]. world_fields.
  intros -> Hw Hmd.
  destruct (String.eqb en ""); cbn [negb andb];
    [|destruct (negb (parsesAsTime en) && isNaN (parseInt en))];
    world_fields; rewrite Hw; unfold planText;
    cbv [resultEl_setText saveSettings modify ret bind get]; world_fields;
    (destruct (pomodoroCount st - 1 =? 0);
     [rewrite (Hmd eq_refl)|destruct (includeStats s)]);
    cbn [Nat.add app]; rewrite ?app_nil_r, <- ?app_assoc; reflexivity.
Qed.

(** Before [onOpen]: the empty plan throws, the plan of five pomodoros is
    kept and not shown. *)
Example unopened_calls :
  (exists w', generatePomodoroPlan 5 unopened = Throw "TypeError" w')
  /\ exists w',
       generatePomodoroPlan 5 unopened_five = Return tt w'
       /\ resultEl w' = None /\ log w' = []
       /\ List.length (filter isPomodoroLine (lines (resultMarkdown w')))
          = 5%nat.
Proof.
  split.
  - eexists. vm_compute. reflexivity.
  - eexists. split; [vm_compute; reflexivity|].
    repeat split.
Qed.

(** ** The totals of the statistics *)

Lemma div_step (g c : Z) :
  0 < g ->
  c / g = (c - 1) / g + (if c mod g =? 0 then 1 else 0).
Proof.
  intros Hg. destruct (c mod g =? 0) eqn:E.
  - apply Z.eqb_eq in E. Z.to_euclidean_division_equations. nia.
  - apply Z.eqb_neq in E. Z.to_euclidean_division_equations. nia.
Qed.

Lemma restOf_0 (s : PomodoroSettings) : restOf s 0 = 0.
Proof.
  unfold restOf. destruct (0 <? group s); [|lia].
  change (0 / group s) with 0. lia.
Qed.

Lemma longDue_inStep (s : PomodoroSettings) (v : Vars) :
  inStep (group s) v ->
  longDue s v = (0 <? group s) && (v_count v mod group s =? 0).
Proof.
  intros H. destruct (inStep_afterRest s v H) as [_ E].
  unfold restLabel, dueRest in E.
  destruct (longDue s v), ((0 <? group s) && (v_count v mod group s =? 0));
    congruence.
Qed.

Lemma restOf_step (s : PomodoroSettings) (v : Vars) :
  inStep (group s) v ->
  restOf s (v_count v) = restOf s (v_count v - 1) + restLength s v.
Proof.
  intros H. unfold restLength. rewrite (longDue_inStep s v H).
  unfold restOf. destruct (0 <? group s) eqn:Hg; cbn [andb]; [|lia].
  apply Z.ltb_lt in Hg. rewrite (div_step (group s) (v_count v) Hg).
  destruct (v_count v mod group s =? 0); lia.
Qed.

(** Where the loop stops after a pomodoro, the rest time is the one of
    the breaks between the pomodoros so far. *)
Lemma planLines_rest_total (s : PomodoroSettings) (e : TimeOrCount)
  (fuel : nat) (v : Vars) (ls : list PlanLine) (v' : Vars) :
  planLines fuel s e v = Some (ls, v') ->
  inStep (group s) v -> v_rest v = restOf s (v_count v - 1) ->
  (v' = v /\ fits s e v = false)
  \/ (v_count v < v_count v' /\ v_rest v' = restOf s (v_count v' - 2)).
Proof.
  revert fuel v ls v'.
  apply (planLines_cases s e
           (fun v _ v' =>
              inStep (group s) v -> v_rest v = restOf s (v_count v - 1) ->
              (v' = v /\ fits s e v = false)
              \/ (v_count v < v_count v'
                  /\ v_rest v' = restOf s (v_count v' - 2)))).
  - intros v Hf _ _. left. auto.
  - intros v _ _ _ Hr. right. cbn [afterWork v_count v_rest].
    split; [lia|]. rewrite Hr. f_equal. lia.
  - intros v ls v' _ Hl IH Hv Hr.
    destruct (inStep_afterRest s v Hv) as [Hv' _].
    destruct (IH Hv') as [[-> Hf]|[Hc Hr']].
    + cbn [afterRest v_rest v_count]. rewrite Hr.
      replace (v_count v + 1 - 1) with (v_count v) by lia.
      symmetry. now apply restOf_step.
    + rewrite fits_afterRest in Hf. congruence.
    + right. cbn [afterRest v_count] in Hc. split; [lia | assumption].
Qed.

(** A schedule with pomodoros has one break less than pomodoros. *)
Lemma planLines_breaks_between (s : PomodoroSettings) (e : TimeOrCount)
  (fuel : nat) (v : Vars) (ls : list PlanLine) (v' : Vars) :
  planLines fuel s e v = Some (ls, v') ->
  (ls = [] /\ v' = v /\ fits s e v = false)
  \/ List.length (filter isWork ls) = S (List.length (filter isRest ls)).
Proof.
  revert fuel v ls v'.
  apply (planLines_cases s e
           (fun v ls v' =>
              (ls = [] /\ v' = v /\ fits s e v = false)
              \/ List.length (filter isWork ls)
                 = S (List.length (filter isRest ls)))).
  - intros v Hf. left. auto.
  - intros v _ _. right. reflexivity.
  - intros v ls v' _ Hl [(-> & -> & Hf)|IH].
    + rewrite fits_afterRest in Hf. congruence.
    + right. unfold isRest in *. cbn [filter].
      rewrite isWork_restEntry.
      cbn [workEntry isWork line_label negb List.length]. now rewrite IH.
Qed.

(** With a time as end, the loop stops after a pomodoro that ends in
    time. *)
Lemma planLines_ends_in_time (s : PomodoroSettings) (d : Date) (fuel : nat)
  (v : Vars) (ls : list PlanLine) (v' : Vars) :
  planLines fuel s (Time d) v = Some (ls, v') ->
  (v' = v /\ fits s (Time d) v = false)
  \/ (v_count v < v_count v' /\ Date_le (v_time v') d = true).
Proof.
  revert fuel v ls v'.
  apply (planLines_cases s (Time d)
           (fun v _ v' =>
              (v' = v /\ fits s (Time d) v = false)
              \/ (v_count v < v_count v' /\ Date_le (v_time v') d = true))).
  - intros v Hf. left. auto.
  - intros v Hf _. right. split; [cbn [afterWork v_count]; lia | exact Hf].
  - intros v ls v' _ Hl [[-> Hf]|[Hc Hd]].
    + rewrite fits_afterRest in Hf. congruence.
    + right. cbn [afterRest v_count] in Hc. split; [lia | assumption].
Qed.

